(** * Replication orchestration (replication.py): a shallow embedding

    The development follows [replication.py]: the address load balancer of
    [TargetCluster], the relationship cache of [ReplicationManager], the
    create / clean loops, the acceptance workflow and [validate_args].

    Python values are modelled as follows.
    - [str] is [string]; an optional value ([dict.get] without default,
      [Optional[...]]) is an [option].
    - [int] is [Z].
    - A dict whose iteration order the program relies on ([dst_load],
      [repli_paths]) is an insertion-ordered association list ([odict]).
    - A record received from the REST API, only ever read with [.get], is a
      [gmap string string].
    - An exception is a value of [exn]; a call that may raise returns a
      [result].
    - The REST client is a record of transition functions over an abstract
      [World]; every call the program issues is appended to a trace. *)

From Stdlib Require Import ZArith Lia DecimalString.
From stdpp Require Import base option list strings gmap.

Local Open Scope string_scope.
Local Open Scope Z_scope.

(** ** Exceptions and results *)

Inductive exn : Type :=
  | ValueError (msg : string)
  | TypeError (msg : string)
  | KeyError (msg : string)
  | AttributeError (msg : string)
  | ApiError (msg : string).

Inductive result (A : Type) : Type :=
  | Ok (a : A)
  | Raise (e : exn).
Arguments Ok {A} a.
Arguments Raise {A} e.

Definition is_ok {A} (r : result A) : bool :=
  match r with Ok _ => true | Raise _ => false end.

(** The value a Python function hands back to its caller, for the functions
    whose return value a caller may inspect. *)
Inductive pyval : Type :=
  | PNone
  | PInt (z : Z)
  | PStr (s : string).

(** ** Python built-ins used by the program *)

Module Py.

(** [str(n)] for an [int]. *)
Definition str_of_int (z : Z) : string :=
  NilZero.string_of_int (Z.to_int z).

(** [f"{x}"] for an optional string: [None] prints as [None]. *)
Definition fmt (o : option string) : string := default "None" o.

(** [f"{x}"] for an optional int. *)
Definition fmt_int (o : option Z) : string :=
  match o with Some z => str_of_int z | None => "None" end.

(** Truthiness of an optional string: [None] and [""] are false. *)
Definition truthy (o : option string) : bool :=
  match o with Some (String _ _) => true | _ => false end.

(** [s.startswith(p)] *)
Fixpoint startswith (s p : string) : bool :=
  match p, s with
  | EmptyString, _ => true
  | String c p', String d s' => bool_decide (c = d) && startswith s' p'
  | String _ _, EmptyString => false
  end.

(** [p in s] for strings: [p] occurs in [s] as a substring. *)
Fixpoint contains (p s : string) : bool :=
  startswith s p ||
  match s with
  | EmptyString => false
  | String _ s' => contains p s'
  end.

Definition map_ascii (f : Ascii.ascii -> Ascii.ascii) : string -> string :=
  fix go s :=
    match s with
    | EmptyString => EmptyString
    | String c s' => String (f c) (go s')
    end.

Definition upper_ascii (c : Ascii.ascii) : Ascii.ascii :=
  let n := Ascii.nat_of_ascii c in
  if (97 <=? n)%nat && (n <=? 122)%nat then Ascii.ascii_of_nat (n - 32) else c.

Definition lower_ascii (c : Ascii.ascii) : Ascii.ascii :=
  let n := Ascii.nat_of_ascii c in
  if (65 <=? n)%nat && (n <=? 90)%nat then Ascii.ascii_of_nat (n + 32) else c.

(** [s.upper()] and [s.lower()], on the ASCII letters (the state markers
    and operator answers the program compares are ASCII). *)
Definition upper : string -> string := map_ascii upper_ascii.
Definition lower : string -> string := map_ascii lower_ascii.

(** [s.split("\n")[0]]: the text before the first line feed. *)
Fixpoint first_line (s : string) : string :=
  match s with
  | EmptyString => EmptyString
  | String c s' =>
      if bool_decide (c = Ascii.ascii_of_nat 10) then EmptyString
      else String c (first_line s')
  end.

(** [repr] of a list of strings, for strings that need no escaping. *)
Definition repr_str (s : string) : string := "'" ++ s ++ "'".
Fixpoint join (sep : string) (l : list string) : string :=
  match l with
  | [] => ""
  | [x] => x
  | x :: r => x ++ sep ++ join sep r
  end.
Definition repr_list (l : list string) : string :=
  "[" ++ join ", " (map repr_str l) ++ "]".

(** [min(iterable, key=f)]: the first element whose key no other element
    undercuts; [None] stands for the [ValueError] on an empty iterable. *)
Definition keep_smaller {A} (key : A -> Z) (best y : A) : A :=
  if key y <? key best then y else best.

Definition min_by {A} (key : A -> Z) (l : list A) : option A :=
  match l with
  | [] => None
  | x :: r => Some (fold_left (keep_smaller key) r x)
  end.

End Py.

(** ** Insertion-ordered dictionaries *)

Abbreviation odict K V := (list (K * V)).

Section odict.
Context {K V : Type} `{EqDecision K}.

(** [d.get(k)] *)
Fixpoint od_get (d : list (K * V)) (k : K) : option V :=
  match d with
  | [] => None
  | (k', v) :: r => if decide (k = k') then Some v else od_get r k
  end.

(** [d[k] = v]: an existing key keeps its position, a new key goes last. *)
Fixpoint od_set (k : K) (v : V) (d : list (K * V)) : list (K * V) :=
  match d with
  | [] => [(k, v)]
  | (k', v') :: r =>
      if decide (k = k') then (k', v) :: r else (k', v') :: od_set k v r
  end.

(** [list(d)]: the keys in insertion order. *)
Definition od_keys (d : list (K * V)) : list K := d.*1.

(** [k in d] *)
Definition od_mem (k : K) (d : list (K * V)) : bool :=
  bool_decide (is_Some (od_get d k)).

End odict.

(** ** TargetCluster: the address pool *)

(** One entry of [network.get_floating_ip_allocation()]. *)
Record network : Type := {
  net_id : option Z;
  net_name : option string;
  net_floating_addresses : option (list string);
}.

Record TargetCluster : Type := {
  dst_load : odict string Z;
  available_ips : list string;
  network_id : option Z;
}.

(** [TargetCluster.get_next_dst_ip] *)
Definition get_next_dst_ip (tc : TargetCluster) : result (string * TargetCluster) :=
  let d := dst_load tc in
  if bool_decide (d = []) then
    Raise (ValueError "No destination IPs available for load balancing")
  else
    match Py.min_by (fun ip => default 0 (od_get d ip)) (od_keys d) with
    | None => Raise (ValueError "min() arg is an empty sequence")
    | Some min_ip =>
        match od_get d min_ip with
        | None => Raise (KeyError min_ip)
        | Some load =>
            Ok (min_ip,
                {| dst_load := od_set min_ip (load + 1) d;
                   available_ips := available_ips tc;
                   network_id := network_id tc |})
        end
    end.

(** [n] successive calls; the addresses handed out, oldest first. *)
Fixpoint get_next_dst_ip_n (n : nat) (tc : TargetCluster) : result (list string * TargetCluster) :=
  match n with
  | O => Ok ([], tc)
  | S n' =>
      match get_next_dst_ip tc with
      | Raise e => Raise e
      | Ok (ip, tc') =>
          match get_next_dst_ip_n n' tc' with
          | Raise e => Raise e
          | Ok (ips, tc'') => Ok (ip :: ips, tc'')
          end
      end
  end.

(** ** The process state and its monad *)

(** Credentials built by [create_credentials]. *)
Record Creds : Type := {
  QHOST : string;
  QUSER : string;
  QPASS : string;
  QPORT : Z;
}.

(** Every interaction with the outside: REST calls, prompts, logins. *)
Inductive api_call : Type :=
  | GetFloatingIpAllocation
  | GetClusterConf
  | ListSourceRelationshipStatuses
  | ListTargetRelationshipStatuses
  | TreeWalkPreorder (path : string) (max_depth : Z)
  | CreateSourceRelationship (address : string) (source_path target_path : option string)
  | DeleteSourceRelationship (rid : option string)
  | Authorize (rel_id : option string) (allow_non_empty_directory allow_fs_path_create : bool)
  | Input (prompt : string)
  | Getpass (prompt : string)
  | ClientFactory (creds : Creds).

Inductive level : Type := DEBUG | INFO | WARNING | ERROR.

(** One value of [repli_paths]: the dict with keys fid, replid and dst. *)
Record cache_entry : Type := {
  fid : option string;
  replid : option string;
  dst : option string;
}.

Record ReplicationManager : Type := {
  repli_paths : odict (option string) cache_entry;
  created_replications : gmap string string;
}.

(** [ReplicationManager.__init__] *)
Definition ReplicationManager_init : ReplicationManager :=
  {| repli_paths := []; created_replications := ∅ |}.

(** One element of the list [accept_pending_replications] returns. *)
Record accepted_rel : Type := {
  acc_id : option string;
  acc_target_path : string;
  acc_source_cluster : string;
}.

Section Program.
Context {World Client : Type}.

(** The collaborators: the two clusters' REST clients, the terminal and
    the client factory.  Each answer may depend on everything that
    happened before, through [World]. *)
Record Collaborator : Type := {
  get_floating_ip_allocation : World -> result (list network) * World;
  get_cluster_conf : World -> result (gmap string string) * World;
  list_source_relationship_statuses : World -> result (list (gmap string string)) * World;
  list_target_relationship_statuses : World -> result (list (gmap string string)) * World;
  tree_walk_preorder : string -> Z -> World -> result (list (gmap string string)) * World;
  create_source_relationship :
    string -> option string -> option string -> World -> result (gmap string string) * World;
  delete_source_relationship : option string -> World -> result unit * World;
  authorize : option string -> bool -> bool -> World -> result unit * World;
  input : string -> World -> result string * World;
  getpass : string -> World -> result string * World;
  client_factory : Creds -> World -> result Client * World;
}.

(** The state one run works on: the outside world, what was asked of it,
    what was logged, and the two objects [main] creates. *)
Record State : Type := {
  world : World;
  trace : list api_call;
  logs : list (level * string);
  the_rm : ReplicationManager;
  the_tc : TargetCluster;
}.

Definition M (A : Type) : Type := State -> result A * State.

Definition ret {A} (a : A) : M A := fun st => (Ok a, st).
Definition raise {A} (e : exn) : M A := fun st => (Raise e, st).
Definition bind {A B} (m : M A) (k : A -> M B) : M B :=
  fun st =>
    match m st with
    | (Ok a, st') => k a st'
    | (Raise e, st') => (Raise e, st')
    end.

(** [try: m except Exception as e: h e] *)
Definition try_except {A} (m : M A) (h : exn -> M A) : M A :=
  fun st =>
    match m st with
    | (Ok a, st') => (Ok a, st')
    | (Raise e, st') => h e st'
    end.

(** A call to a collaborator: recorded in the trace, answered by the world. *)
Definition call {A} (c : api_call) (f : World -> result A * World) : M A :=
  fun st =>
    let '(r, w) := f (world st) in
    (r, {| world := w; trace := trace st ++ [c]; logs := logs st;
           the_rm := the_rm st; the_tc := the_tc st |}).

(** [logger.<level>(msg)] *)
Definition log (l : level) (msg : string) : M unit :=
  fun st =>
    (Ok tt, {| world := world st; trace := trace st; logs := logs st ++ [(l, msg)];
               the_rm := the_rm st; the_tc := the_tc st |}).

Definition get_rm : M ReplicationManager := fun st => (Ok (the_rm st), st).
Definition get_tc : M TargetCluster := fun st => (Ok (the_tc st), st).
Definition set_rm (rm : ReplicationManager) : M unit :=
  fun st =>
    (Ok tt, {| world := world st; trace := trace st; logs := logs st;
               the_rm := rm; the_tc := the_tc st |}).
Definition set_tc (tc : TargetCluster) : M unit :=
  fun st =>
    (Ok tt, {| world := world st; trace := trace st; logs := logs st;
               the_rm := the_rm st; the_tc := tc |}).

(** [for x in l: body x] *)
Fixpoint for_each {A} (body : A -> M unit) (l : list A) : M unit :=
  match l with
  | [] => ret tt
  | x :: r => bind (body x) (fun _ => for_each body r)
  end.

End Program.

Notation "x <- m ;; k" := (bind m (fun x => k))
  (at level 100, m at next level, right associativity).
Notation "m ;;; k" := (bind m (fun _ => k))
  (at level 100, right associativity).

(** ** The operations of [replication.py] *)

Section Operations.
Context {World Client : Type} (api : @Collaborator World Client).

Local Abbreviation M := (@M World).

(** *** TargetCluster *)

(** Truthiness of a network dict: an empty dict is false. *)
Definition network_truthy (n : network) : bool :=
  bool_decide (is_Some (net_id n)) || bool_decide (is_Some (net_name n))
  || bool_decide (is_Some (net_floating_addresses n)).

(** [TargetCluster.get_dst_ips] *)
Definition get_dst_ips (network_id : option Z) : M (list string) :=
  fip_data <- call GetFloatingIpAllocation (get_floating_ip_allocation api) ;;
  let matching_network :=
    list_find (fun n => net_id n = network_id) fip_data in
  match matching_network with
  | Some (_, n) =>
      if network_truthy n then
        let floating_addresses := default [] (net_floating_addresses n) in
        if bool_decide (floating_addresses = []) then
          raise (ValueError ("Network ID " ++ Py.fmt_int network_id
                             ++ " has no Floating IPs available"))
        else ret floating_addresses
      else
        raise (ValueError ("Network ID " ++ Py.fmt_int network_id ++ " not found in cluster"))
  | None =>
      raise (ValueError ("Network ID " ++ Py.fmt_int network_id ++ " not found in cluster"))
  end.

(** [TargetCluster._validate_ips] *)
Definition _validate_ips (network_id : option Z) (user_ips : list string) : M (list string) :=
  cluster_fips <- get_dst_ips network_id ;;
  let invalid_ips := filter (fun ip => ip ∉ cluster_fips) user_ips in
  if bool_decide (invalid_ips = []) then
    log INFO ("Validated " ++ Py.str_of_int (Z.of_nat (length user_ips))
              ++ " destination IP(s): " ++ Py.repr_list user_ips) ;;;
    ret user_ips
  else
    raise (ValueError ("Invalid destination IPs not found in cluster FIPs: "
                       ++ Py.repr_list invalid_ips)).

(** [TargetCluster.__init__]; [network_id] defaults to 1 at the call site. *)
Definition TargetCluster_init (user_provided_ips : option (list string))
    (network_id : option Z) : M TargetCluster :=
  ips <- match user_provided_ips with
         | Some (ip :: r) => _validate_ips network_id (ip :: r)
         | _ => get_dst_ips network_id
         end ;;
  let load := fold_left (fun d ip => od_set ip 0 d) ips [] in
  match ips with
  | [ip] =>
      log WARNING ("Only one IP (" ++ ip ++ ") configured. Replications may be unbalanced.")
  | _ => ret tt
  end ;;;
  ret {| dst_load := load; available_ips := ips; network_id := network_id |}.

(** [dst.get_next_dst_ip()] on the process's target cluster. *)
Definition next_dst_ip : M string :=
  tc <- get_tc ;;
  match get_next_dst_ip tc with
  | Raise e => raise e
  | Ok (ip, tc') => set_tc tc' ;;; ret ip
  end.

(** *** ReplicationManager *)

(** [ReplicationManager.get_source_info]: the cluster name and the
    source relationship records. *)
Definition get_source_info : M (string * list (gmap string string)) :=
  conf <- call GetClusterConf (get_cluster_conf api) ;;
  match conf !! "cluster_name" with
  | None => raise (KeyError "cluster_name")
  | Some cluster_name =>
      source_relationships <-
        call ListSourceRelationshipStatuses (list_source_relationship_statuses api) ;;
      ret (cluster_name, source_relationships)
  end.

(** The body of the loop of [populate_replication_cache]. *)
Definition cache_one (cache : odict (option string) cache_entry)
    (repli : gmap string string) : odict (option string) cache_entry :=
  let repli_path := repli !! "source_root_path" in
  let qfile_id := repli !! "source_root_id" in
  let dst_ip := repli !! "target_address" in
  od_set repli_path {| fid := qfile_id; replid := repli !! "id"; dst := dst_ip |} cache.

(** [ReplicationManager.populate_replication_cache] *)
Definition populate_replication_cache : M unit :=
  source_info <- get_source_info ;;
  let relationships := source_info.2 in
  rm <- get_rm ;;
  set_rm {| repli_paths := fold_left cache_one relationships (repli_paths rm);
            created_replications := created_replications rm |}.

(** The body of the loop of [create_replications] for an entry after the
    first. *)
Definition create_one (entry : gmap string string) : M unit :=
  if bool_decide (entry !! "type" = Some "FS_FILE_TYPE_DIRECTORY") then
    let path := entry !! "path" in
    log INFO ("Evaluating path " ++ Py.fmt path) ;;;
    rm <- get_rm ;;
    if negb (od_mem path (repli_paths rm)) then
      dst_address <- next_dst_ip ;;
      log INFO ("Using IP " ++ dst_address ++ " to set next replication") ;;;
      replication_info <-
        call (CreateSourceRelationship dst_address path path)
             (create_source_relationship api dst_address path path) ;;
      let replication_id := default "" (replication_info !! "id") in
      log INFO ("Created replication relationship " ++ replication_id
                ++ " on with dst IP: " ++ dst_address ++ " " ++ String (Ascii.ascii_of_nat 10) ""
                ++ " path " ++ Py.fmt path) ;;;
      rm' <- get_rm ;;
      set_rm {| repli_paths := repli_paths rm';
                created_replications := replication_info ∪ created_replications rm' |}
    else
      log INFO ("Replication already existing in folder " ++ Py.fmt path ++ ". Skipping.")
  else ret tt.

(** The loop of [create_replications], with its [first] flag. *)
Fixpoint create_loop (first : bool) (entries : list (gmap string string)) : M unit :=
  match entries with
  | [] => ret tt
  | entry :: rest =>
      if first then
        log DEBUG "Skipping base directory entry" ;;;
        create_loop false rest
      else
        create_one entry ;;;
        create_loop false rest
  end.

(** [ReplicationManager.create_replications(basepath, dst)]; it has no
    [return] statement, so the caller receives [None]. *)
Definition create_replications (basepath : string) : M pyval :=
  entries <- call (TreeWalkPreorder basepath 1) (tree_walk_preorder api basepath 1) ;;
  create_loop true entries ;;;
  ret PNone.

(** The body of the loop of [clean_replications]. *)
Definition clean_one (basepath : string) (item : option string * cache_entry) : M unit :=
  let '(path, values) := item in
  log INFO ("Checking to delete " ++ Py.fmt path ++ " vs " ++ basepath) ;;;
  match path with
  | None => raise (AttributeError "'NoneType' object has no attribute 'startswith'")
  | Some p =>
      if Py.startswith p basepath then
        let rid := replid values in
        log INFO ("Clearing replication with " ++ Py.fmt rid
                  ++ " covering folder " ++ p) ;;;
        call (DeleteSourceRelationship rid) (delete_source_relationship api rid)
      else ret tt
  end.

(** [ReplicationManager.clean_replications(basepath)]; no [return]
    statement either. *)
Definition clean_replications (basepath : string) : M pyval :=
  rm <- get_rm ;;
  for_each (clean_one basepath) (repli_paths rm) ;;;
  ret PNone.

(** *** The acceptance workflow *)

(** [str(e)] *)
Definition exn_str (e : exn) : string :=
  match e with
  | ValueError m | TypeError m | AttributeError m | ApiError m => m
  | KeyError k => Py.repr_str k
  end.

(** The test of the filtering loop of [accept_pending_replications]. *)
Definition is_pending (rel : gmap string string) : bool :=
  let state := default "" (rel !! "state") in
  let relationship_state := default "" (rel !! "relationship_state") in
  bool_decide (Py.upper state = "AWAITING_AUTHORIZATION")
  || bool_decide (Py.upper state = "PENDING")
  || bool_decide (Py.upper relationship_state = "AWAITING_AUTHORIZATION")
  || bool_decide (Py.upper relationship_state = "PENDING").

(** What the acceptance loop appends for an authorized relationship. *)
Definition accepted_of (rel : gmap string string) : accepted_rel :=
  {| acc_id := rel !! "id";
     acc_target_path := default "N/A" (rel !! "target_root_path");
     acc_source_cluster := default "N/A" (rel !! "source_cluster_name") |}.

(** The [except Exception as e] handler of the acceptance loop. *)
Definition accept_handler (allow_non_empty_dir : bool) (rel_id : option string)
    (e : exn) : M unit :=
  let error_msg := exn_str e in
  if Py.contains "Error 400:" error_msg then
    let error_parts := Py.first_line error_msg in
    if Py.contains "not_empty" (Py.lower error_msg) && negb allow_non_empty_dir then
      log ERROR ("Failed to accept " ++ Py.fmt rel_id
                 ++ ": Target directory not empty. Use --allow_non_empty_dir to override.")
    else
      log ERROR ("Failed to accept " ++ Py.fmt rel_id ++ ": " ++ error_parts)
  else
    log ERROR ("Failed to accept replication " ++ Py.fmt rel_id ++ ": " ++ error_msg).

(** One iteration of the acceptance loop; [accepted] is the list built
    so far. *)
Definition accept_one (allow_non_empty_dir : bool) (accepted : list accepted_rel)
    (rel : gmap string string) : M (list accepted_rel) :=
  let rel_id := rel !! "id" in
  let target_path := default "N/A" (rel !! "target_root_path") in
  try_except
    (log INFO ("Accepting replication " ++ Py.fmt rel_id ++ " for path "
               ++ target_path ++ "...") ;;;
     call (Authorize rel_id allow_non_empty_dir true)
          (authorize api rel_id allow_non_empty_dir true) ;;;
     log INFO ("Successfully accepted replication " ++ Py.fmt rel_id) ;;;
     ret (accepted ++ [accepted_of rel])%list)
    (fun e => accept_handler allow_non_empty_dir rel_id e ;;; ret accepted).

Fixpoint accept_loop (allow_non_empty_dir : bool) (accepted : list accepted_rel)
    (pending : list (gmap string string)) : M (list accepted_rel) :=
  match pending with
  | [] => ret accepted
  | rel :: rest =>
      accepted' <- accept_one allow_non_empty_dir accepted rel ;;
      accept_loop allow_non_empty_dir accepted' rest
  end.

(** The text of the confirmation prompt. *)
Definition confirm_prompt (pending_relationships : list (gmap string string)) : string :=
  String (Ascii.ascii_of_nat 10) "" ++ "Accept all "
  ++ Py.str_of_int (Z.of_nat (length pending_relationships))
  ++ " replication(s)? (yes/no): ".

(** [TargetCluster.accept_pending_replications]; what it prints on the
    console is not part of the state. *)
Definition accept_pending_replications (allow_non_empty_dir confirm : bool) :
    M (list accepted_rel) :=
  log INFO "Querying destination cluster for pending replication relationships..." ;;;
  target_relationships <-
    call ListTargetRelationshipStatuses (list_target_relationship_statuses api) ;;
  let pending_relationships := filter (fun rel => is_pending rel = true) target_relationships in
  if bool_decide (pending_relationships = []) then
    log INFO "No pending replication relationships found on destination cluster." ;;;
    ret []
  else
    let accept_all := accept_loop allow_non_empty_dir [] pending_relationships in
    if confirm then
      let prompt := confirm_prompt pending_relationships in
      response <- call (Input prompt) (input api prompt) ;;
      if bool_decide (Py.lower response ∈ ["yes"; "y"]) then accept_all
      else log INFO "Acceptance cancelled by user." ;;; ret []
    else accept_all.

(** *** Argument validation *)

(** The attributes of the parsed arguments that [validate_args] may read,
    and the filter attributes the caller's namespace carries. *)
Record Args : Type := {
  action : string;
  src_host : option string;
  src_user : option string;
  src_password : option string;
  dst_host : option string;
  dst_user : option string;
  dst_password : option string;
  filteri : option (list string);
  filtere : option (list string);
}.

(** [qqbase.create_credentials(host, user, password)], port 8000. *)
Definition create_credentials (host user : string) (password : option string) : M Creds :=
  password' <- (if Py.truthy password then ret (default "" password)
                else
                  let prompt := "Enter password for " ++ user ++ "@" ++ host ++ ": " in
                  call (Getpass prompt) (getpass api prompt)) ;;
  ret {| QHOST := host; QUSER := user; QPASS := password'; QPORT := 8000 |}.

(** The connection step of [validate_args] for one cluster. *)
Definition connect (which : string) (host user password : option string) : M (option Client) :=
  if Py.truthy host && Py.truthy user then
    log INFO ("Connecting to " ++ which ++ " cluster " ++ Py.fmt host ++ "...") ;;;
    creds <- create_credentials (default "" host) (default "" user) password ;;
    client <- call (ClientFactory creds) (client_factory api creds) ;;
    ret (Some client)
  else ret None.

(** [validate_args(args, client_factory)] *)
Definition validate_args (args : Args) : M (option Client * option Client) :=
  (if bool_decide (action args ∈ ["summary"; "create"])
      && (negb (Py.truthy (src_host args)) || negb (Py.truthy (src_user args)))
   then raise (ValueError ("--src_host and --src_user are required for '"
                           ++ action args ++ "' action"))
   else ret tt) ;;;
  (if bool_decide (action args = "create")
      && (negb (Py.truthy (dst_host args)) || negb (Py.truthy (dst_user args)))
   then raise (ValueError "--dst_host and --dst_user are required for 'create' action")
   else ret tt) ;;;
  (if bool_decide (action args = "clean")
      && negb (Py.truthy (src_host args) && Py.truthy (src_user args))
      && negb (Py.truthy (dst_host args) && Py.truthy (dst_user args))
   then raise (ValueError "'clean' action requires at least src or dst credentials")
   else ret tt) ;;;
  (if bool_decide (action args = "accept")
      && (negb (Py.truthy (dst_host args)) || negb (Py.truthy (dst_user args)))
   then raise (ValueError "--dst_host and --dst_user are required for 'accept' action")
   else ret tt) ;;;
  src_client <- connect "source" (src_host args) (src_user args) (src_password args) ;;
  dst_client <- connect "destination" (dst_host args) (dst_user args) (dst_password args) ;;
  ret (src_client, dst_client).

(** *** Calls with keyword arguments *)

(** Python's check of the keywords of a call against the parameters of the
    [def]: a keyword that names no parameter raises [TypeError] before the
    body runs. *)
Definition bind_keywords (fname : string) (params keywords : list string) : M unit :=
  match filter (fun k => k ∉ params) keywords with
  | [] => ret tt
  | k :: _ =>
      raise (TypeError (fname ++ "() got an unexpected keyword argument '" ++ k ++ "'"))
  end.

(** [rm.create_replications(basepath=..., dst=..., **extra)] against
    [def create_replications(self, basepath, dst)]. *)
Definition call_create_replications (basepath : string)
    (extra : list (string * option string)) : M pyval :=
  bind_keywords "ReplicationManager.create_replications" ["self"; "basepath"; "dst"]
                (["basepath"; "dst"] ++ extra.*1) ;;;
  create_replications basepath.

(** [TargetCluster(client, user_provided_ips=..., **extra)] against
    [def __init__(self, client, user_provided_ips=None, network_id=1)]. *)
Definition call_TargetCluster (user_provided_ips : option (list string))
    (network_id : option Z) (extra : list (string * string)) : M TargetCluster :=
  bind_keywords "TargetCluster.__init__"
                ["self"; "client"; "user_provided_ips"; "network_id"] extra.*1 ;;;
  TargetCluster_init user_provided_ips network_id.

End Operations.

(** ** A scripted collaborator

    It plays the part of the fakes of the test suite: fixed listings, a
    cluster that numbers the relationships it creates, and per-item refusals. *)

Record Script : Type := {
  s_networks : list network;
  s_entries : list (gmap string string);
  s_source : list (gmap string string);
  s_target : list (gmap string string);
  s_create_refused : list (option string);
  s_authorize_error : list (option string * string);
  s_answer : string;
}.

Definition scripted (s : Script) : @Collaborator nat Creds := {|
  get_floating_ip_allocation := fun w => (Ok (s_networks s), w);
  get_cluster_conf := fun w => (Ok {[ "cluster_name" := "fake-cluster" ]}, w);
  list_source_relationship_statuses := fun w => (Ok (s_source s), w);
  list_target_relationship_statuses := fun w => (Ok (s_target s), w);
  tree_walk_preorder := fun _ _ w => (Ok (s_entries s), w);
  create_source_relationship := fun address source_path target_path w =>
    if bool_decide (source_path ∈ s_create_refused s) then
      (Raise (ApiError "Error 500: creation refused"), w)
    else
      (Ok (<[ "id" := "repl-" ++ Py.str_of_int (Z.of_nat (S w)) ]>
             (<[ "address" := address ]>
                (<[ "source_path" := Py.fmt source_path ]>
                   {[ "target_path" := Py.fmt target_path ]}))), S w);
  delete_source_relationship := fun _ w => (Ok tt, w);
  authorize := fun rel_id _ _ w =>
    match od_get (s_authorize_error s) rel_id with
    | Some msg => (Raise (ApiError msg), w)
    | None => (Ok tt, w)
    end;
  input := fun _ w => (Ok (s_answer s), w);
  getpass := fun _ w => (Ok "secret", w);
  client_factory := fun creds w => (Ok creds, w);
|}.

Definition empty_script : Script := {|
  s_networks := []; s_entries := []; s_source := []; s_target := [];
  s_create_refused := []; s_authorize_error := []; s_answer := "";
|}.

Definition empty_tc : TargetCluster :=
  {| dst_load := []; available_ips := []; network_id := Some 1 |}.

(** The state in which a run starts: nothing asked, nothing logged. *)
Definition initial (rm : ReplicationManager) (tc : TargetCluster) : @State nat :=
  {| world := O; trace := []; logs := []; the_rm := rm; the_tc := tc |}.

(** ** Vocabulary of the statements, and the inputs of the examples *)

Local Open Scope list_scope.

(** The loads of a pool of [k] addresses after [n] selections from equal
    loads, in pool order: the first [n mod k] addresses are one ahead. *)
Definition spread (k n : nat) : list Z :=
  replicate (n mod k)%nat (Z.of_nat (n / k)%nat + 1)
  ++ replicate (k - n mod k)%nat (Z.of_nat (n / k)%nat).

(** The pool is levelled after [n] selections: distinct addresses whose
    loads, in order, are [spread]. *)
Definition levelled (n : nat) (d : odict string Z) : Prop :=
  NoDup (od_keys d) ∧ d.*2 = spread (length d) n.

Definition zero_loads (ips : list string) (d : odict string Z) : odict string Z :=
  fold_left (fun d ip => od_set ip 0 d) ips d.

Definition default_network (ips : list string) : network :=
  {| net_id := Some 1; net_name := Some "Default"; net_floating_addresses := Some ips |}.

Definition two_fips : Script :=
  {| s_networks := [default_network ["10.1.1.20"; "10.1.1.21"]];
     s_entries := []; s_source := []; s_target := [];
     s_create_refused := []; s_authorize_error := []; s_answer := "" |}.

Definition two_ip_cluster (l0 l1 : Z) : TargetCluster :=
  {| dst_load := [("10.1.1.20", l0); ("10.1.1.21", l1)];
     available_ips := ["10.1.1.20"; "10.1.1.21"];
     network_id := Some 1 |}.

Definition one_ip_cluster : TargetCluster :=
  {| dst_load := [("10.1.1.20", 0)]; available_ips := ["10.1.1.20"];
     network_id := Some 1 |}.


Definition authorize_call (allow_non_empty_dir : bool) (rel : gmap string string) : api_call :=
  Authorize (rel !! "id") allow_non_empty_dir true.

Section acceptance_vocabulary.
Context {World Client : Type} (api : @Collaborator World Client).

(** The candidates the destination cluster agrees to authorize when it is
    asked about each of [pending] in turn, starting in world [w], and the
    world after the last answer. *)
Fixpoint authorized (allow_non_empty_dir : bool) (w : World)
    (pending : list (gmap string string)) : list (gmap string string) * World :=
  match pending with
  | [] => ([], w)
  | rel :: rest =>
      let '(r, w1) := authorize api (rel !! "id") allow_non_empty_dir true w in
      let '(oks, w2) := authorized allow_non_empty_dir w1 rest in
      (if is_ok r then rel :: oks else oks, w2)
  end.

(** The run gets past the confirmation step: nothing is pending, no
    confirmation was requested, or the operator answered yes.  The last two
    arguments are the world after the step and the calls the step made. *)
Inductive operator_agrees (confirm : bool) (pending : list (gmap string string))
    (w1 : World) : World → list api_call → Prop :=
  | nothing_pending : pending = [] → operator_agrees confirm pending w1 w1 []
  | not_asked : confirm = false → operator_agrees confirm pending w1 w1 []
  | said_yes response wg :
      confirm = true → pending ≠ [] →
      input api (confirm_prompt pending) w1 = (Ok response, wg) →
      Py.lower response ∈ ["yes"; "y"] →
      operator_agrees confirm pending w1 wg [Input (confirm_prompt pending)].

End acceptance_vocabulary.

(** A destination listing with five records: two awaiting authorization
    (the second refused by the cluster), one established, one without any
    state field, and one pending under the alternate field. *)
Definition rel_1 : gmap string string :=
  <[ "id" := "rel-1" ]> (<[ "state" := "AWAITING_AUTHORIZATION" ]>
    (<[ "target_root_path" := "/dst/a" ]> {[ "source_cluster_name" := "src" ]})).

Definition rel_2 : gmap string string :=
  <[ "id" := "rel-2" ]> (<[ "state" := "Pending" ]> {[ "target_root_path" := "/dst/b" ]}).

Definition rel_3 : gmap string string :=
  <[ "id" := "rel-3" ]> {[ "state" := "ESTABLISHED" ]}.

Definition rel_4 : gmap string string :=
  <[ "id" := "rel-4" ]> {[ "target_root_path" := "/dst/d" ]}.

Definition rel_5 : gmap string string :=
  <[ "id" := "rel-5" ]> {[ "relationship_state" := "awaiting_authorization" ]}.

Definition accept_script (answer : string) : Script :=
  {| s_networks := [default_network ["10.1.1.20"; "10.1.1.21"]];
     s_entries := []; s_source := [];
     s_target := [rel_1; rel_2; rel_3; rel_4; rel_5];
     s_create_refused := [];
     s_authorize_error :=
       [(Some "rel-2", ("Error 400: fs_directory_not_empty_error" ++
                        String (Ascii.ascii_of_nat 10) "" ++ "Backtrace: ...")%string)];
     s_answer := answer |}.

Definition accept_start : @State nat :=
  initial ReplicationManager_init (two_ip_cluster 0 0).

(** The cache entry [populate_replication_cache] derives from a record. *)
Definition entry_of (repli : gmap string string) : cache_entry :=
  {| fid := repli !! "source_root_id"; replid := repli !! "id";
     dst := repli !! "target_address" |}.

(** The source paths of a listing, one per record ([None] for a record
    without the field). *)
Definition source_paths (rels : list (gmap string string)) : list (option string) :=
  (λ repli, repli !! "source_root_path") <$> rels.

(** A source-side relationship record as the cluster lists it. *)
Definition source_rel (id path file_id address : string) : gmap string string :=
  <[ "id" := id ]> (<[ "source_root_path" := path ]>
    (<[ "source_root_id" := file_id ]> {[ "target_address" := address ]})).

Definition listing_script (rels : list (gmap string string)) : Script :=
  {| s_networks := [default_network ["10.1.1.20"]];
     s_entries := []; s_source := rels; s_target := [];
     s_create_refused := []; s_authorize_error := []; s_answer := "" |}.

(** A manager whose cache still holds one path from an earlier listing. *)
Definition stale_rm : ReplicationManager :=
  {| repli_paths := [(Some "/old/project",
                      {| fid := Some "7"; replid := Some "repl-000";
                         dst := Some "10.1.1.20" |})];
     created_replications := ∅ |}.

Definition fresh_listing : list (gmap string string) :=
  [source_rel "repl-001" "/data/project1" "1" "10.1.1.20"].

(** The cache of the clean test: three relationships under /data. *)
Definition three_rels : list (gmap string string) :=
  [source_rel "repl-001" "/data/prod-db" "1" "10.1.1.20";
   source_rel "repl-002" "/data/test-db" "2" "10.1.1.20";
   source_rel "repl-003" "/data/foo-app" "3" "10.1.1.20"].

Definition is_delete (c : api_call) : bool :=
  match c with DeleteSourceRelationship _ => true | _ => false end.

(** The cached entries [clean_replications] deletes: those whose source
    path starts with the base path. *)
Definition under (basepath : string) (item : option string * cache_entry) : bool :=
  match item.1 with
  | Some path => Py.startswith path basepath
  | None => false
  end.

(** A create call whose target path is its source path. *)
Definition target_is_source (c : api_call) : Prop :=
  match c with
  | CreateSourceRelationship _ source_path target_path => target_path = source_path
  | _ => True
  end.

Definition dir_entry (path : string) : gmap string string :=
  <[ "path" := path ]> {[ "type" := "FS_FILE_TYPE_DIRECTORY" ]}.

Section create_vocabulary.
Context {World : Type}.

(** What any part of [create_replications] may do to the state: issue
    calls whose create calls target the source path, log below error level,
    and leave the cache alone. *)
Definition create_frame (st st' : @State World) : Prop :=
  ∃ new newlogs,
    trace st' = trace st ++ new
    ∧ Forall target_is_source new
    ∧ logs st' = logs st ++ newlogs
    ∧ Forall (λ entry, entry.1 ≠ ERROR) newlogs
    ∧ repli_paths (the_rm st') = repli_paths (the_rm st).

End create_vocabulary.

(** The walk of the create tests: the base directory, then its
    subdirectories. *)
Definition walk_script (entries : list (gmap string string))
    (refused : list (option string)) : Script :=
  {| s_networks := [default_network ["10.1.1.20"; "10.1.1.21"]];
     s_entries := entries; s_source := []; s_target := [];
     s_create_refused := refused; s_authorize_error := []; s_answer := "" |}.

Definition three_dirs : list (gmap string string) :=
  [dir_entry "/data"; dir_entry "/data/a"; dir_entry "/data/b"; dir_entry "/data/c"].

Definition create_start : @State nat :=
  initial ReplicationManager_init (two_ip_cluster 0 0).

(** The state once /data/a is processed. *)
Definition after_first_dir : @State nat :=
  {| world := 1%nat;
     trace := [TreeWalkPreorder "/data" 1;
               CreateSourceRelationship "10.1.1.20" (Some "/data/a") (Some "/data/a")];
     logs := [(DEBUG, "Skipping base directory entry");
              (INFO, "Evaluating path /data/a");
              (INFO, "Using IP 10.1.1.20 to set next replication");
              (INFO, "Created replication relationship repl-1 on with dst IP: 10.1.1.20 "
                     +:+ String (Ascii.ascii_of_nat 10) "" +:+ " path /data/a")];
     the_rm := {| repli_paths := [];
                  created_replications :=
                    <[ "id" := "repl-1" ]>
                      (<[ "address" := "10.1.1.20" ]>
                         (<[ "source_path" := "/data/a" ]>
                            {[ "target_path" := "/data/a" ]})) |};
     the_tc := two_ip_cluster 1 0 |}.

Definition two_projects : list (gmap string string) :=
  [dir_entry "/data"; dir_entry "/data/project1"; dir_entry "/data/project2"].

Definition prefix_start : @State nat := initial ReplicationManager_init one_ip_cluster.

(** The arguments of the test of the mutual exclusion of the filters. *)
Definition both_filters : Args :=
  {| action := "create";
     src_host := Some "src.example.com"; src_user := Some "admin";
     src_password := Some "password123";
     dst_host := Some "dst.example.com"; dst_user := Some "admin";
     dst_password := Some "password456";
     filteri := Some ["prod-*"]; filtere := Some ["test-*"] |}.

Definition only_default : Script :=
  {| s_networks := [default_network ["10.1.1.20"]];
     s_entries := []; s_source := []; s_target := [];
     s_create_refused := []; s_authorize_error := []; s_answer := "" |}.

(** ** Further vocabulary: the loads of a pool *)

(** The sum of the loads of a pool. *)
Definition total_load (d : odict string Z) : Z := foldr Z.add 0 d.*2.

(** No two loads of the pool differ by more than [gap]. *)
Definition within (gap : Z) (d : odict string Z) : Prop :=
  ∀ kv kv', kv ∈ d → kv' ∈ d → kv.2 - kv'.2 ≤ gap.

(** The greatest load of a pool (0 for the empty pool). *)
Definition top_load (d : odict string Z) : Z :=
  match d.*2 with
  | [] => 0
  | v :: vs => foldr Z.max v vs
  end.

(** The selections it takes to lift every address to the greatest load. *)
Definition deficit (d : odict string Z) : Z :=
  Z.of_nat (length d) * top_load d - total_load d.

(** ** Further vocabulary: the log *)

(** The numeric value of a level, as [logging] orders them. *)
Definition levelno (l : level) : nat :=
  match l with DEBUG => 10 | INFO => 20 | WARNING => 30 | ERROR => 40 end%nat.

(** The entries of a log at or above a level. *)
Definition at_least (l : level) (entries : list (level * string)) : list (level * string) :=
  filter (λ entry, (levelno l ≤ levelno entry.1)%nat) entries.

(** A cluster that reports network 1 twice, the first time without
    addresses. *)
Definition empty_first : Script :=
  {| s_networks := [ {| net_id := Some 1; net_name := Some "Drained";
                        net_floating_addresses := Some [] |};
                     default_network ["10.1.1.20"; "10.1.1.21"] ];
     s_entries := []; s_source := []; s_target := [];
     s_create_refused := []; s_authorize_error := []; s_answer := "" |}.

(** ** Further vocabulary: the command line *)

(** Host and user of the source cluster are both given and non-empty. *)
Definition has_src (args : Args) : bool :=
  Py.truthy (src_host args) && Py.truthy (src_user args).

(** Host and user of the destination cluster are both given and non-empty. *)
Definition has_dst (args : Args) : bool :=
  Py.truthy (dst_host args) && Py.truthy (dst_user args).

(** The prompt of [create_credentials] for a cluster. *)
Definition password_prompt (host user : option string) : string :=
  ("Enter password for " +:+ default "" user +:+ "@" +:+ default "" host +:+ ": ")%string.

(** A call [validate_args] may make for one cluster: a password prompt
    when none was supplied, or a login on port 8000 as the given user at the
    given host, with the supplied password when there is one. *)
Definition login_step (host user password : option string) (c : api_call) : Prop :=
  Py.truthy host && Py.truthy user = true
  ∧ match c with
    | Getpass prompt => Py.truthy password = false ∧ prompt = password_prompt host user
    | ClientFactory creds =>
        QHOST creds = default "" host ∧ QUSER creds = default "" user
        ∧ QPORT creds = 8000
        ∧ (Py.truthy password = true → QPASS creds = default "" password)
    | _ => False
    end.

(** Arguments of a clean-up that names the destination cluster only and
    leaves its password to the prompt. *)
Definition clean_dst_only : Args :=
  {| action := "clean";
     src_host := None; src_user := None; src_password := None;
     dst_host := Some "dst.example.com"; dst_user := Some "admin";
     dst_password := None;
     filteri := None; filtere := None |}.

(** Arguments of a create that lacks the destination user. *)
Definition create_without_dst_user : Args :=
  {| action := "create";
     src_host := Some "src.example.com"; src_user := Some "admin";
     src_password := Some "password123";
     dst_host := Some "dst.example.com"; dst_user := Some "";
     dst_password := Some "password456";
     filteri := None; filtere := None |}.

(** ** Further vocabulary: an unreachable cluster *)

(** A collaborator whose every call fails. *)
Definition offline : @Collaborator nat Creds :=
  let refused {A} : nat → result A * nat :=
    λ w, (Raise (ApiError "Connection refused"), w) in
  {| get_floating_ip_allocation := refused;
     get_cluster_conf := refused;
     list_source_relationship_statuses := refused;
     list_target_relationship_statuses := refused;
     tree_walk_preorder := λ _ _, refused;
     create_source_relationship := λ _ _ _, refused;
     delete_source_relationship := λ _, refused;
     authorize := λ _ _ _, refused;
     input := λ _, refused;
     getpass := λ _, refused;
     client_factory := λ _, refused |}.

(** ** Further vocabulary: the create calls *)

(** The paths of the entries that [create_replications] asks a
    relationship for: the directories whose path is not cached, in the order
    of the walk. *)
Definition creatable (cache : odict (option string) cache_entry)
    (entries : list (gmap string string)) : list (option string) :=
  (λ entry, entry !! "path")
    <$> filter (λ entry, entry !! "type" = Some "FS_FILE_TYPE_DIRECTORY"
                         ∧ od_mem (entry !! "path") cache = false) entries.

(** A call the loop of [create_replications] may make: the creation of a
    relationship for one of [paths], to the same path, at one of [pool]. *)
Definition create_step (paths : list (option string)) (pool : list string)
    (c : api_call) : Prop :=
  match c with
  | CreateSourceRelationship address source_path target_path =>
      target_path = source_path ∧ source_path ∈ paths ∧ address ∈ pool
  | _ => False
  end.

(** The creation of a relationship for [path] at [address]. *)
Definition create_call (address : string) (path : option string) : api_call :=
  CreateSourceRelationship address path path.

(** A walk in which /data/project1 and /data/project2 are directories and
    /data/notes.txt is a file. *)
Definition mixed_walk : list (gmap string string) :=
  [dir_entry "/data"; dir_entry "/data/project1";
   <[ "path" := "/data/notes.txt" ]> {[ "type" := "FS_FILE_TYPE_FILE" ]};
   dir_entry "/data/project2"].

(** The source cluster already replicates /data/project1; the walk is
    [mixed_walk]. *)
Definition rerun_script : Script :=
  {| s_networks := [default_network ["10.1.1.20"; "10.1.1.21"]];
     s_entries := mixed_walk;
     s_source := fresh_listing; s_target := [];
     s_create_refused := []; s_authorize_error := []; s_answer := "" |}.

(** ** Further vocabulary: the delete calls *)

(** The deletion of the relationship of a cached entry. *)
Definition delete_call (item : option string * cache_entry) : api_call :=
  DeleteSourceRelationship (replid item.2).

(** A cluster that refuses to delete the relationships in [refused] and
    deletes the others. *)
Definition refusing (refused : list (option string)) : @Collaborator nat Creds :=
  {| get_floating_ip_allocation := get_floating_ip_allocation (scripted empty_script);
     get_cluster_conf := get_cluster_conf (scripted empty_script);
     list_source_relationship_statuses :=
       list_source_relationship_statuses (scripted empty_script);
     list_target_relationship_statuses :=
       list_target_relationship_statuses (scripted empty_script);
     tree_walk_preorder := tree_walk_preorder (scripted empty_script);
     create_source_relationship := create_source_relationship (scripted empty_script);
     delete_source_relationship := λ rid w,
       if bool_decide (rid ∈ refused)
       then (Raise (ApiError "Error 500: deletion refused"), w)
       else (Ok tt, S w);
     authorize := authorize (scripted empty_script);
     input := input (scripted empty_script);
     getpass := getpass (scripted empty_script);
     client_factory := client_factory (scripted empty_script) |}.

(** The cache after a listing of [rels] was cached by a new manager. *)
Definition cached (rels : list (gmap string string)) : ReplicationManager :=
  {| repli_paths := fold_left cache_one rels []; created_replications := ∅ |}.

(** A listing whose second record has no source path. *)
Definition pathless_listing : list (gmap string string) :=
  [source_rel "repl-001" "/data/prod-db" "1" "10.1.1.20";
   <[ "id" := "repl-002" ]> {[ "target_address" := "10.1.1.20" ]};
   source_rel "repl-003" "/data/foo-app" "3" "10.1.1.20"].

(** ** The clean-up of the destination cluster

    [TargetCluster.clean_ended_replications] talks to the destination
    cluster through the listing of the target relationships and through
    [delete_target_relationship]; its calls are recorded in a trace of their
    own, and its state is passed explicitly. *)

Inductive target_call : Type :=
  | ListTargetStatuses
  | DeleteTargetRelationship (rel_id : string).

(** One element of the list [ended_relationships]. *)
Record ended_rel : Type := {
  ended_id : string;
  ended_path : string;
  ended_source_cluster : string;
}.

Section Destination.
Context {World Client : Type} (api : @Collaborator World Client).
Context (delete_target_relationship : string → World → result unit * World).

(** The destination cluster, what was asked of it, and what was logged. *)
Record Destination : Type := {
  d_world : World;
  d_trace : list target_call;
  d_logs : list (level * string);
}.

Definition d_log (l : level) (msg : string) (d : Destination) : Destination :=
  {| d_world := d_world d; d_trace := d_trace d; d_logs := d_logs d ++ [(l, msg)] |}.

(** The body of the filtering loop: the element appended for [rel], if
    any. *)
Definition ended_of (basepath : string) (rel : gmap string string) : option ended_rel :=
  let target_path := default "" (rel !! "target_root_path") in
  let state := default "" (rel !! "state") in
  let rel_id := default "" (rel !! "id") in
  let source_cluster := default "" (rel !! "source_cluster_name") in
  if bool_decide (state = "ENDED") && Py.startswith target_path basepath then
    Some {| ended_id := rel_id; ended_path := target_path;
            ended_source_cluster := source_cluster |}
  else None.

(** The body of the deleting loop, with its [try]/[except]; the first
    component is [deleted_count]. *)
Definition delete_ended (acc : Z * Destination) (rel : ended_rel) : Z * Destination :=
  let '(deleted_count, d) := acc in
  let d1 := d_log INFO ("Deleting ENDED relationship: " +:+ ended_id rel
                        +:+ " (path: " +:+ ended_path rel
                        +:+ ", source: " +:+ ended_source_cluster rel +:+ ")") d in
  let '(r, w) := delete_target_relationship (ended_id rel) (d_world d1) in
  let d2 := {| d_world := w;
               d_trace := d_trace d1 ++ [DeleteTargetRelationship (ended_id rel)];
               d_logs := d_logs d1 |} in
  match r with
  | Ok _ =>
      (deleted_count + 1,
       d_log INFO ("Successfully deleted relationship " +:+ ended_id rel) d2)
  | Raise e =>
      (deleted_count,
       d_log ERROR ("Failed to delete relationship " +:+ ended_id rel
                    +:+ ": " +:+ exn_str e) d2)
  end.

(** [TargetCluster.clean_ended_replications(basepath)] *)
Definition clean_ended_replications (basepath : string) (d : Destination) :
    result Z * Destination :=
  let '(r, w) := list_target_relationship_statuses api (d_world d) in
  let d0 := {| d_world := w; d_trace := d_trace d ++ [ListTargetStatuses];
               d_logs := d_logs d |} in
  match r with
  | Raise e => (Raise e, d0)
  | Ok target_relationships =>
      let ended_relationships := omap (ended_of basepath) target_relationships in
      if bool_decide (ended_relationships = []) then
        (Ok 0, d_log INFO ("No ENDED relationships found under " +:+ basepath) d0)
      else
        let d1 := d_log INFO ("Found "
                              +:+ Py.str_of_int (Z.of_nat (length ended_relationships))
                              +:+ " ENDED relationship(s) to delete") d0 in
        let '(deleted_count, d2) := fold_left delete_ended ended_relationships (0, d1) in
        (Ok deleted_count,
         d_log INFO ("Deleted " +:+ Py.str_of_int deleted_count +:+ " of "
                     +:+ Py.str_of_int (Z.of_nat (length ended_relationships))
                     +:+ " ENDED relationship(s)") d2)
  end.

End Destination.

(** A destination listing for the clean-up: two ended relationships under
    /backup, one ended elsewhere, one established, and one whose state is
    spelled in lower case. *)
Definition target_rel (id path state : string) : gmap string string :=
  <[ "id" := id ]> (<[ "target_root_path" := path ]>
    (<[ "state" := state ]> {[ "source_cluster_name" := "src" ]})).

Definition ended_listing : list (gmap string string) :=
  [target_rel "t-1" "/backup/a" "ENDED";
   target_rel "t-2" "/other/b" "ENDED";
   target_rel "t-3" "/backup/c" "ESTABLISHED";
   target_rel "t-4" "/backup/d" "ended";
   target_rel "t-5" "/backup/e" "ENDED"].

Definition ended_script : Script :=
  {| s_networks := []; s_entries := []; s_source := [];
     s_target := ended_listing;
     s_create_refused := []; s_authorize_error := []; s_answer := "" |}.

(** A destination cluster that refuses to delete the relationships in
    [refused]. *)
Definition delete_unless (refused : list string) (rel_id : string) (w : nat) :
    result unit * nat :=
  if bool_decide (rel_id ∈ refused)
  then (Raise (ApiError "Error 404: relationship not found"), w)
  else (Ok tt, S w).

Definition destination_start : @Destination nat :=
  {| d_world := O; d_trace := []; d_logs := [] |}.

(** ** The summary table

    [ReplicationManager._display_cluster_summary] prints; its model gives
    the lines it prints, one string per call of [print].  A string is the
    sequence of its characters. *)

(** [s[:n]] for a natural [n]. *)
Fixpoint take_str (n : nat) (s : string) : string :=
  match n, s with
  | S n', String c s' => String c (take_str n' s')
  | _, _ => EmptyString
  end.

(** [s[:stop]]: a negative [stop] counts from the end. *)
Definition slice_to (s : string) (stop : Z) : string :=
  if stop <? 0 then take_str (Z.to_nat (Z.of_nat (String.length s) + stop)) s
  else take_str (Z.to_nat stop) s.

(** [s * n] *)
Fixpoint str_repeat (s : string) (n : nat) : string :=
  match n with
  | O => EmptyString
  | S n' => (s +:+ str_repeat s n')%string
  end.

(** [f"{s:<width}"] *)
Definition ljust (s : string) (width : nat) : string :=
  (s +:+ str_repeat " " (width - String.length s))%string.

(** [sorted(l)] by a strict order: the stable ascending sort. *)
Fixpoint insert_sorted {A} (lt : A → A → bool) (x : A) (l : list A) : list A :=
  match l with
  | [] => [x]
  | y :: r => if lt y x then y :: insert_sorted lt x r else x :: y :: r
  end.

Definition sorted_with {A} (lt : A → A → bool) (l : list A) : list A :=
  foldr (insert_sorted lt) [] l.

(** [ReplicationManager._truncate_string] *)
Definition _truncate_string (s : string) (max_len : Z) : string :=
  if Z.of_nat (String.length s) <=? max_len then s
  else (slice_to s (max_len - 3) +:+ "...")%string.

(** The dict [_display_cluster_summary] is given. *)
Record cluster_info : Type := {
  info_cluster_name : option string;
  info_relationships : option (list (gmap string string));
}.

(** The field names and labels chosen by the cluster type. *)
Record columns : Type := {
  local_path_field : string;
  local_label : string;
  remote_cluster_field : string;
  remote_path_field : string;
  remote_label : string;
}.

Definition columns_of (cluster_type : string) : columns :=
  if bool_decide (cluster_type = "Source") then
    {| local_path_field := "source_root_path"; local_label := "Source";
       remote_cluster_field := "target_cluster_name";
       remote_path_field := "target_root_path"; remote_label := "Target" |}
  else
    {| local_path_field := "target_root_path"; local_label := "Target";
       remote_cluster_field := "source_cluster_name";
       remote_path_field := "source_root_path"; remote_label := "Source" |}.

Definition SOURCE_PATH_WIDTH : nat := 35.
Definition TARGET_PATH_WIDTH : nat := 35.
Definition STATE_WIDTH : nat := 15.
Definition CLUSTER_WIDTH : nat := 20.
Definition ID_WIDTH : nat := 16.

(** The header line. *)
Definition table_header (c : columns) : string :=
  (ljust (local_label c +:+ " Path") SOURCE_PATH_WIDTH +:+ " | "
   +:+ ljust (remote_label c +:+ " Path") TARGET_PATH_WIDTH +:+ " | "
   +:+ ljust "State" STATE_WIDTH +:+ " | "
   +:+ ljust (remote_label c +:+ " Cluster") CLUSTER_WIDTH +:+ " | "
   +:+ ljust "ID (truncated)" ID_WIDTH)%string.

(** The line printed for one relationship. *)
Definition table_row (c : columns) (rel : gmap string string) : string :=
  let local_path :=
    _truncate_string (default "N/A" (rel !! local_path_field c))
                     (Z.of_nat SOURCE_PATH_WIDTH) in
  let remote_path :=
    _truncate_string (default "N/A" (rel !! remote_path_field c))
                     (Z.of_nat TARGET_PATH_WIDTH) in
  let state := _truncate_string (default "N/A" (rel !! "state")) (Z.of_nat STATE_WIDTH) in
  let remote_cluster :=
    _truncate_string (default "N/A" (rel !! remote_cluster_field c))
                     (Z.of_nat CLUSTER_WIDTH) in
  let rel_id := take_str ID_WIDTH (default "N/A" (rel !! "id")) in
  (ljust local_path SOURCE_PATH_WIDTH +:+ " | "
   +:+ ljust remote_path TARGET_PATH_WIDTH +:+ " | "
   +:+ ljust state STATE_WIDTH +:+ " | "
   +:+ ljust remote_cluster CLUSTER_WIDTH +:+ " | "
   +:+ ljust rel_id ID_WIDTH)%string.

(** The loop that fills [state_counts]. *)
Definition count_state (state_counts : odict string Z) (rel : gmap string string) :
    odict string Z :=
  let state := default "UNKNOWN" (rel !! "state") in
  od_set state (default 0 (od_get state_counts state) + 1) state_counts.

Definition state_counts_of (relationships : list (gmap string string)) : odict string Z :=
  fold_left count_state relationships [].

(** The order of the pairs (state, count). *)
Definition item_lt (x y : string * Z) : bool :=
  String.ltb x.1 y.1 || (String.eqb x.1 y.1 && (x.2 <? y.2)).

(** The line printed for one state. *)
Definition count_row (item : string * Z) : string :=
  (ljust item.1 25 +:+ " | " +:+ ljust (Py.str_of_int item.2) 10)%string.

Definition newline : string := String (Ascii.ascii_of_nat 10) "".

(** [ReplicationManager._display_cluster_summary(cluster_info, cluster_type)]:
    the lines printed. *)
Definition _display_cluster_summary (cluster_info : cluster_info)
    (cluster_type : string) : list string :=
  let cluster_name := default "Unknown" (info_cluster_name cluster_info) in
  let relationships := default [] (info_relationships cluster_info) in
  let c := columns_of cluster_type in
  [newline; str_repeat "=" 130; (cluster_type +:+ " Cluster Summary:")%string;
   str_repeat "=" 130; ("Cluster Name: " +:+ cluster_name)%string;
   ("Total Relationships: " +:+ Py.str_of_int (Z.of_nat (length relationships)))%string]
  ++ if bool_decide (relationships = []) then
       [(newline +:+ "No " +:+ Py.lower cluster_type
         +:+ " replication relationships found.")%string]
     else
       let header := table_header c in
       [newline; header; str_repeat "-" (String.length header)]
       ++ (table_row c
             <$> sorted_with
                   (λ x y, String.ltb (default "" (x !! "source_root_path"))
                                      (default "" (y !! "source_root_path")))
                   relationships)
       ++ [(newline +:+ ljust "State" 25 +:+ " | " +:+ ljust "Count" 10)%string;
           str_repeat "-" 38]
       ++ (count_row <$> sorted_with item_lt (state_counts_of relationships)).

(** The relationships of the test of the state summary. *)
Definition summary_rel (id path state : string) : gmap string string :=
  <[ "id" := id ]> (<[ "source_root_path" := path ]>
    (<[ "target_root_path" := path ]>
      (<[ "state" := state ]> {[ "target_cluster_name" := "dst-cluster" ]}))).

Definition summary_info : cluster_info :=
  {| info_cluster_name := Some "src-cluster";
     info_relationships :=
       Some [summary_rel "a1b2c3d4-e5f6-7890-abcd-ef1234567890" "/data/zeta" "ESTABLISHED";
             summary_rel "b2" "/data/a-very-long-directory-name-that-does-not-fit-the-column"
                         "ENDED";
             summary_rel "c3" "/data/alpha" "ESTABLISHED"] |}.

(** ** The create action

    What [main] does for the action create once [validate_args] has
    returned both clients: it makes the manager and the target cluster,
    refreshes the cache and creates.  [dst] is the list given with --dst, if
    any, and [dst_network_id] the parsed --dst_network_id. *)

Section Actions.
Context {World Client : Type} (api : @Collaborator World Client).

Definition create_action (dst : option (list string)) (dst_network_id : Z)
    (basepath : string) : @M World pyval :=
  set_rm ReplicationManager_init ;;;
  log INFO ("Querying base path " +:+ basepath) ;;;
  target_cluster <- TargetCluster_init api dst (Some dst_network_id) ;;
  set_tc target_cluster ;;;
  populate_replication_cache api ;;;
  create_replications api basepath.

End Actions.

Definition is_create (c : api_call) : bool :=
  match c with CreateSourceRelationship _ _ _ => true | _ => false end.

(** * Properties *)

(** ** Ordered dictionaries *)

Section odict_facts.
Context {K V : Type} `{EqDecision K}.
Implicit Types (d : list (K * V)) (k : K) (v : V).

Lemma od_get_set_eq d k v : od_get (od_set k v d) k = Some v.
Proof.
  induction d as [|[k' v'] d IH]; simpl.
  - by rewrite decide_True.
  - destruct (decide (k = k')) as [->|Hne]; simpl.
    + by rewrite decide_True.
    + by rewrite decide_False.
Qed.

Lemma od_get_set_ne d k k' v : k ≠ k' → od_get (od_set k v d) k' = od_get d k'.
Proof.
  intros Hne. induction d as [|[k0 v0] d IH]; simpl.
  - by rewrite decide_False.
  - destruct (decide (k = k0)) as [->|Hk]; simpl.
    + by rewrite !decide_False.
    + destruct (decide (k' = k0)); [done | apply IH].
Qed.

Lemma od_get_is_Some d k : is_Some (od_get d k) ↔ k ∈ od_keys d.
Proof.
  unfold od_keys. induction d as [|[k0 v0] d IH]; simpl.
  - split; [intros [? ?]; done | intros ?%elem_of_nil; done].
  - destruct (decide (k = k0)) as [->|Hk].
    + split; [intros _; left | eauto].
    + rewrite IH. split; [by right | intros [?|?]%elem_of_cons; [congruence|done]].
Qed.

Lemma od_keys_set_present d k v :
  k ∈ od_keys d → od_keys (od_set k v d) = od_keys d.
Proof.
  unfold od_keys. induction d as [|[k0 v0] d IH]; simpl.
  - intros ?%elem_of_nil; done.
  - intros Hin. destruct (decide (k = k0)) as [->|Hk]; simpl; [done|].
    f_equal. apply IH. apply elem_of_cons in Hin as [?|?]; [congruence|done].
Qed.

Lemma od_keys_set_absent d k v :
  k ∉ od_keys d → od_keys (od_set k v d) = od_keys d ++ [k].
Proof.
  unfold od_keys. induction d as [|[k0 v0] d IH]; simpl; [done|].
  intros Hin. destruct (decide (k = k0)) as [->|Hk]; simpl.
  - exfalso. apply Hin. left.
  - f_equal. apply IH. intros ?. apply Hin. by right.
Qed.

Lemma od_get_lookup d (j : nat) k v :
  NoDup (od_keys d) → d !! j = Some (k, v) → od_get d k = Some v.
Proof.
  unfold od_keys. revert j. induction d as [|[k0 v0] d IH]; intros j Hnd Hj; [done|].
  simpl in *. apply NoDup_cons in Hnd as [Hnotin Hnd].
  destruct j as [|j]; simpl in Hj.
  - injection Hj as -> ->. by rewrite decide_True.
  - rewrite decide_False; [by eapply IH|].
    intros ->. apply Hnotin.
    apply list_elem_of_lookup. exists j. by rewrite list_lookup_fmap, Hj.
Qed.

Lemma od_set_lookup d (j : nat) k v0 v :
  NoDup (od_keys d) → d !! j = Some (k, v0) → od_set k v d = <[j := (k, v)]> d.
Proof.
  unfold od_keys. revert j. induction d as [|[k0 v1] d IH]; intros j Hnd Hj; [done|].
  simpl in *. apply NoDup_cons in Hnd as [Hnotin Hnd].
  destruct j as [|j]; simpl in Hj.
  - injection Hj as -> ->. by rewrite decide_True.
  - rewrite decide_False; [simpl; f_equal; by eapply IH|].
    intros ->. apply Hnotin.
    apply list_elem_of_lookup. exists j. by rewrite list_lookup_fmap, Hj.
Qed.

Lemma od_set_nonempty d k v : od_set k v d ≠ [].
Proof. destruct d as [|[k0 v0] d]; simpl; [done|]. by destruct (decide (k = k0)). Qed.

Lemma od_keys_set_NoDup d k v : NoDup (od_keys d) → NoDup (od_keys (od_set k v d)).
Proof.
  intros Hnd. destruct (decide (k ∈ od_keys d)) as [Hin|Hin].
  - by rewrite od_keys_set_present.
  - rewrite od_keys_set_absent by done.
    apply NoDup_app. split_and!; [done | | apply NoDup_singleton].
    intros x Hx ->%list_elem_of_singleton. done.
Qed.

End odict_facts.

(** ** [min] with a key *)

Section min_by_facts.
Context {A : Type} (key : A → Z).

Lemma fold_keep_smaller_split (r : list A) (x : A) :
  ∃ l1 l2, x :: r = l1 ++ fold_left (Py.keep_smaller key) r x :: l2
           ∧ Forall (λ y, key (fold_left (Py.keep_smaller key) r x) < key y) l1
           ∧ Forall (λ y, key (fold_left (Py.keep_smaller key) r x) ≤ key y) l2.
Proof.
  induction r as [|y r IH] using rev_ind.
  - exists [], []. simpl. split_and!; constructor.
  - destruct IH as (l1 & l2 & Hsplit & Hbefore & Hafter).
    rewrite fold_left_app. simpl. set (m := fold_left (Py.keep_smaller key) r x) in *.
    assert (Py.keep_smaller key m y = if key y <? key m then y else m) as -> by reflexivity.
    destruct (Z.ltb_spec (key y) (key m)) as [Hlt|Hge].
    + exists (l1 ++ m :: l2), []. split_and!.
      * by rewrite app_comm_cons, Hsplit.
      * apply Forall_app. split; [|constructor; [done|]].
        -- eapply Forall_impl; [exact Hbefore|]. simpl. intros; lia.
        -- eapply Forall_impl; [exact Hafter|]. simpl. intros; lia.
      * constructor.
    + exists l1, (l2 ++ [y]). split_and!.
      * by rewrite app_comm_cons, Hsplit, <- app_assoc.
      * done.
      * apply Forall_app. split; [done|]. constructor; [done|constructor].
Qed.

(** On a non-empty list [min] returns the first element of least key. *)
Lemma min_by_first_least (l : list A) :
  l ≠ [] →
  ∃ m l1 l2, Py.min_by key l = Some m ∧ l = l1 ++ m :: l2
             ∧ Forall (λ y, key m < key y) l1
             ∧ Forall (λ y, key m ≤ key y) l2.
Proof.
  destruct l as [|x r]; [done|]. intros _.
  destruct (fold_keep_smaller_split r x) as (l1 & l2 & Hsplit & H1 & H2).
  exists (fold_left (Py.keep_smaller key) r x), l1, l2. done.
Qed.

Lemma min_by_least (l : list A) (m : A) :
  Py.min_by key l = Some m → ∀ y, y ∈ l → key m ≤ key y.
Proof.
  intros Hm y Hy. assert (l ≠ []) as Hne by (intros ->; inversion Hy).
  destruct (min_by_first_least l Hne) as (m' & l1 & l2 & Hm' & -> & H1 & H2).
  rewrite Hm in Hm'. injection Hm' as <-.
  rewrite Forall_forall in H1, H2.
  apply elem_of_app in Hy as [Hy | [->|Hy]%elem_of_cons].
  - specialize (H1 _ Hy). lia.
  - lia.
  - by apply H2.
Qed.

End min_by_facts.

(** ** The least-loaded selection *)

(** The selection step, address by address: the first address of least load
    is returned, and only its load changes. *)
Lemma get_next_dst_ip_step (tc : TargetCluster) :
  dst_load tc ≠ [] →
  ∃ ip load before after tc',
    get_next_dst_ip tc = Ok (ip, tc')
    ∧ od_keys (dst_load tc) = before ++ ip :: after
    ∧ od_get (dst_load tc) ip = Some load
    ∧ (∀ ip' load', od_get (dst_load tc) ip' = Some load' → load ≤ load')
    ∧ (∀ ip' load', ip' ∈ before → od_get (dst_load tc) ip' = Some load' → load < load')
    ∧ dst_load tc' = od_set ip (load + 1) (dst_load tc)
    ∧ available_ips tc' = available_ips tc
    ∧ network_id tc' = network_id tc.
Proof.
  intros Hne. unfold get_next_dst_ip.
  rewrite bool_decide_eq_false_2 by done.
  assert (od_keys (dst_load tc) ≠ []) as Hkeys.
  { unfold od_keys. destruct (dst_load tc); done. }
  destruct (min_by_first_least (fun ip => default 0 (od_get (dst_load tc) ip)) _ Hkeys)
    as (ip & before & after & Hmin & Hsplit & Hbefore & Hafter).
  cbv zeta. rewrite Hmin.
  assert (ip ∈ od_keys (dst_load tc)) as Hin.
  { rewrite Hsplit. apply elem_of_app. right. left. }
  apply od_get_is_Some in Hin as [load Hload].
  rewrite Hload. exists ip, load, before, after. eexists. split_and!; try done.
  - intros ip' load' Hget.
    assert (ip' ∈ od_keys (dst_load tc)) as Hin' by (apply od_get_is_Some; eauto).
    pose proof (min_by_least _ _ _ Hmin ip' Hin') as Hle.
    simpl in Hle. rewrite Hload, Hget in Hle. done.
  - intros ip' load' Hin' Hget.
    rewrite Forall_forall in Hbefore. specialize (Hbefore _ Hin').
    simpl in Hbefore. rewrite Hload, Hget in Hbefore. done.
Qed.

(** ** Balance of the pool *)

Lemma spread_0 (k : nat) : (0 < k)%nat → spread k 0 = replicate k 0.
Proof.
  intros Hk. unfold spread.
  rewrite Nat.Div0.mod_0_l, Nat.Div0.div_0_l, Nat.sub_0_r. done.
Qed.

Lemma spread_length (k n : nat) : (0 < k)%nat → length (spread k n) = k.
Proof.
  intros Hk. unfold spread. rewrite length_app, !length_replicate.
  pose proof (Nat.mod_upper_bound n k ltac:(lia)). lia.
Qed.

Lemma spread_lookup (k n j : nat) :
  (j < k)%nat →
  spread k n !! j =
    Some (if decide (j < n mod k)%nat then Z.of_nat (n / k)%nat + 1 else Z.of_nat (n / k)%nat).
Proof.
  intros Hj. unfold spread. destruct (decide (j < n mod k)%nat) as [Hlt|Hge].
  - rewrite lookup_app_l by (rewrite length_replicate; lia).
    by apply lookup_replicate_2.
  - rewrite lookup_app_r by (rewrite length_replicate; lia).
    rewrite length_replicate. apply lookup_replicate_2. lia.
Qed.

Lemma succ_div_mod (k n : nat) :
  (0 < k)%nat →
  ((n mod k + 1 < k)%nat ∧ (S n / k = n / k)%nat ∧ (S n mod k = n mod k + 1)%nat)
  ∨ ((n mod k + 1 = k)%nat ∧ (S n / k = n / k + 1)%nat ∧ (S n mod k = 0)%nat).
Proof.
  intros Hk.
  pose proof (Nat.div_mod_eq n k) as Hn.
  pose proof (Nat.mod_upper_bound n k ltac:(lia)) as Hr.
  destruct (decide (n mod k + 1 < k)%nat) as [Hlt|Hge].
  - left. split; [done|].
    assert (S n = k * (n / k) + (n mod k + 1))%nat as Hs by lia.
    split.
    + symmetry. apply (Nat.div_unique (S n) k (n / k) (n mod k + 1)); lia.
    + symmetry. apply (Nat.mod_unique (S n) k (n / k) (n mod k + 1)); lia.
  - right. split; [lia|].
    assert (S n = k * (n / k + 1) + 0)%nat as Hs by lia.
    split.
    + symmetry. apply (Nat.div_unique (S n) k (n / k + 1) 0); lia.
    + symmetry. apply (Nat.mod_unique (S n) k (n / k + 1) 0); lia.
Qed.

Lemma spread_succ (k n : nat) :
  (0 < k)%nat →
  <[(n mod k)%nat := Z.of_nat (n / k)%nat + 1]> (spread k n) = spread k (S n).
Proof.
  intros Hk.
  pose proof (Nat.mod_upper_bound n k ltac:(lia)) as Hr.
  unfold spread at 1.
  rewrite insert_app_r_alt by (rewrite length_replicate; lia).
  rewrite length_replicate, Nat.sub_diag.
  destruct (k - n mod k)%nat as [|rest] eqn:Hrest; [lia|]. simpl.
  unfold spread.
  destruct (succ_div_mod k n Hk) as [(Hlt & -> & ->)|(Heq & -> & ->)].
  - replace (k - (n mod k + 1))%nat with rest by lia.
    rewrite replicate_add. simpl. by rewrite <- app_assoc.
  - assert (rest = 0)%nat as -> by lia. simpl.
    rewrite Nat.sub_0_r, <- replicate_S_end.
    replace (S (n mod k))%nat with k by lia.
    f_equal. lia.
Qed.

Lemma levelled_step (n : nat) (tc : TargetCluster) :
  dst_load tc ≠ [] → levelled n (dst_load tc) →
  ∃ ip tc', get_next_dst_ip tc = Ok (ip, tc')
            ∧ levelled (S n) (dst_load tc')
            ∧ od_keys (dst_load tc') = od_keys (dst_load tc).
Proof.
  intros Hne [Hnd Hvals].
  destruct (get_next_dst_ip_step tc Hne)
    as (ip & load & before & after & tc' & Hres & Hsplit & Hload & Hleast & Hfirst & Hd' & _).
  set (d := dst_load tc) in *. set (k := length d) in *.
  assert (0 < k)%nat as Hk by (subst k; destruct d; simpl; [done|lia]).
  pose proof (Nat.mod_upper_bound n k ltac:(lia)) as Hr.
  set (i := length before).
  assert (od_keys d !! i = Some ip) as Hi.
  { rewrite Hsplit. by rewrite list_lookup_middle. }
  assert (∀ j, (j < k)%nat → ∃ ipj, d !! j = Some (ipj, default 0 (spread k n !! j))) as Hat.
  { intros j Hj. destruct (lookup_lt_is_Some_2 d j Hj) as [[ipj vj] Hdj].
    exists ipj. rewrite Hdj. do 2 f_equal.
    assert (d.*2 !! j = Some vj) as Hv by (by rewrite list_lookup_fmap, Hdj).
    rewrite Hvals in Hv. by rewrite Hv. }
  assert (i < k)%nat as Hik.
  { apply lookup_lt_Some in Hi. unfold od_keys in Hi. by rewrite length_fmap in Hi. }
  destruct (Hat i Hik) as (ipi & Hdi).
  assert (ipi = ip) as ->.
  { unfold od_keys in Hi. rewrite list_lookup_fmap, Hdi in Hi. by injection Hi. }
  pose proof (od_get_lookup d i _ _ Hnd Hdi) as Hload'.
  rewrite Hload in Hload'. injection Hload' as Hloadv.
  rewrite spread_lookup in Hloadv by done. simpl in Hloadv.
  assert (i = n mod k)%nat as Hin.
  { destruct (Hat (n mod k)%nat Hr) as (ipr & Hdr).
    pose proof (od_get_lookup d _ _ _ Hnd Hdr) as Hgr.
    rewrite spread_lookup in Hgr by done. simpl in Hgr.
    rewrite decide_False in Hgr by lia.
    destruct (decide (i < n mod k)%nat) as [Hlt|Hge].
    - specialize (Hleast _ _ Hgr). lia.
    - destruct (decide (i = n mod k)%nat) as [|Hneq]; [done|].
      assert (ipr ∈ before) as Hb.
      { apply list_elem_of_lookup. exists (n mod k)%nat.
        assert (od_keys d !! (n mod k)%nat = Some ipr) as Hkr.
        { unfold od_keys. by rewrite list_lookup_fmap, Hdr. }
        rewrite Hsplit, lookup_app_l in Hkr by (fold i; lia). done. }
      specialize (Hfirst _ _ Hb Hgr). lia. }
  exists ip, tc'. split; [done|].
  rewrite Hd'. rewrite (od_set_lookup d i ip _ _ Hnd Hdi).
  split; [split|].
  - unfold od_keys. rewrite list_fmap_insert. simpl.
    rewrite list_insert_id; [done|]. by rewrite list_lookup_fmap, Hdi.
  - rewrite list_fmap_insert, length_insert. simpl. fold k.
    rewrite Hvals, Hloadv, Hin. rewrite decide_False by lia.
    by apply spread_succ.
  - unfold od_keys. rewrite list_fmap_insert. simpl.
    rewrite list_insert_id; [done|]. by rewrite list_lookup_fmap, Hdi.
Qed.

(** *** The pool the constructor builds *)

Lemma od_set_Forall_value (P : Z → Prop) (d : odict string Z) ip v :
  Forall (λ kv, P kv.2) d → P v → Forall (λ kv, P kv.2) (od_set ip v d).
Proof.
  intros Hd Hv. induction d as [|[k0 v0] d IH]; simpl.
  - by constructor.
  - apply Forall_cons in Hd as [H0 Hd].
    destruct (decide (ip = k0)); constructor; auto.
Qed.

Lemma zero_loads_spec (ips : list string) (d : odict string Z) :
  NoDup (od_keys d) → Forall (λ kv, kv.2 = 0) d →
  NoDup (od_keys (zero_loads ips d))
  ∧ Forall (λ kv, kv.2 = 0) (zero_loads ips d)
  ∧ (∀ ip, ip ∈ od_keys (zero_loads ips d) ↔ ip ∈ od_keys d ∨ ip ∈ ips).
Proof.
  revert d. induction ips as [|ip ips IH]; intros d Hnd Hz; simpl.
  - split_and!; [done|done|].
    intros ip. rewrite elem_of_nil. tauto.
  - destruct (IH (od_set ip 0 d)) as (H1 & H2 & H3).
    { by apply od_keys_set_NoDup. }
    { by apply (od_set_Forall_value (λ v, v = 0)). }
    split_and!; [done|done|].
    intros ip'. rewrite H3, elem_of_cons.
    destruct (decide (ip ∈ od_keys d)) as [Hin|Hin].
    + rewrite od_keys_set_present by done. intuition (subst; auto).
    + rewrite od_keys_set_absent, elem_of_app, list_elem_of_singleton by done. intuition (subst; auto).
Qed.

Lemma zero_loads_keys_fresh (ips : list string) (d : odict string Z) :
  (∀ ip, ip ∈ ips → ip ∉ od_keys d) → NoDup ips →
  od_keys (zero_loads ips d) = od_keys d ++ ips.
Proof.
  revert d. induction ips as [|ip ips IH]; intros d Hfresh Hnd; simpl.
  - by rewrite app_nil_r.
  - apply NoDup_cons in Hnd as [Hip Hnd].
    assert (ip ∉ od_keys d) as Hd by (apply Hfresh; left).
    rewrite IH; [| |done].
    + rewrite od_keys_set_absent by done. by rewrite <- app_assoc.
    + intros y Hy. rewrite od_keys_set_absent by done.
      rewrite elem_of_app, list_elem_of_singleton.
      intros [Hpre| ->]; [|done].
      by apply (Hfresh y); [right|].
Qed.

Lemma zero_loads_nonempty (ips : list string) (d : odict string Z) :
  ips ≠ [] → zero_loads ips d ≠ [].
Proof.
  revert d. induction ips as [|ip ips IH]; [done|]. intros d _. simpl.
  destruct ips as [|ip' ips]; [apply od_set_nonempty|]. by apply IH.
Qed.

Lemma Forall_zero_values (d : odict string Z) :
  Forall (λ kv, kv.2 = 0) d → d.*2 = replicate (length d) 0.
Proof.
  induction 1 as [|[k v] d Hv Hd IH]; [done|]. rewrite fmap_cons. simpl in *. by f_equal.
Qed.

Lemma zero_loads_levelled (ips : list string) :
  ips ≠ [] → levelled 0 (zero_loads ips []).
Proof.
  intros Hne.
  destruct (zero_loads_spec ips []) as (Hnd & Hz & _); [constructor|constructor|].
  split; [done|].
  rewrite spread_0.
  - by apply Forall_zero_values.
  - pose proof (zero_loads_nonempty ips [] Hne). destruct (zero_loads ips []); simpl; [done|lia].
Qed.

Section constructor_facts.
Context {World Client : Type} (api : @Collaborator World Client).

Lemma get_dst_ips_nonempty network_id st ips st' :
  get_dst_ips api network_id st = (Ok ips, st') → ips ≠ [].
Proof.
  unfold get_dst_ips, bind, call, raise, ret.
  destruct (get_floating_ip_allocation api (world st)) as [[fip_data|e] w]; [|done].
  destruct (list_find _ fip_data) as [[i n]|]; [|done].
  destruct (network_truthy n); [|done].
  case_bool_decide as Hempty; [done|].
  intros [= <- _]. done.
Qed.

Lemma _validate_ips_returns network_id user_ips st ips st' :
  _validate_ips api network_id user_ips st = (Ok ips, st') → ips = user_ips.
Proof.
  unfold _validate_ips, bind, raise, ret, log.
  destruct (get_dst_ips api network_id st) as [[cluster_fips|e] st1]; [|done].
  case_bool_decide; [|done]. by intros [= <- _].
Qed.

(** What a successfully constructed [TargetCluster] looks like. *)
Lemma TargetCluster_init_ok user_provided_ips network_id st tc st' :
  TargetCluster_init api user_provided_ips network_id st = (Ok tc, st') →
  available_ips tc ≠ []
  ∧ dst_load tc = zero_loads (available_ips tc) [].
Proof.
  unfold TargetCluster_init. unfold bind at 1.
  destruct (match user_provided_ips with
            | Some (ip :: r) => _validate_ips api network_id (ip :: r)
            | _ => get_dst_ips api network_id
            end st) as [[ips|e] st1] eqn:Hips; [|done].
  assert (ips ≠ []) as Hne.
  { destruct user_provided_ips as [[|ip r]|].
    - by eapply get_dst_ips_nonempty.
    - apply _validate_ips_returns in Hips as ->. done.
    - by eapply get_dst_ips_nonempty. }
  unfold bind, ret, log.
  destruct ips as [|ip [|ip' r]]; [done| |]; by intros [= <- _].
Qed.

End constructor_facts.

Lemma levelled_n_calls (n m : nat) (tc : TargetCluster) :
  dst_load tc ≠ [] → levelled m (dst_load tc) →
  ∃ ips tc', get_next_dst_ip_n n tc = Ok (ips, tc')
             ∧ length ips = n
             ∧ levelled (m + n) (dst_load tc')
             ∧ od_keys (dst_load tc') = od_keys (dst_load tc).
Proof.
  revert m tc. induction n as [|n IH]; intros m tc Hne Hlev; simpl.
  - exists [], tc. by rewrite Nat.add_0_r.
  - destruct (levelled_step m tc Hne Hlev) as (ip & tc1 & -> & Hlev1 & Hkeys1).
    assert (dst_load tc1 ≠ []) as Hne1.
    { intros Hnil. rewrite Hnil in Hkeys1. destruct (dst_load tc); done. }
    destruct (IH (S m) tc1 Hne1 Hlev1) as (ips & tc2 & -> & Hlen & Hlev2 & Hkeys2).
    exists (ip :: ips), tc2. split_and!; [done|by simpl; f_equal| |congruence].
    by replace (m + S n)%nat with (S m + n)%nat by lia.
Qed.

Lemma od_get_elem_of (d : odict string Z) ip load :
  od_get d ip = Some load → (ip, load) ∈ d.
Proof.
  induction d as [|[k v] d IH]; simpl; [done|].
  destruct (decide (ip = k)) as [->|Hne].
  - intros [= ->]. left.
  - intros H. right. by apply IH.
Qed.

Lemma sum_replicate (a : nat) (x : Z) : foldr Z.add 0 (replicate a x) = Z.of_nat a * x.
Proof. induction a as [|a IH]; simpl; [done|]. rewrite IH. lia. Qed.

Lemma sum_spread (k n : nat) : (0 < k)%nat → foldr Z.add 0 (spread k n) = Z.of_nat n.
Proof.
  intros Hk. unfold spread. rewrite foldr_app, !sum_replicate.
  assert (∀ l acc, foldr Z.add acc l = foldr Z.add 0 l + acc) as Hacc.
  { induction l as [|y l IHl]; intros acc; simpl; [lia|]. rewrite IHl. lia. }
  rewrite Hacc, sum_replicate.
  pose proof (Nat.div_mod_eq n k) as Hn.
  pose proof (Nat.mod_upper_bound n k ltac:(lia)) as Hr.
  nia.
Qed.

Lemma spread_values (k n : nat) (v : Z) :
  (0 < k)%nat → v ∈ spread k n →
  v = Z.of_nat n / Z.of_nat k ∨ v = (Z.of_nat n + Z.of_nat k - 1) / Z.of_nat k.
Proof.
  intros Hk Hv.
  pose proof (Nat.div_mod_eq n k) as Hn.
  pose proof (Nat.mod_upper_bound n k ltac:(lia)) as Hr.
  assert (Z.of_nat n / Z.of_nat k = Z.of_nat (n / k)%nat) as Hq.
  { symmetry. apply Nat2Z.inj_div. }
  unfold spread in Hv. apply elem_of_app in Hv as [Hv|Hv];
    apply elem_of_replicate in Hv as [-> Hcount].
  - right.
    apply (Z.div_unique _ _ _ (Z.of_nat (n mod k)%nat - 1)); [lia|].
    apply (f_equal Z.of_nat) in Hn. rewrite Nat2Z.inj_add, Nat2Z.inj_mul in Hn. lia.
  - left. done.
Qed.

(** ** The address pool: the claims *)

(** C2. A call to [get_next_dst_ip] on an empty pool raises the
    [ValueError] of the source; on a non-empty pool it returns an address of
    the pool whose load no address undercuts and that every address before it
    in pool order exceeds, adds one to that address's load, leaves every other
    load as it was, and keeps the addresses and their order. *)
Theorem get_next_dst_ip_least_loaded (tc : TargetCluster) :
  (dst_load tc = [] →
   get_next_dst_ip tc = Raise (ValueError "No destination IPs available for load balancing"))
  ∧ (dst_load tc ≠ [] →
     ∃ ip load before after tc',
       get_next_dst_ip tc = Ok (ip, tc')
       ∧ od_keys (dst_load tc) = before ++ ip :: after
       ∧ od_get (dst_load tc) ip = Some load
       ∧ (∀ ip' load', od_get (dst_load tc) ip' = Some load' → load ≤ load')
       ∧ (∀ ip' load', ip' ∈ before → od_get (dst_load tc) ip' = Some load' → load < load')
       ∧ od_get (dst_load tc') ip = Some (load + 1)
       ∧ (∀ ip', ip' ≠ ip → od_get (dst_load tc') ip' = od_get (dst_load tc) ip')
       ∧ od_keys (dst_load tc') = od_keys (dst_load tc)
       ∧ available_ips tc' = available_ips tc
       ∧ network_id tc' = network_id tc).
Proof.
  split.
  - intros Hnil. unfold get_next_dst_ip. by rewrite bool_decide_eq_true_2.
  - intros Hne.
    destruct (get_next_dst_ip_step tc Hne)
      as (ip & load & before & after & tc' & Hres & Hsplit & Hload & Hleast & Hfirst
          & Hd' & Hips & Hnet).
    exists ip, load, before, after, tc'. split_and!; try done.
    + rewrite Hd'. apply od_get_set_eq.
    + intros ip' Hne'. rewrite Hd'. by apply od_get_set_ne.
    + rewrite Hd'. apply od_keys_set_present. apply od_get_is_Some. eauto.
Qed.

(** C1. A [TargetCluster] that was constructed has a pool of [k >= 1]
    distinct addresses (those of [available_ips], as many as listed when no
    address is listed twice), all of load zero; [n]
    successive calls to [get_next_dst_ip] all succeed, keep the pool's
    addresses, leave every address with load [floor(n/k)] or [ceil(n/k)],
    and the loads add up to [n]. *)
Theorem balanced_after_n_calls {World Client : Type} (api : @Collaborator World Client)
    (user_provided_ips : option (list string)) (network_id : option Z)
    (st st' : State) (tc : TargetCluster) (n : nat) :
  TargetCluster_init api user_provided_ips network_id st = (Ok tc, st') →
  1 ≤ Z.of_nat (length (dst_load tc))
  ∧ NoDup (od_keys (dst_load tc))
  ∧ (∀ ip, ip ∈ od_keys (dst_load tc) ↔ ip ∈ available_ips tc)
  ∧ (NoDup (available_ips tc) → od_keys (dst_load tc) = available_ips tc)
  ∧ (∀ ip, ip ∈ od_keys (dst_load tc) → od_get (dst_load tc) ip = Some 0)
  ∧ ∃ ips tc',
      get_next_dst_ip_n n tc = Ok (ips, tc')
      ∧ length ips = n
      ∧ od_keys (dst_load tc') = od_keys (dst_load tc)
      ∧ (∀ ip load, od_get (dst_load tc') ip = Some load →
           load = Z.of_nat n / Z.of_nat (length (dst_load tc))
           ∨ load = (Z.of_nat n + Z.of_nat (length (dst_load tc)) - 1)
                    / Z.of_nat (length (dst_load tc)))
      ∧ foldr Z.add 0 (dst_load tc').*2 = Z.of_nat n.
Proof.
  intros Hinit.
  apply TargetCluster_init_ok in Hinit as [Hips Hload].
  destruct (zero_loads_spec (available_ips tc) []) as (Hnd & Hzero & Hmem);
    [constructor|constructor|].
  pose proof (zero_loads_nonempty (available_ips tc) [] Hips) as Hne.
  pose proof (zero_loads_levelled (available_ips tc) Hips) as Hlev.
  pose proof (zero_loads_keys_fresh (available_ips tc) []) as Hfresh.
  rewrite <- Hload in *.
  assert (0 < length (dst_load tc))%nat as Hk.
  { destruct (dst_load tc); simpl; [done|lia]. }
  split_and!.
  - lia.
  - done.
  - intros ip. rewrite Hmem. unfold od_keys. simpl. rewrite elem_of_nil. tauto.
  - intros Hdistinct. apply Hfresh; [|done]. intros ip _. apply not_elem_of_nil.
  - intros ip Hin. apply od_get_is_Some in Hin as [load Hget].
    pose proof (od_get_elem_of _ _ _ Hget) as Hel.
    rewrite Forall_forall in Hzero. specialize (Hzero _ Hel). simpl in Hzero. by subst.
  - destruct (levelled_n_calls n 0 tc Hne Hlev) as (ips & tc' & Hres & Hlen & [Hnd' Hvals] & Hkeys).
    assert (length (dst_load tc') = length (dst_load tc)) as Hlen'.
    { unfold od_keys in Hkeys. apply (f_equal length) in Hkeys.
      by rewrite !length_fmap in Hkeys. }
    rewrite Hlen' in Hvals. simpl in Hvals.
    exists ips, tc'. split_and!; [done|done|done| |].
    + intros ip load Hget. apply spread_values; [done|].
      rewrite <- Hvals. apply od_get_elem_of in Hget.
      apply list_elem_of_fmap. by exists (ip, load).
    + rewrite Hvals. by apply sum_spread.
Qed.

Lemma get_next_dst_ip_least_loaded_witness :
  dst_load (two_ip_cluster 3 2) ≠ []
  ∧ ∃ ip load before after tc',
      get_next_dst_ip (two_ip_cluster 3 2) = Ok (ip, tc')
      ∧ od_keys (dst_load (two_ip_cluster 3 2)) = before ++ ip :: after
      ∧ od_get (dst_load (two_ip_cluster 3 2)) ip = Some load
      ∧ (∀ ip' load', od_get (dst_load (two_ip_cluster 3 2)) ip' = Some load' → load ≤ load')
      ∧ (∀ ip' load', ip' ∈ before →
           od_get (dst_load (two_ip_cluster 3 2)) ip' = Some load' → load < load')
      ∧ od_get (dst_load tc') ip = Some (load + 1)
      ∧ (∀ ip', ip' ≠ ip →
           od_get (dst_load tc') ip' = od_get (dst_load (two_ip_cluster 3 2)) ip')
      ∧ od_keys (dst_load tc') = od_keys (dst_load (two_ip_cluster 3 2))
      ∧ available_ips tc' = available_ips (two_ip_cluster 3 2)
      ∧ network_id tc' = network_id (two_ip_cluster 3 2).
Proof.
  assert (dst_load (two_ip_cluster 3 2) ≠ []) as Hne by (simpl; discriminate).
  split; [exact Hne|].
  exact (proj2 (get_next_dst_ip_least_loaded (two_ip_cluster 3 2)) Hne).
Defined.

Lemma balanced_after_n_calls_witness :
  TargetCluster_init (scripted two_fips) None (Some 1)
    (initial ReplicationManager_init empty_tc)
  = (Ok (two_ip_cluster 0 0),
     {| world := O; trace := [GetFloatingIpAllocation]; logs := [];
        the_rm := ReplicationManager_init; the_tc := empty_tc |})
  ∧ ∃ ips tc',
      get_next_dst_ip_n 5 (two_ip_cluster 0 0) = Ok (ips, tc')
      ∧ length ips = 5%nat
      ∧ od_keys (dst_load tc') = od_keys (dst_load (two_ip_cluster 0 0))
      ∧ (∀ ip load, od_get (dst_load tc') ip = Some load →
           load = Z.of_nat 5 / Z.of_nat (length (dst_load (two_ip_cluster 0 0)))
           ∨ load = (Z.of_nat 5 + Z.of_nat (length (dst_load (two_ip_cluster 0 0))) - 1)
                    / Z.of_nat (length (dst_load (two_ip_cluster 0 0))))
      ∧ foldr Z.add 0 (dst_load tc').*2 = Z.of_nat 5.
Proof.
  assert (TargetCluster_init (scripted two_fips) None (Some 1)
            (initial ReplicationManager_init empty_tc)
          = (Ok (two_ip_cluster 0 0),
             {| world := O; trace := [GetFloatingIpAllocation]; logs := [];
                the_rm := ReplicationManager_init; the_tc := empty_tc |})) as Hinit
    by (vm_compute; reflexivity).
  split; [exact Hinit|].
  exact (proj2 (proj2 (proj2 (proj2 (proj2
    (balanced_after_n_calls (scripted two_fips) None (Some 1) _ _ _ 5 Hinit)))))).
Defined.

Example get_next_example :
  get_next_dst_ip_n 3 (two_ip_cluster 0 0)
  = Ok (["10.1.1.20"; "10.1.1.21"; "10.1.1.20"], two_ip_cluster 2 1).
Proof. vm_compute. reflexivity. Qed.

Example get_next_skewed :
  get_next_dst_ip_n 4 (two_ip_cluster 3 0)
  = Ok (["10.1.1.21"; "10.1.1.21"; "10.1.1.21"; "10.1.1.20"], two_ip_cluster 4 3).
Proof. vm_compute. reflexivity. Qed.

(** ** The acceptance workflow *)

Section acceptance_facts.
Context {World Client : Type} (api : @Collaborator World Client).

Lemma accept_handler_logs allow rel_id e (st : @State World) :
  ∃ msg, accept_handler allow rel_id e st
         = (Ok tt, {| world := world st; trace := trace st;
                      logs := logs st ++ [(ERROR, msg)];
                      the_rm := the_rm st; the_tc := the_tc st |}).
Proof.
  unfold accept_handler, log.
  destruct (Py.contains "Error 400:" (exn_str e)); [|by eexists].
  destruct (Py.contains "not_empty" (Py.lower (exn_str e)) && negb allow); by eexists.
Qed.

(** One iteration of the acceptance loop always completes: one authorize
    call, and the candidate joins the list exactly when the call succeeds. *)
Lemma accept_one_spec allow accepted rel (st : @State World) :
  ∃ st',
    accept_one api allow accepted rel st
    = (Ok (if is_ok (authorize api (rel !! "id") allow true (world st)).1
           then accepted ++ [accepted_of rel] else accepted), st')
    ∧ world st' = (authorize api (rel !! "id") allow true (world st)).2
    ∧ trace st' = trace st ++ [authorize_call allow rel]
    ∧ the_rm st' = the_rm st ∧ the_tc st' = the_tc st.
Proof.
  unfold accept_one, try_except, bind, call, log, ret. simpl.
  destruct (authorize api (rel !! "id") allow true (world st)) as [[[]|e] w]; simpl.
  - eexists. split_and!; done.
  - match goal with |- context [accept_handler ?a ?i ?e ?s] =>
      destruct (accept_handler_logs a i e s) as [msg ->] end.
    simpl. eexists. split_and!; done.
Qed.

Lemma accept_loop_spec allow pending : ∀ accepted (st : @State World),
  ∃ st',
    accept_loop api allow accepted pending st
    = (Ok (accepted ++ (accepted_of <$> (authorized api allow (world st) pending).1)), st')
    ∧ world st' = (authorized api allow (world st) pending).2
    ∧ trace st' = trace st ++ (authorize_call allow <$> pending)
    ∧ the_rm st' = the_rm st ∧ the_tc st' = the_tc st.
Proof.
  induction pending as [|rel rest IH]; intros accepted st; simpl.
  - exists st. unfold ret. by rewrite !app_nil_r.
  - unfold bind.
    destruct (accept_one_spec allow accepted rel st) as (st1 & -> & Hw1 & Ht1 & Hrm1 & Htc1).
    destruct (authorize api (rel !! "id") allow true (world st)) as [r w1] eqn:Hauth.
    simpl in *. subst w1.
    destruct (IH (if is_ok r then accepted ++ [accepted_of rel] else accepted) st1)
      as (st2 & -> & Hw2 & Ht2 & Hrm2 & Htc2).
    destruct (authorized api allow (world st1) rest) as [oks w2] eqn:Hrest. simpl in *.
    exists st2. split_and!; [|done| |congruence|congruence].
    + do 2 f_equal. destruct (is_ok r); simpl; [|done]. by rewrite <- app_assoc.
    + rewrite Ht2, Ht1. by rewrite <- app_assoc.
Qed.

End acceptance_facts.

Section acceptance_claims.
Context {World Client : Type} (api : @Collaborator World Client).

Local Abbreviation pending_of rels := (filter (λ rel, is_pending rel = true) rels).

(** C7. Once the listing is fetched and the run is past the confirmation
    step, [accept_pending_replications] returns normally whatever the
    authorize calls answer: it issues one authorize call per pending
    candidate, in order, and returns exactly the candidates whose call
    succeeded, each as the record of its id, its target path and its source
    cluster name (N/A for a path or a name the listing does not give). *)
Theorem accept_pending_returns_authorized (allow confirm : bool) (st : @State World)
    (rels : list (gmap string string)) (w1 wg : World) (asked : list api_call) :
  list_target_relationship_statuses api (world st) = (Ok rels, w1) →
  operator_agrees api confirm (pending_of rels) w1 wg asked →
  ∃ st',
    accept_pending_replications api allow confirm st
    = (Ok ((λ rel, {| acc_id := rel !! "id";
                      acc_target_path := default "N/A" (rel !! "target_root_path");
                      acc_source_cluster := default "N/A" (rel !! "source_cluster_name") |})
             <$> (authorized api allow wg (pending_of rels)).1), st')
    ∧ world st' = (authorized api allow wg (pending_of rels)).2
    ∧ trace st' = trace st ++ [ListTargetRelationshipStatuses] ++ asked
                  ++ (authorize_call allow <$> pending_of rels).
Proof.
  intros Hlist Hgate.
  change (λ rel : gmap string string,
            {| acc_id := rel !! "id";
               acc_target_path := default "N/A" (rel !! "target_root_path");
               acc_source_cluster := default "N/A" (rel !! "source_cluster_name") |})
    with accepted_of.
  unfold accept_pending_replications, bind, log, call. simpl. rewrite Hlist.
  case_bool_decide as Hpending.
  - rewrite Hpending in *. simpl. unfold ret.
    inversion Hgate; subst; [| |done]; eexists; split_and!; try done;
      simpl; by rewrite ?app_nil_r.
  - inversion Hgate as [Hnil|Hconfirm|response wg' Hconfirm _ Hinput Hyes]; subst; [done| |].
    + match goal with |- context [accept_loop api allow [] ?p ?s] =>
        destruct (accept_loop_spec api allow p [] s) as (st' & -> & Hw & Ht & _) end.
      simpl in *. exists st'. split_and!; [done|done|].
      rewrite Ht. by rewrite <- !app_assoc.
    + simpl. rewrite Hinput. rewrite bool_decide_eq_true_2 by done.
      match goal with |- context [accept_loop api allow [] ?p ?s] =>
        destruct (accept_loop_spec api allow p [] s) as (st' & -> & Hw & Ht & _) end.
      simpl in *. exists st'. split_and!; [done|done|].
      rewrite Ht. by rewrite <- !app_assoc.
Qed.

(** When the operator does not answer yes, nothing is authorized. *)
Lemma accept_pending_declined (allow : bool) (st : @State World)
    (rels : list (gmap string string)) (w1 wg : World) (response : string) :
  list_target_relationship_statuses api (world st) = (Ok rels, w1) →
  pending_of rels ≠ [] →
  input api (confirm_prompt (pending_of rels)) w1 = (Ok response, wg) →
  Py.lower response ∉ ["yes"; "y"] →
  ∃ st',
    accept_pending_replications api allow true st = (Ok [], st')
    ∧ trace st' = trace st ++ [ListTargetRelationshipStatuses;
                               Input (confirm_prompt (pending_of rels))].
Proof.
  intros Hlist Hpending Hinput Hno.
  unfold accept_pending_replications, bind, log, call, ret. simpl. rewrite Hlist.
  rewrite bool_decide_eq_false_2 by done. simpl. rewrite Hinput.
  rewrite bool_decide_eq_false_2 by done. simpl.
  eexists. split; [done|]. simpl. by rewrite <- app_assoc.
Qed.



End acceptance_claims.

Example accept_example :
  accept_pending_replications (scripted (accept_script "YES")) false true accept_start
  = (Ok [ {| acc_id := Some "rel-1"; acc_target_path := "/dst/a";
             acc_source_cluster := "src" |};
          {| acc_id := Some "rel-5"; acc_target_path := "N/A";
             acc_source_cluster := "N/A" |} ],
     {| world := O;
        trace := [ListTargetRelationshipStatuses;
                  Input (confirm_prompt [rel_1; rel_2; rel_5]);
                  Authorize (Some "rel-1") false true;
                  Authorize (Some "rel-2") false true;
                  Authorize (Some "rel-5") false true];
        logs := [(INFO, "Querying destination cluster for pending replication relationships...");
                 (INFO, "Accepting replication rel-1 for path /dst/a...");
                 (INFO, "Successfully accepted replication rel-1");
                 (INFO, "Accepting replication rel-2 for path /dst/b...");
                 (ERROR, "Failed to accept rel-2: Target directory not empty. Use --allow_non_empty_dir to override.");
                 (INFO, "Accepting replication rel-5 for path N/A...");
                 (INFO, "Successfully accepted replication rel-5")];
        the_rm := ReplicationManager_init; the_tc := two_ip_cluster 0 0 |}).
Proof. vm_compute. reflexivity. Qed.

Example accept_declined_example :
  accept_pending_replications (scripted (accept_script "nope")) false true accept_start
  = (Ok [],
     {| world := O;
        trace := [ListTargetRelationshipStatuses;
                  Input (confirm_prompt [rel_1; rel_2; rel_5])];
        logs := [(INFO, "Querying destination cluster for pending replication relationships...");
                 (INFO, "Acceptance cancelled by user.")];
        the_rm := ReplicationManager_init; the_tc := two_ip_cluster 0 0 |}).
Proof. vm_compute. reflexivity. Qed.

Lemma accept_pending_returns_authorized_witness :
  ∃ st',
    accept_pending_replications (scripted (accept_script "YES")) false true accept_start
    = (Ok ((λ rel, {| acc_id := rel !! "id";
                      acc_target_path := default "N/A" (rel !! "target_root_path");
                      acc_source_cluster := default "N/A" (rel !! "source_cluster_name") |})
             <$> (authorized (scripted (accept_script "YES")) false O
                    (filter (λ rel, is_pending rel = true)
                       [rel_1; rel_2; rel_3; rel_4; rel_5])).1),
       st')
    ∧ world st'
      = (authorized (scripted (accept_script "YES")) false O
           (filter (λ rel, is_pending rel = true) [rel_1; rel_2; rel_3; rel_4; rel_5])).2
    ∧ trace st'
      = trace accept_start ++ [ListTargetRelationshipStatuses]
        ++ [Input (confirm_prompt
                     (filter (λ rel, is_pending rel = true)
                        [rel_1; rel_2; rel_3; rel_4; rel_5]))]
        ++ (authorize_call false <$>
              filter (λ rel, is_pending rel = true) [rel_1; rel_2; rel_3; rel_4; rel_5]).
Proof.
  apply (accept_pending_returns_authorized (scripted (accept_script "YES")) false true
           accept_start [rel_1; rel_2; rel_3; rel_4; rel_5] O O).
  - reflexivity.
  - apply (said_yes _ _ _ _ "YES" O).
    + reflexivity.
    + intros Hnil. apply (f_equal length) in Hnil. vm_compute in Hnil. discriminate Hnil.
    + reflexivity.
    + vm_compute. left.
Defined.


(** ** The relationship cache *)

Lemma cache_fold_keys (rels : list (gmap string string)) :
  ∀ (cache : odict (option string) cache_entry) p,
    p ∈ od_keys (fold_left cache_one rels cache) ↔ p ∈ od_keys cache ∨ p ∈ source_paths rels.
Proof.
  induction rels as [|repli rels IH]; intros cache p; simpl.
  - unfold source_paths. simpl. rewrite elem_of_nil. tauto.
  - rewrite IH, elem_of_cons. unfold cache_one.
    destruct (decide (repli !! "source_root_path" ∈ od_keys cache)) as [Hin|Hin].
    + rewrite od_keys_set_present by done. intuition (subst; auto).
    + rewrite od_keys_set_absent, elem_of_app, list_elem_of_singleton by done. intuition (subst; auto).
Qed.

Lemma cache_fold_get (rels : list (gmap string string)) :
  ∀ (cache : odict (option string) cache_entry) p,
    od_get (fold_left cache_one rels cache) p
    = match last (filter (λ repli, repli !! "source_root_path" = p) rels) with
      | Some repli => Some (entry_of repli)
      | None => od_get cache p
      end.
Proof.
  induction rels as [|repli rels IH] using rev_ind; intros cache p; [done|].
  rewrite fold_left_app, filter_app. simpl. unfold cache_one at 1.
  destruct (decide (repli !! "source_root_path" = p)) as [Hp|Hp].
  - rewrite (filter_cons_True _ repli) by done. rewrite filter_nil, last_snoc.
    rewrite Hp. apply od_get_set_eq.
  - rewrite (filter_cons_False _ repli) by done. rewrite filter_nil, app_nil_r.
    rewrite od_get_set_ne by done. apply IH.
Qed.

Lemma cache_fold_order (rels : list (gmap string string)) :
  ∀ (cache : odict (option string) cache_entry),
    ∃ added, od_keys (fold_left cache_one rels cache) = od_keys cache ++ added.
Proof.
  induction rels as [|repli rels IH]; intros cache; simpl.
  - exists []. by rewrite app_nil_r.
  - destruct (IH (cache_one cache repli)) as [added ->]. unfold cache_one.
    destruct (decide (repli !! "source_root_path" ∈ od_keys cache)) as [Hin|Hin].
    + rewrite od_keys_set_present by done. by exists added.
    + rewrite od_keys_set_absent by done. rewrite <- app_assoc. by eexists.
Qed.

Section cache_claims.
Context {World Client : Type} (api : @Collaborator World Client).

(** C9, as the code has it.  When the two source-cluster calls succeed,
    [populate_replication_cache] stores the record derived from each fetched
    relationship under its source path, replacing the entry of a path that
    was cached already (the last record of a path wins) and keeping every
    other entry: after the call the cache's keys are the keys it held before
    together with the source paths of the listing, the former in their old
    order; so they are exactly the fetched source paths when the cache was
    empty before the call. *)
Theorem populate_merges_into_cache (st : @State World) (conf : gmap string string)
    (cluster_name : string) (rels : list (gmap string string)) (w1 w2 : World) :
  get_cluster_conf api (world st) = (Ok conf, w1) →
  conf !! "cluster_name" = Some cluster_name →
  list_source_relationship_statuses api w1 = (Ok rels, w2) →
  ∃ st',
    populate_replication_cache api st = (Ok tt, st')
    ∧ (∀ p, p ∈ od_keys (repli_paths (the_rm st'))
            ↔ p ∈ od_keys (repli_paths (the_rm st)) ∨ p ∈ source_paths rels)
    ∧ (∃ added, od_keys (repli_paths (the_rm st'))
                = od_keys (repli_paths (the_rm st)) ++ added)
    ∧ (∀ p, od_get (repli_paths (the_rm st')) p
            = match last (filter (λ repli, repli !! "source_root_path" = p) rels) with
              | Some repli => Some (entry_of repli)
              | None => od_get (repli_paths (the_rm st)) p
              end)
    ∧ (repli_paths (the_rm st) = [] →
       ∀ p, p ∈ od_keys (repli_paths (the_rm st')) ↔ p ∈ source_paths rels)
    ∧ created_replications (the_rm st') = created_replications (the_rm st)
    ∧ the_tc st' = the_tc st
    ∧ trace st' = trace st ++ [GetClusterConf; ListSourceRelationshipStatuses].
Proof.
  intros Hconf Hname Hlist.
  unfold populate_replication_cache, get_source_info, bind, call, ret, get_rm, set_rm.
  simpl. rewrite Hconf, Hname. simpl. rewrite Hlist. simpl.
  eexists. split; [done|]. simpl. split_and!.
  - apply cache_fold_keys.
  - apply cache_fold_order.
  - apply cache_fold_get.
  - intros Hempty p. rewrite cache_fold_keys, Hempty. simpl.
    rewrite elem_of_nil. tauto.
  - done.
  - done.
  - by rewrite <- app_assoc.
Qed.

End cache_claims.

Example populate_example :
  od_keys (repli_paths (the_rm
    (populate_replication_cache (scripted (listing_script fresh_listing))
       (initial stale_rm empty_tc)).2))
  = [Some "/old/project"; Some "/data/project1"].
Proof. vm_compute. reflexivity. Qed.

(** C9 as stated fails: the path cached before the call is still a key
    after it, although the fetched listing does not contain it. *)
Lemma populate_keeps_prior_keys :
  ¬ (∀ p, p ∈ od_keys (repli_paths (the_rm
              (populate_replication_cache (scripted (listing_script fresh_listing))
                 (initial stale_rm empty_tc)).2))
          ↔ p ∈ source_paths fresh_listing).
Proof.
  intros Hclaim. specialize (Hclaim (Some "/old/project")).
  rewrite populate_example in Hclaim.
  assert (Some "/old/project" ∈ source_paths fresh_listing) as Hin
    by (apply Hclaim; left).
  vm_compute in Hin.
  apply elem_of_cons in Hin as [Heq|Hin]; [discriminate Heq|].
  by apply elem_of_nil in Hin.
Qed.

Lemma populate_merges_into_cache_witness :
  ∃ st',
    populate_replication_cache (scripted (listing_script fresh_listing))
      (initial stale_rm empty_tc) = (Ok tt, st')
    ∧ (∀ p, p ∈ od_keys (repli_paths (the_rm st'))
            ↔ p ∈ od_keys (repli_paths stale_rm) ∨ p ∈ source_paths fresh_listing).
Proof.
  destruct (populate_merges_into_cache (scripted (listing_script fresh_listing))
              (initial stale_rm empty_tc) {[ "cluster_name" := "fake-cluster" ]}
              "fake-cluster" fresh_listing O O eq_refl eq_refl eq_refl)
    as (st' & Hrun & Hkeys & _).
  exists st'. split; [exact Hrun | exact Hkeys].
Defined.

(** ** Cleaning *)

Section clean_facts.
Context {World Client : Type} (api : @Collaborator World Client).

(** [clean_replications] hands no count back: when it returns, it returns
    [None]. *)
Lemma clean_replications_returns_None (basepath : string) (st st' : @State World) (v : pyval) :
  clean_replications api basepath st = (Ok v, st') → v = PNone.
Proof.
  unfold clean_replications, bind, get_rm, ret.
  destruct (for_each (clean_one api basepath) (repli_paths (the_rm st)) st) as [[[]|e] st1];
    [|done].
  by intros [= <- _].
Qed.

Lemma clean_one_spec (basepath p : string) (values : cache_entry) (st : @State World) :
  (∀ rid w, (delete_source_relationship api rid w).1 = Ok tt) →
  ∃ st',
    clean_one api basepath (Some p, values) st = (Ok tt, st')
    ∧ trace st' = trace st ++ (if under basepath (Some p, values)
                               then [DeleteSourceRelationship (replid values)] else [])
    ∧ the_rm st' = the_rm st.
Proof.
  intros Hdel. unfold clean_one, under, bind, log, call, ret. simpl.
  destruct (Py.startswith p basepath); simpl.
  - pose proof (Hdel (replid values) (world st)) as Hok.
    destruct (delete_source_relationship api (replid values) (world st)) as [r w].
    simpl in Hok. subst r. eexists. split_and!; done.
  - eexists. split_and!; try done. simpl. by rewrite app_nil_r.
Qed.

Lemma clean_loop_deletes_under (basepath : string)
    (cache : odict (option string) cache_entry) :
  (∀ rid w, (delete_source_relationship api rid w).1 = Ok tt) →
  Forall (λ item, is_Some item.1) cache →
  ∀ st : @State World,
    ∃ st',
      for_each (clean_one api basepath) cache st = (Ok tt, st')
      ∧ filter (λ c, is_delete c = true) (trace st')
        = filter (λ c, is_delete c = true) (trace st)
          ++ ((λ item, DeleteSourceRelationship (replid item.2))
                <$> filter (λ item, under basepath item = true) cache)
      ∧ the_rm st' = the_rm st.
Proof.
  intros Hdel Hkeys.
  induction Hkeys as [|[path values] cache [p Hp] _ IH]; intros st.
  - exists st. simpl. unfold ret. by rewrite app_nil_r.
  - simpl in Hp. subst path.
    change (for_each (clean_one api basepath) ((Some p, values) :: cache) st)
      with (bind (clean_one api basepath (Some p, values))
                 (λ _, for_each (clean_one api basepath) cache) st).
    unfold bind.
    destruct (clean_one_spec basepath p values st Hdel) as (st1 & -> & Ht1 & Hrm1).
    destruct (IH st1) as (st' & -> & Htrace & Hrm).
    exists st'. split_and!; [done| |congruence].
    rewrite Htrace, Ht1, filter_app, <- app_assoc. f_equal.
    destruct (under basepath (Some p, values)) eqn:Hunder.
    + rewrite (filter_cons_True _ (DeleteSourceRelationship _)) by done.
      rewrite filter_nil, (filter_cons_True _ (Some p, values)) by done.
      by rewrite fmap_cons.
    + rewrite filter_nil, (filter_cons_False _ (Some p, values)); [done|].
      by rewrite Hunder.
Qed.

(** When every cached key is a path and the cluster accepts every delete,
    the delete calls are exactly those for the cached entries under the base
    path, in cache order. *)
Lemma clean_replications_deletes_under (basepath : string) (st : @State World) :
  (∀ rid w, (delete_source_relationship api rid w).1 = Ok tt) →
  Forall (λ item, is_Some item.1) (repli_paths (the_rm st)) →
  ∃ st',
    clean_replications api basepath st = (Ok PNone, st')
    ∧ filter (λ c, is_delete c = true) (trace st')
      = filter (λ c, is_delete c = true) (trace st)
        ++ ((λ item, DeleteSourceRelationship (replid item.2))
              <$> filter (λ item, under basepath item = true) (repli_paths (the_rm st)))
    ∧ the_rm st' = the_rm st.
Proof.
  intros Hdel Hkeys. unfold clean_replications, bind, get_rm, ret.
  destruct (clean_loop_deletes_under basepath _ Hdel Hkeys st) as (st' & -> & Htrace & Hrm).
  by exists st'.
Qed.

End clean_facts.

(** C4, at the input of the test of a clean without filters: the cache is
    populated with three relationships under /data and
    [clean_replications("/data")] is called.  The three deletes are issued,
    but the call returns [None], not the count 3. *)
Theorem clean_replications_returns_no_count :
  ∃ st',
    bind (populate_replication_cache (scripted (listing_script three_rels)))
         (λ _, clean_replications (scripted (listing_script three_rels)) "/data")
         (initial ReplicationManager_init empty_tc)
    = (Ok PNone, st')
    ∧ trace st' = [GetClusterConf; ListSourceRelationshipStatuses;
                   DeleteSourceRelationship (Some "repl-001");
                   DeleteSourceRelationship (Some "repl-002");
                   DeleteSourceRelationship (Some "repl-003")]
    ∧ PNone ≠ PInt 3.
Proof. eexists. split_and!; [vm_compute; reflexivity|reflexivity|discriminate]. Qed.

(** ** Creating *)

Ltac run_monad :=
  cbv beta iota zeta
      delta [bind ret raise log call try_except get_rm get_tc set_rm set_tc next_dst_ip negb];
  cbn [world trace logs the_rm the_tc].

Tactic Notation "frame_by" open_constr(new) open_constr(newlogs) :=
  exists new, newlogs; simpl; rewrite <- ?app_assoc, ?app_nil_r; simpl;
  split_and!; [reflexivity | repeat constructor | reflexivity
              | repeat constructor; discriminate | reflexivity].

Section create_facts.
Context {World Client : Type} (api : @Collaborator World Client).

Lemma create_frame_refl (st : @State World) : create_frame st st.
Proof. exists [], []. by rewrite !app_nil_r. Qed.

Lemma create_frame_trans (st1 st2 st3 : @State World) :
  create_frame st1 st2 → create_frame st2 st3 → create_frame st1 st3.
Proof.
  intros (n1 & l1 & Ht1 & Hn1 & Hl1 & Hf1 & Hc1) (n2 & l2 & Ht2 & Hn2 & Hl2 & Hf2 & Hc2).
  exists (n1 ++ n2), (l1 ++ l2). split_and!.
  - by rewrite Ht2, Ht1, app_assoc.
  - by apply Forall_app.
  - by rewrite Hl2, Hl1, app_assoc.
  - by apply Forall_app.
  - congruence.
Qed.

Lemma create_one_frame (entry : gmap string string) (st st' : @State World) r :
  create_one api entry st = (r, st') → create_frame st st'.
Proof.
  unfold create_one. case_bool_decide as Hdir; [|intros [= _ <-]; apply create_frame_refl].
  run_monad.
  destruct (od_mem (entry !! "path") (repli_paths (the_rm st))); run_monad.
  - intros [= _ <-]. frame_by (@nil api_call) [(INFO, _); (INFO, _)].
  - destruct (get_next_dst_ip (the_tc st)) as [[ip tc']|e]; run_monad.
    + destruct (create_source_relationship api ip (entry !! "path") (entry !! "path")
                  (world st)) as [[info|e] w]; run_monad.
      * intros [= _ <-].
        frame_by [CreateSourceRelationship ip (entry !! "path") (entry !! "path")]
                 [(INFO, _); (INFO, _); (INFO, _)].
      * intros [= _ <-].
        frame_by [CreateSourceRelationship ip (entry !! "path") (entry !! "path")]
                 [(INFO, _); (INFO, _)].
    + intros [= _ <-]. frame_by (@nil api_call) [(INFO, _)].
Qed.

Lemma create_loop_frame (entries : list (gmap string string)) :
  ∀ (first : bool) (st st' : @State World) r,
    create_loop api first entries st = (r, st') → create_frame st st'.
Proof.
  induction entries as [|entry rest IH]; intros first st st' r; simpl.
  - intros [= _ <-]. apply create_frame_refl.
  - destruct first.
    + unfold bind at 1. unfold log at 1. intros Hrun.
      eapply create_frame_trans; [|eapply IH; exact Hrun].
      frame_by (@nil api_call) [(DEBUG, _)].
    + unfold bind at 1.
      destruct (create_one api entry st) as [[[]|e] st1] eqn:Hone.
      * intros Hrun. eapply create_frame_trans; [by eapply create_one_frame|by eapply IH].
      * intros [= _ <-]. by eapply create_one_frame.
Qed.

(** Every create call of [create_replications] asks for the source path as
    the target path, whatever the walk yields and the cluster answers. *)
Lemma create_replications_frame (basepath : string) (st st' : @State World) r :
  create_replications api basepath st = (r, st') → create_frame st st'.
Proof.
  unfold create_replications. unfold bind at 1. unfold call at 1.
  destruct (tree_walk_preorder api basepath 1 (world st)) as [[entries|e] w] eqn:Hwalk.
  - unfold bind.
    match goal with |- context [create_loop api true entries ?s] =>
      destruct (create_loop api true entries s) as [[[]|e] st1] eqn:Hloop end.
    + unfold ret. intros [= _ <-].
      eapply create_frame_trans; [|by eapply create_loop_frame].
      frame_by [TreeWalkPreorder basepath 1] (@nil (level * string)).
    + intros [= _ <-].
      eapply create_frame_trans; [|by eapply create_loop_frame].
      frame_by [TreeWalkPreorder basepath 1] (@nil (level * string)).
  - intros [= _ <-]. frame_by [TreeWalkPreorder basepath 1] (@nil (level * string)).
Qed.

Lemma create_loop_app (before after : list (gmap string string)) (st : @State World) :
  create_loop api false (before ++ after) st
  = bind (create_loop api false before) (λ _, create_loop api false after) st.
Proof.
  revert st. induction before as [|entry before IH]; intros st; [done|].
  simpl. unfold bind.
  destruct (create_one api entry st) as [[[]|e] st1]; [|done].
  rewrite IH. reflexivity.
Qed.

End create_facts.

Section create_claims.
Context {World Client : Type} (api : @Collaborator World Client).

(** C3, as the code has it.  The create call is not guarded: when it fails
    for a directory entry, the exception leaves [create_replications] and the
    loop ends there.  The entries before it stay processed; for the failed
    entry there is one create call (no retry), no error-level log line and
    no change to the manager (nothing is tallied), its address stays counted
    in the pool, and no call is issued for any later entry. *)
Theorem create_failure_propagates (basepath : string) (st st2 : @State World)
    (base entry : gmap string string) (before after : list (gmap string string))
    (w1 w3 : World) (ip : string) (tc' : TargetCluster) (e : exn) :
  tree_walk_preorder api basepath 1 (world st) = (Ok (base :: before ++ entry :: after), w1) →
  create_loop api false before
    {| world := w1; trace := trace st ++ [TreeWalkPreorder basepath 1];
       logs := logs st ++ [(DEBUG, "Skipping base directory entry")];
       the_rm := the_rm st; the_tc := the_tc st |} = (Ok tt, st2) →
  entry !! "type" = Some "FS_FILE_TYPE_DIRECTORY" →
  od_mem (entry !! "path") (repli_paths (the_rm st2)) = false →
  get_next_dst_ip (the_tc st2) = Ok (ip, tc') →
  create_source_relationship api ip (entry !! "path") (entry !! "path") (world st2)
  = (Raise e, w3) →
  create_replications api basepath st
  = (Raise e,
     {| world := w3;
        trace := trace st2
                 ++ [CreateSourceRelationship ip (entry !! "path") (entry !! "path")];
        logs := logs st2
                ++ [(INFO, "Evaluating path " +:+ Py.fmt (entry !! "path"));
                    (INFO, "Using IP " +:+ ip +:+ " to set next replication")];
        the_rm := the_rm st2;
        the_tc := tc' |}).
Proof.
  intros Hwalk Hbefore Hdir Hfresh Hnext Hcreate.
  unfold create_replications. unfold bind at 1. unfold call at 1. rewrite Hwalk.
  unfold bind at 1. cbn [create_loop]. unfold bind at 1. unfold log at 1.
  cbn [world trace logs the_rm the_tc].
  rewrite create_loop_app. unfold bind at 1. rewrite Hbefore.
  cbn [create_loop]. unfold bind at 1.
  assert (create_one api entry st2
          = (Raise e,
             {| world := w3;
                trace := trace st2
                         ++ [CreateSourceRelationship ip (entry !! "path") (entry !! "path")];
                logs := logs st2
                        ++ [(INFO, "Evaluating path " +:+ Py.fmt (entry !! "path"));
                            (INFO, "Using IP " +:+ ip +:+ " to set next replication")];
                the_rm := the_rm st2;
                the_tc := tc' |})) as ->; [|done].
  unfold create_one. rewrite bool_decide_eq_true_2 by done.
  run_monad. rewrite Hfresh. run_monad. rewrite Hnext. run_monad. rewrite Hcreate.
  by rewrite <- app_assoc.
Qed.

End create_claims.

(** The cluster refuses /data/b: /data/a is created, the call for /data/b
    raises, and /data/c is never reached. *)
Example create_failure_example :
  create_replications (scripted (walk_script three_dirs [Some "/data/b"])) "/data" create_start
  = (Raise (ApiError "Error 500: creation refused"),
     {| world := 1%nat;
        trace := [TreeWalkPreorder "/data" 1;
                  CreateSourceRelationship "10.1.1.20" (Some "/data/a") (Some "/data/a");
                  CreateSourceRelationship "10.1.1.21" (Some "/data/b") (Some "/data/b")];
        logs := [(DEBUG, "Skipping base directory entry");
                 (INFO, "Evaluating path /data/a");
                 (INFO, "Using IP 10.1.1.20 to set next replication");
                 (INFO, "Created replication relationship repl-1 on with dst IP: 10.1.1.20 "
                        +:+ String (Ascii.ascii_of_nat 10) "" +:+ " path /data/a");
                 (INFO, "Evaluating path /data/b");
                 (INFO, "Using IP 10.1.1.21 to set next replication")];
        the_rm := {| repli_paths := [];
                     created_replications :=
                       <[ "id" := "repl-1" ]>
                         (<[ "address" := "10.1.1.20" ]>
                            (<[ "source_path" := "/data/a" ]>
                               {[ "target_path" := "/data/a" ]})) |};
        the_tc := two_ip_cluster 1 1 |}).
Proof. vm_compute. reflexivity. Qed.

(** C3 as stated fails: after the failure for /data/b the later directory
    /data/c is not processed. *)
Lemma create_failure_halts :
  ¬ (∃ address,
       CreateSourceRelationship address (Some "/data/c") (Some "/data/c")
       ∈ trace (create_replications (scripted (walk_script three_dirs [Some "/data/b"]))
                  "/data" create_start).2).
Proof.
  rewrite create_failure_example. simpl. intros (address & Hin).
  repeat (apply elem_of_cons in Hin as [Heq|Hin]; [discriminate Heq|]).
  by apply elem_of_nil in Hin.
Qed.

Lemma create_failure_propagates_witness :
  create_replications (scripted (walk_script three_dirs [Some "/data/b"])) "/data" create_start
  = (Raise (ApiError "Error 500: creation refused"),
     {| world := 1%nat;
        trace := trace after_first_dir
                 ++ [CreateSourceRelationship "10.1.1.21"
                       (dir_entry "/data/b" !! "path") (dir_entry "/data/b" !! "path")];
        logs := logs after_first_dir
                ++ [(INFO, "Evaluating path " +:+ Py.fmt (dir_entry "/data/b" !! "path"));
                    (INFO, "Using IP " +:+ "10.1.1.21" +:+ " to set next replication")];
        the_rm := the_rm after_first_dir;
        the_tc := two_ip_cluster 1 1 |}).
Proof.
  apply (create_failure_propagates (scripted (walk_script three_dirs [Some "/data/b"]))
           "/data" create_start after_first_dir (dir_entry "/data") (dir_entry "/data/b")
           [dir_entry "/data/a"] [dir_entry "/data/c"] O).
  - reflexivity.
  - vm_compute. reflexivity.
  - vm_compute. reflexivity.
  - vm_compute. reflexivity.
  - vm_compute. reflexivity.
  - vm_compute. reflexivity.
Defined.

(** ** The destination path *)

Example one_ip_cluster_constructed :
  (TargetCluster_init (scripted (walk_script two_projects [])) (Some ["10.1.1.20"]) (Some 1)
     (initial ReplicationManager_init empty_tc)).1
  = Ok {| dst_load := [("10.1.1.20", 0)]; available_ips := ["10.1.1.20"];
          network_id := Some 1 |}.
Proof. vm_compute. reflexivity. Qed.

(** C5, at the input of the test of a custom destination prefix:
    directories /data/project1 and /data/project2, prefix /backup.
    [create_replications] has no prefix parameter: the call with the prefix
    raises [TypeError] before anything is created, and the call it accepts
    creates both relationships with the source path as the target path, not
    with /backup in front. *)
Theorem create_replications_has_no_prefix :
  call_create_replications (scripted (walk_script two_projects [])) "/data"
    [("dst_path", Some "/backup")] prefix_start
  = (Raise (TypeError "ReplicationManager.create_replications() got an unexpected keyword argument 'dst_path'"),
     prefix_start)
  ∧ trace (create_replications (scripted (walk_script two_projects [])) "/data"
             prefix_start).2
    = [TreeWalkPreorder "/data" 1;
       CreateSourceRelationship "10.1.1.20" (Some "/data/project1") (Some "/data/project1");
       CreateSourceRelationship "10.1.1.20" (Some "/data/project2") (Some "/data/project2")]
  ∧ CreateSourceRelationship "10.1.1.20" (Some "/data/project1")
      (Some "/backup/data/project1")
    ∉ trace (create_replications (scripted (walk_script two_projects [])) "/data"
               prefix_start).2.
Proof.
  assert (trace (create_replications (scripted (walk_script two_projects [])) "/data"
                   prefix_start).2
          = [TreeWalkPreorder "/data" 1;
             CreateSourceRelationship "10.1.1.20" (Some "/data/project1")
               (Some "/data/project1");
             CreateSourceRelationship "10.1.1.20" (Some "/data/project2")
               (Some "/data/project2")]) as Htrace by (vm_compute; reflexivity).
  split_and!; [vm_compute; reflexivity|exact Htrace|].
  rewrite Htrace. intros Hin.
  repeat (apply elem_of_cons in Hin as [Heq|Hin]; [discriminate Heq|]).
  by apply elem_of_nil in Hin.
Qed.

(** ** Argument validation *)

(** [validate_args] never looks at the filter attributes. *)
Lemma validate_args_ignores_filters {World Client : Type} (api : @Collaborator World Client)
    (args : Args) (fi fe : option (list string)) :
  validate_args api args
  = validate_args api
      {| action := action args;
         src_host := src_host args; src_user := src_user args;
         src_password := src_password args;
         dst_host := dst_host args; dst_user := dst_user args;
         dst_password := dst_password args;
         filteri := fi; filtere := fe |}.
Proof. reflexivity. Qed.

(** C6, at the input of that test: an include and an exclude filter
    together.  [validate_args] raises nothing: it logs in to both clusters
    and returns the two clients. *)
Theorem validate_args_accepts_both_filters :
  validate_args (scripted empty_script) both_filters
    (initial ReplicationManager_init empty_tc)
  = (Ok (Some {| QHOST := "src.example.com"; QUSER := "admin";
                 QPASS := "password123"; QPORT := 8000 |},
         Some {| QHOST := "dst.example.com"; QUSER := "admin";
                 QPASS := "password456"; QPORT := 8000 |}),
     {| world := O;
        trace := [ClientFactory {| QHOST := "src.example.com"; QUSER := "admin";
                                   QPASS := "password123"; QPORT := 8000 |};
                  ClientFactory {| QHOST := "dst.example.com"; QUSER := "admin";
                                   QPASS := "password456"; QPORT := 8000 |}];
        logs := [(INFO, "Connecting to source cluster src.example.com...");
                 (INFO, "Connecting to destination cluster dst.example.com...")];
        the_rm := ReplicationManager_init; the_tc := empty_tc |}).
Proof. vm_compute. reflexivity. Qed.

(** ** The unknown network *)

Section network_facts.
Context {World Client : Type} (api : @Collaborator World Client).

(** When no reported network has the requested id, construction fails with
    a [ValueError] whose text is made of the requested id alone. *)
Lemma TargetCluster_init_unknown_network (user_provided_ips : option (list string))
    (network_id : option Z) (st : @State World) (fip_data : list network) (w : World) :
  get_floating_ip_allocation api (world st) = (Ok fip_data, w) →
  Forall (λ n, net_id n ≠ network_id) fip_data →
  (TargetCluster_init api user_provided_ips network_id st).1
  = Raise (ValueError ("Network ID " +:+ Py.fmt_int network_id +:+ " not found in cluster")).
Proof.
  intros Hfips Hnone.
  assert (list_find (λ n, net_id n = network_id) fip_data = None) as Hfind.
  { apply list_find_None. exact Hnone. }
  assert (∀ st0 : @State World, world st0 = world st →
            (get_dst_ips api network_id st0).1
            = Raise (ValueError ("Network ID " +:+ Py.fmt_int network_id
                                 +:+ " not found in cluster"))) as Hget.
  { intros st0 Hw. unfold get_dst_ips, bind, call, raise. rewrite Hw, Hfips. simpl.
    by rewrite Hfind. }
  unfold TargetCluster_init. unfold bind at 1.
  destruct user_provided_ips as [[|ip r]|].
  - specialize (Hget st eq_refl). destruct (get_dst_ips api network_id st) as [[ips|e] st1];
      simpl in Hget; [discriminate Hget | injection Hget as ->; reflexivity].
  - unfold _validate_ips. unfold bind at 1.
    specialize (Hget st eq_refl). destruct (get_dst_ips api network_id st) as [[ips|e] st1];
      simpl in Hget; [discriminate Hget | injection Hget as ->; reflexivity].
  - specialize (Hget st eq_refl). destruct (get_dst_ips api network_id st) as [[ips|e] st1];
      simpl in Hget; [discriminate Hget | injection Hget as ->; reflexivity].
Qed.

End network_facts.

(** C8, at the input of the tests of an unknown network: the cluster
    reports the single network Default (id 1).  Asking for network 2 fails
    with a [ValueError] that names the requested network but not the
    available one; asking by name, as the tests do, is a [TypeError], the
    constructor having no such parameter. *)
Theorem unknown_network_error_lists_nothing :
  (TargetCluster_init (scripted only_default) None (Some 2)
     (initial ReplicationManager_init empty_tc)).1
  = Raise (ValueError "Network ID 2 not found in cluster")
  ∧ Py.contains "2" "Network ID 2 not found in cluster" = true
  ∧ Py.contains "Default" "Network ID 2 not found in cluster" = false
  ∧ (call_TargetCluster (scripted only_default) None (Some 1)
       [("network_name", "nonexistent")]
       (initial ReplicationManager_init empty_tc)).1
    = Raise (TypeError "TargetCluster.__init__() got an unexpected keyword argument 'network_name'").
Proof. split_and!; vm_compute; reflexivity. Qed.

(** * Further properties *)

(** ** The pool under arbitrary loads *)

(** The selection step on the list of entries: the entry at the first
    position of least load is the one that changes. *)
Lemma get_next_dst_ip_at (tc : TargetCluster) :
  NoDup (od_keys (dst_load tc)) → dst_load tc ≠ [] →
  ∃ (i : nat) ip load tc',
    get_next_dst_ip tc = Ok (ip, tc')
    ∧ dst_load tc !! i = Some (ip, load)
    ∧ (∀ (j : nat) kv, dst_load tc !! j = Some kv → load ≤ kv.2)
    ∧ (∀ (j : nat) kv, (j < i)%nat → dst_load tc !! j = Some kv → load < kv.2)
    ∧ dst_load tc' = <[i := (ip, load + 1)]> (dst_load tc).
Proof.
  intros Hnd Hne.
  destruct (get_next_dst_ip_step tc Hne)
    as (ip & load & before & after & tc' & Hres & Hsplit & Hload & Hleast & Hfirst & Hd' & _).
  set (d := dst_load tc) in *.
  assert (od_keys d !! length before = Some ip) as Hi.
  { rewrite Hsplit. by rewrite list_lookup_middle. }
  unfold od_keys in Hi. rewrite list_lookup_fmap in Hi.
  destruct (d !! length before) as [[ip0 load0]|] eqn:Hdi; [|done].
  simpl in Hi. injection Hi as ->.
  pose proof (od_get_lookup d _ _ _ Hnd Hdi) as Hget. rewrite Hload in Hget.
  injection Hget as ->.
  exists (length before), ip, load0, tc'. split_and!; [done|done| | |].
  - intros j [k v] Hj. simpl. eapply Hleast. by eapply od_get_lookup.
  - intros j [k v] Hlt Hj. simpl. eapply (Hfirst k).
    + apply list_elem_of_lookup. exists j.
      assert (od_keys d !! j = Some k) as Hk.
      { unfold od_keys. by rewrite list_lookup_fmap, Hj. }
      rewrite Hsplit, lookup_app_l in Hk by done. done.
    + by eapply od_get_lookup.
  - rewrite Hd'. by eapply od_set_lookup.
Qed.

Lemma sum_insert (l : list Z) (i : nat) (x y : Z) :
  l !! i = Some x → foldr Z.add 0 (<[i := y]> l) = foldr Z.add 0 l - x + y.
Proof.
  revert i. induction l as [|z l IH]; intros i Hi; [done|].
  destruct i as [|i]; simpl in *.
  - injection Hi as ->. lia.
  - rewrite (IH i Hi). lia.
Qed.

Lemma keys_insert_same (d : odict string Z) (i : nat) ip load v :
  d !! i = Some (ip, load) → od_keys (<[i := (ip, v)]> d) = od_keys d.
Proof.
  intros Hi. unfold od_keys. rewrite list_fmap_insert. simpl.
  apply list_insert_id. by rewrite list_lookup_fmap, Hi.
Qed.

(** X1. On a non-empty pool, [n] selections all succeed, hand out addresses
    of the pool, keep the addresses and their order, and add exactly [n] to
    the sum of the loads, whatever the loads were. *)
Theorem selections_add_to_total (n : nat) (tc : TargetCluster) :
  NoDup (od_keys (dst_load tc)) → dst_load tc ≠ [] →
  ∃ ips tc',
    get_next_dst_ip_n n tc = Ok (ips, tc')
    ∧ length ips = n
    ∧ Forall (λ ip, ip ∈ od_keys (dst_load tc)) ips
    ∧ od_keys (dst_load tc') = od_keys (dst_load tc)
    ∧ total_load (dst_load tc') = total_load (dst_load tc) + Z.of_nat n.
Proof.
  revert tc. induction n as [|n IH]; intros tc Hnd Hne.
  - exists [], tc. simpl. split_and!; try done. lia.
  - destruct (get_next_dst_ip_at tc Hnd Hne)
      as (i & ip & load & tc1 & Hres & Hi & _ & _ & Hd1).
    assert (od_keys (dst_load tc1) = od_keys (dst_load tc)) as Hkeys1.
    { rewrite Hd1. by eapply keys_insert_same. }
    destruct (IH tc1) as (ips & tc2 & Hrun & Hlen & Hin & Hkeys2 & Htotal).
    { by rewrite Hkeys1. }
    { rewrite Hd1. intros Hnil. apply (f_equal length) in Hnil.
      rewrite length_insert in Hnil. destruct (dst_load tc); done. }
    exists (ip :: ips), tc2. simpl. rewrite Hres, Hrun. split_and!.
    + done.
    + by rewrite Hlen.
    + constructor.
      * apply list_elem_of_lookup. exists i. unfold od_keys.
        by rewrite list_lookup_fmap, Hi.
      * by rewrite <- Hkeys1.
    + congruence.
    + rewrite Htotal. unfold total_load. rewrite Hd1, list_fmap_insert. simpl.
      rewrite (sum_insert _ i load); [lia|]. by rewrite list_lookup_fmap, Hi.
Qed.

Lemma selections_add_to_total_witness :
  ∃ ips tc',
    get_next_dst_ip_n 4 (two_ip_cluster 10 3) = Ok (ips, tc')
    ∧ length ips = 4%nat
    ∧ Forall (λ ip, ip ∈ od_keys (dst_load (two_ip_cluster 10 3))) ips
    ∧ od_keys (dst_load tc') = od_keys (dst_load (two_ip_cluster 10 3))
    ∧ total_load (dst_load tc') = total_load (dst_load (two_ip_cluster 10 3)) + Z.of_nat 4.
Proof.
  apply (selections_add_to_total 4 (two_ip_cluster 10 3)).
  - simpl. repeat constructor; rewrite ?elem_of_cons, ?elem_of_nil; intros H;
      repeat destruct H as [H|H]; try discriminate H; done.
  - discriminate.
Defined.

Lemma elem_of_insert_inv {A} (l : list A) (i : nat) (x y : A) :
  y ∈ <[i := x]> l → y = x ∨ y ∈ l.
Proof.
  revert i. induction l as [|z l IH]; intros i; [intros ?; by right|].
  destruct i as [|i]; simpl; intros [->|Hin]%elem_of_cons.
  - by left.
  - right. by right.
  - right. left.
  - destruct (IH i Hin) as [->|?]; [by left|right; by right].
Qed.

Lemma gap_step (gap : Z) (tc : TargetCluster) :
  1 ≤ gap → NoDup (od_keys (dst_load tc)) → dst_load tc ≠ [] →
  within gap (dst_load tc) →
  ∃ ip tc',
    get_next_dst_ip tc = Ok (ip, tc')
    ∧ od_keys (dst_load tc') = od_keys (dst_load tc)
    ∧ within gap (dst_load tc').
Proof.
  intros Hgap Hnd Hne Hwithin.
  destruct (get_next_dst_ip_at tc Hnd Hne)
    as (i & ip & load & tc' & Hres & Hi & Hleast & _ & Hd').
  exists ip, tc'. split; [done|]. rewrite Hd'.
  split; [by eapply keys_insert_same|].
  assert ((ip, load) ∈ dst_load tc) as Hmin by (apply list_elem_of_lookup; eauto).
  assert (∀ kv, kv ∈ dst_load tc → load ≤ kv.2) as Hleast'.
  { intros kv [j Hj]%list_elem_of_lookup. by eapply Hleast. }
  intros kv kv' [->|Hin]%elem_of_insert_inv [->|Hin']%elem_of_insert_inv; simpl.
  - lia.
  - specialize (Hleast' _ Hin'). lia.
  - specialize (Hwithin _ _ Hin Hmin). simpl in Hwithin. lia.
  - by apply Hwithin.
Qed.

Lemma keys_nonempty (d d' : odict string Z) : od_keys d' = od_keys d → d ≠ [] → d' ≠ [].
Proof. intros Hkeys Hne ->. destruct d; done. Qed.

Lemma gap_steps (n : nat) (gap : Z) : ∀ tc : TargetCluster,
  1 ≤ gap → NoDup (od_keys (dst_load tc)) → dst_load tc ≠ [] →
  within gap (dst_load tc) →
  ∃ ips tc',
    get_next_dst_ip_n n tc = Ok (ips, tc')
    ∧ od_keys (dst_load tc') = od_keys (dst_load tc)
    ∧ within gap (dst_load tc').
Proof.
  induction n as [|n IH]; intros tc Hgap Hnd Hne Hwithin.
  - by exists [], tc.
  - destruct (gap_step gap tc) as (ip & tc1 & Hres & Hkeys1 & Hw1); try done.
    destruct (IH tc1) as (ips & tc2 & Hrun & Hkeys2 & Hw2); try done.
    + by rewrite Hkeys1.
    + by eapply keys_nonempty.
    + exists (ip :: ips), tc2. simpl. rewrite Hres, Hrun. split_and!; [done|congruence|done].
Qed.

(** X2. Selections never widen the pool beyond a gap of one: when no two
    loads differ by more than [gap >= 1], none do after any number of
    selections. *)
Theorem selections_keep_gap (n : nat) (gap : Z) (tc : TargetCluster) :
  1 ≤ gap → NoDup (od_keys (dst_load tc)) → dst_load tc ≠ [] →
  within gap (dst_load tc) →
  ∃ ips tc', get_next_dst_ip_n n tc = Ok (ips, tc') ∧ within gap (dst_load tc').
Proof.
  intros Hgap Hnd Hne Hwithin.
  destruct (gap_steps n gap tc Hgap Hnd Hne Hwithin) as (ips & tc' & Hrun & _ & Hw).
  by exists ips, tc'.
Qed.

Lemma two_ip_cluster_NoDup (l0 l1 : Z) : NoDup (od_keys (dst_load (two_ip_cluster l0 l1))).
Proof.
  simpl. repeat constructor; rewrite ?elem_of_cons, ?elem_of_nil; intros H;
    repeat destruct H as [H|H]; try discriminate H; done.
Qed.

Lemma two_ip_cluster_within (l0 l1 gap : Z) :
  l0 - l1 ≤ gap → l1 - l0 ≤ gap → 0 ≤ gap → within gap (dst_load (two_ip_cluster l0 l1)).
Proof.
  intros H01 H10 H0 kv kv' Hin Hin'. simpl in Hin, Hin'.
  repeat (apply elem_of_cons in Hin as [->|Hin]);
    repeat (apply elem_of_cons in Hin' as [->|Hin']);
    try (by apply elem_of_nil in Hin); try (by apply elem_of_nil in Hin'); simpl; lia.
Qed.

Lemma selections_keep_gap_witness :
  ∃ ips tc', get_next_dst_ip_n 5 (two_ip_cluster 3 2) = Ok (ips, tc')
             ∧ within 1 (dst_load tc').
Proof.
  apply (selections_keep_gap 5 1 (two_ip_cluster 3 2)).
  - lia.
  - apply two_ip_cluster_NoDup.
  - discriminate.
  - apply two_ip_cluster_within; lia.
Defined.

(** *** Re-convergence from skewed loads *)

Lemma foldr_max_spec (v : Z) (vs : list Z) :
  (∀ x, x ∈ v :: vs → x ≤ foldr Z.max v vs) ∧ foldr Z.max v vs ∈ v :: vs.
Proof.
  induction vs as [|y vs [Hle Hin]]; simpl.
  - split; [|left]. intros x ->%list_elem_of_singleton. done.
  - split.
    + intros x [->|[->|Hx]%elem_of_cons]%elem_of_cons.
      * specialize (Hle v ltac:(left)). lia.
      * lia.
      * specialize (Hle x ltac:(by right)). lia.
    + destruct (Z.max_spec y (foldr Z.max v vs)) as [[_ Heq]|[_ Heq]]; rewrite Heq.
      * apply elem_of_cons in Hin as [Hv|Hin]; [rewrite Hv; left|right; by right].
      * right. left.
Qed.

Lemma top_load_spec (d : odict string Z) :
  d ≠ [] →
  (∀ kv, kv ∈ d → kv.2 ≤ top_load d) ∧ (∃ kv, kv ∈ d ∧ kv.2 = top_load d).
Proof.
  unfold top_load. destruct d as [|[k v] d]; [done|]. intros _.
  rewrite fmap_cons. simpl.
  destruct (foldr_max_spec v d.*2) as [Hle Hin]. split.
  - intros kv Hkv. apply Hle. change (v :: d.*2) with (((k, v) :: d).*2).
    apply list_elem_of_fmap. by exists kv.
  - change (v :: d.*2) with (((k, v) :: d).*2) in Hin.
    apply list_elem_of_fmap in Hin as (kv & Heq & Hkv). by exists kv.
Qed.

Lemma top_load_unique (d : odict string Z) (m : Z) :
  (∀ kv, kv ∈ d → kv.2 ≤ m) → (∃ kv, kv ∈ d ∧ kv.2 = m) → top_load d = m.
Proof.
  intros Hle [kv [Hin Heq]].
  assert (d ≠ []) as Hne by (intros ->; by apply elem_of_nil in Hin).
  destruct (top_load_spec d Hne) as [Hle' [kv' [Hin' Heq']]].
  specialize (Hle _ Hin'). specialize (Hle' _ Hin). lia.
Qed.

Lemma total_load_bound (d : odict string Z) (m : Z) :
  (∀ kv, kv ∈ d → kv.2 ≤ m) →
  total_load d ≤ Z.of_nat (length d) * m
  ∧ (total_load d = Z.of_nat (length d) * m → ∀ kv, kv ∈ d → kv.2 = m).
Proof.
  unfold total_load. induction d as [|[k v] d IH]; intros Hle.
  - simpl. split; [lia|]. intros _ kv Hin. by apply elem_of_nil in Hin.
  - destruct IH as [Hsum Hall]; [intros kv Hin; apply Hle; by right|].
    pose proof (Hle (k, v) ltac:(left)) as Hv. simpl in Hv.
    rewrite fmap_cons. cbn [foldr length snd]. rewrite Nat2Z.inj_succ.
    split; [lia|].
    intros Heq kv [->|Hin]%elem_of_cons; simpl; [lia|].
    apply Hall; [lia|done].
Qed.

Lemma deficit_nonneg (d : odict string Z) : d ≠ [] → 0 ≤ deficit d.
Proof.
  intros Hne. unfold deficit.
  destruct (top_load_spec d Hne) as [Hle _].
  destruct (total_load_bound d (top_load d) Hle) as [Hsum _]. lia.
Qed.

Lemma deficit_zero_level (d : odict string Z) : d ≠ [] → deficit d = 0 → within 0 d.
Proof.
  intros Hne Hzero. unfold deficit in Hzero.
  destruct (top_load_spec d Hne) as [Hle _].
  destruct (total_load_bound d (top_load d) Hle) as [_ Hall].
  intros kv kv' Hin Hin'.
  rewrite (Hall ltac:(lia) _ Hin), (Hall ltac:(lia) _ Hin'). lia.
Qed.

Lemma within_weaken (g g' : Z) (d : odict string Z) : g ≤ g' → within g d → within g' d.
Proof. intros Hg Hw kv kv' Hin Hin'. specialize (Hw _ _ Hin Hin'). lia. Qed.

Lemma total_load_level (d : odict string Z) (m : Z) :
  (∀ kv, kv ∈ d → kv.2 = m) → total_load d = Z.of_nat (length d) * m.
Proof.
  unfold total_load. induction d as [|[k v] d IH]; intros Hall; [done|].
  rewrite fmap_cons. cbn [foldr length snd]. rewrite Nat2Z.inj_succ.
  rewrite IH by (intros kv Hin; apply Hall; by right).
  pose proof (Hall (k, v) ltac:(left)) as Hv. simpl in Hv. lia.
Qed.

Lemma deficit_step (tc : TargetCluster) :
  NoDup (od_keys (dst_load tc)) → dst_load tc ≠ [] → 0 < deficit (dst_load tc) →
  ∃ ip tc',
    get_next_dst_ip tc = Ok (ip, tc')
    ∧ od_keys (dst_load tc') = od_keys (dst_load tc)
    ∧ deficit (dst_load tc') = deficit (dst_load tc) - 1.
Proof.
  intros Hnd Hne Hdef.
  destruct (get_next_dst_ip_at tc Hnd Hne)
    as (i & ip & load & tc' & Hres & Hi & Hleast & _ & Hd').
  set (d := dst_load tc) in *.
  destruct (top_load_spec d Hne) as [Hle (kvmax & Hmax & Htop)].
  assert (load < top_load d) as Hlt.
  { destruct (decide (load < top_load d)) as [|Hge]; [done|]. exfalso.
    assert (∀ kv, kv ∈ d → kv.2 = top_load d) as Hall.
    { intros kv Hin. pose proof (Hle _ Hin).
      apply list_elem_of_lookup in Hin as [j Hj]. pose proof (Hleast _ _ Hj). lia. }
    unfold deficit in Hdef. rewrite (total_load_level d _ Hall) in Hdef. lia. }
  exists ip, tc'. split; [done|]. rewrite Hd'.
  split; [by eapply keys_insert_same|].
  assert (top_load (<[i := (ip, load + 1)]> d) = top_load d) as Htop'.
  { apply top_load_unique.
    - intros kv [->|Hin]%elem_of_insert_inv; simpl; [lia|by apply Hle].
    - exists kvmax. split; [|done].
      apply list_elem_of_lookup in Hmax as [j Hj].
      apply list_elem_of_lookup. exists j.
      rewrite list_lookup_insert_ne; [done|].
      intros <-. rewrite Hi in Hj. injection Hj as <-. simpl in Htop. lia. }
  unfold deficit. rewrite Htop', length_insert.
  unfold total_load. rewrite list_fmap_insert. simpl.
  rewrite (sum_insert _ i load) by (by rewrite list_lookup_fmap, Hi). lia.
Qed.

Lemma converge_steps (n : nat) : ∀ tc : TargetCluster,
  NoDup (od_keys (dst_load tc)) → dst_load tc ≠ [] →
  deficit (dst_load tc) ≤ Z.of_nat n →
  ∃ ips tc',
    get_next_dst_ip_n n tc = Ok (ips, tc')
    ∧ od_keys (dst_load tc') = od_keys (dst_load tc)
    ∧ within 1 (dst_load tc').
Proof.
  induction n as [|n IH]; intros tc Hnd Hne Hdef;
    pose proof (deficit_nonneg _ Hne) as Hnonneg.
  - exists [], tc. split_and!; [done|done|].
    apply (within_weaken 0); [lia|]. apply deficit_zero_level; [done|lia].
  - destruct (decide (deficit (dst_load tc) = 0)) as [Hzero|Hpos].
    + apply gap_steps; [lia|done|done|].
      apply (within_weaken 0); [lia|]. by apply deficit_zero_level.
    + destruct (deficit_step tc Hnd Hne ltac:(lia)) as (ip & tc1 & Hres & Hkeys1 & Hdef1).
      destruct (IH tc1) as (ips & tc2 & Hrun & Hkeys2 & Hw2).
      * by rewrite Hkeys1.
      * by eapply keys_nonempty.
      * lia.
      * exists (ip :: ips), tc2. simpl. rewrite Hres, Hrun.
        split_and!; [done|congruence|done].
Qed.

(** X3. From any loads the pool re-converges: once the selections made
    are at least the [deficit] (what it takes to lift every address to the
    greatest load), no two loads differ by more than one, and this stays so. *)
Theorem selections_reconverge (n : nat) (tc : TargetCluster) :
  NoDup (od_keys (dst_load tc)) → dst_load tc ≠ [] →
  deficit (dst_load tc) ≤ Z.of_nat n →
  ∃ ips tc', get_next_dst_ip_n n tc = Ok (ips, tc') ∧ within 1 (dst_load tc').
Proof.
  intros Hnd Hne Hdef.
  destruct (converge_steps n tc Hnd Hne Hdef) as (ips & tc' & Hrun & _ & Hw).
  by exists ips, tc'.
Qed.

Lemma selections_reconverge_witness :
  ∃ ips tc', get_next_dst_ip_n 7 (two_ip_cluster 10 3) = Ok (ips, tc')
             ∧ within 1 (dst_load tc').
Proof.
  apply (selections_reconverge 7 (two_ip_cluster 10 3)).
  - apply two_ip_cluster_NoDup.
  - discriminate.
  - vm_compute. discriminate.
Defined.

Example reconverge_example :
  get_next_dst_ip_n 8 (two_ip_cluster 10 3)
  = Ok (["10.1.1.21"; "10.1.1.21"; "10.1.1.21"; "10.1.1.21"; "10.1.1.21"; "10.1.1.21";
         "10.1.1.21"; "10.1.1.20"], two_ip_cluster 11 10).
Proof. vm_compute. reflexivity. Qed.

(** ** Construction of the pool *)

Section constructor_properties.
Context {World Client : Type} (api : @Collaborator World Client).

Lemma network_with_addresses_truthy (n : network) (fips : list string) :
  net_floating_addresses n = Some fips → network_truthy n = true.
Proof.
  intros Hfa. unfold network_truthy. rewrite Hfa.
  rewrite (bool_decide_eq_true_2 (is_Some (Some fips))) by eauto.
  by rewrite orb_true_r.
Qed.

(** [get_dst_ips] when the first network of the requested id has
    addresses. *)
Lemma get_dst_ips_found (network_id : option Z) (st : @State World)
    (fip_data : list network) (w : World) (i : nat) (n : network) (fips : list string) :
  get_floating_ip_allocation api (world st) = (Ok fip_data, w) →
  list_find (λ n, net_id n = network_id) fip_data = Some (i, n) →
  net_floating_addresses n = Some fips → fips ≠ [] →
  get_dst_ips api network_id st
  = (Ok fips, {| world := w; trace := trace st ++ [GetFloatingIpAllocation];
                 logs := logs st; the_rm := the_rm st; the_tc := the_tc st |}).
Proof.
  intros Hfip Hfind Hfa Hne. unfold get_dst_ips, bind, call, ret. rewrite Hfip, Hfind.
  rewrite (network_with_addresses_truthy n fips Hfa), Hfa. simpl.
  by rewrite bool_decide_eq_false_2.
Qed.

(** The pool of a constructed cluster, whichever way it was given. *)
Lemma TargetCluster_init_pool (user_provided_ips : option (list string))
    (network_id : option Z) (st st' : @State World) (tc : TargetCluster)
    (fip_data : list network) (w : World) :
  get_floating_ip_allocation api (world st) = (Ok fip_data, w) →
  TargetCluster_init api user_provided_ips network_id st = (Ok tc, st') →
  ∃ (i : nat) n fips,
    list_find (λ n, net_id n = network_id) fip_data = Some (i, n)
    ∧ net_floating_addresses n = Some fips
    ∧ (∀ ip, ip ∈ available_ips tc → ip ∈ fips)
    ∧ available_ips tc = match user_provided_ips with
                         | Some (ip :: r) => ip :: r
                         | _ => fips
                         end
    ∧ world st' = w
    ∧ trace st' = trace st ++ [GetFloatingIpAllocation].
Proof.
  intros Hfip Hinit.
  assert (∀ ips st1, get_dst_ips api network_id st = (Ok ips, st1) →
            ∃ (i : nat) n,
              list_find (λ n, net_id n = network_id) fip_data = Some (i, n)
              ∧ net_floating_addresses n = Some ips
              ∧ world st1 = w ∧ logs st1 = logs st
              ∧ trace st1 = trace st ++ [GetFloatingIpAllocation]) as Hget.
  { intros ips st1. unfold get_dst_ips, bind, call, raise, ret. rewrite Hfip.
    destruct (list_find _ fip_data) as [[i n]|]; [|done].
    destruct (network_truthy n); [|done].
    destruct (net_floating_addresses n) as [fa|] eqn:Hfa; simpl.
    - case_bool_decide; [done|]. intros [= <- <-]. by exists i, n.
    - done. }
  unfold TargetCluster_init in Hinit. unfold bind at 1 in Hinit.
  destruct user_provided_ips as [[|ip r]|].
  - destruct (get_dst_ips api network_id st) as [[ips|e] st1] eqn:Hrun; [|done].
    destruct (Hget _ _ eq_refl) as (i & n & Hfind & Hfa & Hw & _ & Ht).
    unfold bind, log, ret in Hinit.
    exists i, n, ips.
    destruct ips as [|ip0 [|ip1 ips]]; injection Hinit as <- <-; simpl;
      split_and!; done.
  - unfold _validate_ips in Hinit. unfold bind at 1 in Hinit.
    destruct (get_dst_ips api network_id st) as [[ips|e] st1] eqn:Hrun; [|done].
    destruct (Hget _ _ eq_refl) as (i & n & Hfind & Hfa & Hw & _ & Ht).
    case_bool_decide as Hvalid; [|done].
    unfold bind, log, ret in Hinit. simpl in Hinit.
    exists i, n, ips.
    assert (∀ x, x ∈ ip :: r → x ∈ ips) as Hall.
    { intros x Hx. destruct (decide (x ∈ ips)) as [|Hnot]; [done|]. exfalso.
      assert (x ∈ filter (λ ip0, ip0 ∉ ips) (ip :: r)) as Hin
        by (apply list_elem_of_filter; done).
      rewrite Hvalid in Hin. by apply elem_of_nil in Hin. }
    destruct r as [|ip1 r]; injection Hinit as <- <-; simpl; split_and!; done.
  - destruct (get_dst_ips api network_id st) as [[ips|e] st1] eqn:Hrun; [|done].
    destruct (Hget _ _ eq_refl) as (i & n & Hfind & Hfa & Hw & _ & Ht).
    unfold bind, log, ret in Hinit.
    exists i, n, ips.
    destruct ips as [|ip0 [|ip1 ips]]; injection Hinit as <- <-; simpl;
      split_and!; done.
Qed.

(** X4. Whichever way the pool is given, a constructed [TargetCluster]
    only holds floating addresses of the first reported network of the
    requested id: the user's list as it was given when each of its addresses
    is one of them, that network's whole list when the user gave none; the
    cluster is asked once. *)
Theorem constructed_pool_is_floating (user_provided_ips : option (list string))
    (network_id : option Z) (st st' : @State World) (tc : TargetCluster)
    (fip_data : list network) (w : World) :
  get_floating_ip_allocation api (world st) = (Ok fip_data, w) →
  TargetCluster_init api user_provided_ips network_id st = (Ok tc, st') →
  ∃ (i : nat) n fips,
    list_find (λ n, net_id n = network_id) fip_data = Some (i, n)
    ∧ net_floating_addresses n = Some fips
    ∧ (∀ ip, ip ∈ available_ips tc → ip ∈ fips)
    ∧ available_ips tc = match user_provided_ips with
                         | Some (ip :: r) => ip :: r
                         | _ => fips
                         end
    ∧ world st' = w
    ∧ trace st' = trace st ++ [GetFloatingIpAllocation].
Proof. apply TargetCluster_init_pool. Qed.

End constructor_properties.

Lemma constructed_pool_is_floating_witness :
  ∃ (i : nat) n fips,
    list_find (λ n, net_id n = Some 1) [default_network ["10.1.1.20"; "10.1.1.21"]]
      = Some (i, n)
    ∧ net_floating_addresses n = Some fips
    ∧ (∀ ip, ip ∈ ["10.1.1.21"] → ip ∈ fips)
    ∧ ["10.1.1.21"] = ["10.1.1.21"]
    ∧ world (TargetCluster_init (scripted two_fips) (Some ["10.1.1.21"]) (Some 1)
               (initial ReplicationManager_init empty_tc)).2 = O
    ∧ trace (TargetCluster_init (scripted two_fips) (Some ["10.1.1.21"]) (Some 1)
               (initial ReplicationManager_init empty_tc)).2
      = trace (initial ReplicationManager_init empty_tc) ++ [GetFloatingIpAllocation].
Proof.
  apply (constructed_pool_is_floating (scripted two_fips) (Some ["10.1.1.21"]) (Some 1)
           (initial ReplicationManager_init empty_tc) _
           {| dst_load := [("10.1.1.21", 0)]; available_ips := ["10.1.1.21"];
              network_id := Some 1 |}
           [default_network ["10.1.1.20"; "10.1.1.21"]] O).
  - reflexivity.
  - vm_compute. reflexivity.
Defined.

Section constructor_errors.
Context {World Client : Type} (api : @Collaborator World Client).

(** X5. A user list with an address that is not a floating address of the
    requested network is rejected: the constructor raises a [ValueError]
    that names exactly the offending addresses, in the order and with the
    repetitions of the user's list, and logs nothing. *)
Theorem foreign_addresses_rejected (ip : string) (r : list string)
    (network_id : option Z) (st : @State World)
    (fip_data : list network) (w : World) (i : nat) (n : network) (fips : list string)
    (bad : string) :
  get_floating_ip_allocation api (world st) = (Ok fip_data, w) →
  list_find (λ n, net_id n = network_id) fip_data = Some (i, n) →
  net_floating_addresses n = Some fips → fips ≠ [] →
  bad ∈ ip :: r → bad ∉ fips →
  ∃ st',
    TargetCluster_init api (Some (ip :: r)) network_id st
    = (Raise (ValueError ("Invalid destination IPs not found in cluster FIPs: "
                          +:+ Py.repr_list (filter (λ ip, ip ∉ fips) (ip :: r)))), st')
    ∧ bad ∈ filter (λ ip, ip ∉ fips) (ip :: r)
    ∧ logs st' = logs st
    ∧ the_tc st' = the_tc st.
Proof.
  intros Hfip Hfind Hfa Hne Hbad Hnot.
  assert (bad ∈ filter (λ ip, ip ∉ fips) (ip :: r)) as Hin
    by (apply list_elem_of_filter; done).
  unfold TargetCluster_init, _validate_ips. unfold bind at 1 2.
  rewrite (get_dst_ips_found api network_id st fip_data w i n fips) by done.
  rewrite bool_decide_eq_false_2; [by eexists|].
  intros Hnil. rewrite Hnil in Hin. by apply elem_of_nil in Hin.
Qed.

(** X6. The first network of the requested id decides: when it carries no
    floating address (an empty list, or no such field) the constructor raises
    "has no Floating IPs available", whatever the user's list says and
    whatever later networks of the same id carry. *)
Theorem first_network_without_addresses (user_provided_ips : option (list string))
    (network_id : option Z) (st : @State World)
    (before after : list network) (n : network) (w : World) :
  get_floating_ip_allocation api (world st) = (Ok (before ++ n :: after), w) →
  Forall (λ n', net_id n' ≠ network_id) before →
  net_id n = network_id → network_truthy n = true →
  default [] (net_floating_addresses n) = [] →
  ∃ st',
    TargetCluster_init api user_provided_ips network_id st
    = (Raise (ValueError ("Network ID " +:+ Py.fmt_int network_id
                          +:+ " has no Floating IPs available")), st')
    ∧ logs st' = logs st.
Proof.
  intros Hfip Hbefore Hid Htruthy Hempty.
  assert (list_find (λ n', net_id n' = network_id) (before ++ n :: after)
          = Some (length before, n)) as Hfind.
  { apply list_find_Some. split_and!.
    - by rewrite lookup_app_r, Nat.sub_diag.
    - done.
    - intros j y Hj Hlt. rewrite lookup_app_l in Hj by done.
      rewrite Forall_lookup in Hbefore. by apply (Hbefore j). }
  assert (∃ st', get_dst_ips api network_id st
            = (Raise (ValueError ("Network ID " +:+ Py.fmt_int network_id
                                  +:+ " has no Floating IPs available")), st')
            ∧ logs st' = logs st) as (st' & Hget & Hlogs).
  { unfold get_dst_ips, bind, call, raise. rewrite Hfip, Hfind, Htruthy, Hempty.
    simpl. by eexists. }
  exists st'. split; [|done].
  unfold TargetCluster_init, _validate_ips. unfold bind at 1.
  destruct user_provided_ips as [[|ip r]|]; [by rewrite Hget| |by rewrite Hget].
  unfold bind at 1. by rewrite Hget.
Qed.

(** X7. The advisory about an unbalanced pool is tied to the length of the
    address list: a successful construction appends one WARNING entry when
    the list has exactly one address, and no entry at or above that level
    otherwise. *)
Theorem single_address_warning (user_provided_ips : option (list string))
    (network_id : option Z) (st st' : @State World) (tc : TargetCluster) :
  TargetCluster_init api user_provided_ips network_id st = (Ok tc, st') →
  ∃ newlogs,
    logs st' = logs st ++ newlogs
    ∧ at_least WARNING newlogs
      = match available_ips tc with
        | [ip] => [(WARNING, "Only one IP (" +:+ ip
                             +:+ ") configured. Replications may be unbalanced.")]
        | _ => []
        end.
Proof.
  intros Hinit.
  assert (∀ ips st1, get_dst_ips api network_id st = (Ok ips, st1) →
            logs st1 = logs st) as Hget.
  { intros ips st1. unfold get_dst_ips, bind, call, raise, ret.
    destruct (get_floating_ip_allocation api (world st)) as [[fip_data|e] w]; [|done].
    destruct (list_find _ fip_data) as [[i n]|]; [|done].
    destruct (network_truthy n); [|done].
    case_bool_decide; [done|]. by intros [= <- <-]. }
  unfold TargetCluster_init in Hinit. unfold bind at 1 in Hinit.
  destruct user_provided_ips as [[|ip r]|].
  - destruct (get_dst_ips api network_id st) as [[ips|e] st1] eqn:Hrun; [|done].
    pose proof (Hget _ _ eq_refl) as Hlogs.
    unfold bind, log, ret in Hinit.
    destruct ips as [|ip0 [|ip1 ips]]; injection Hinit as <- <-; simpl; rewrite Hlogs.
    + exists []. by rewrite app_nil_r.
    + by eexists [_].
    + exists []. by rewrite app_nil_r.
  - unfold _validate_ips in Hinit. unfold bind at 1 in Hinit.
    destruct (get_dst_ips api network_id st) as [[ips|e] st1] eqn:Hrun; [|done].
    pose proof (Hget _ _ eq_refl) as Hlogs.
    case_bool_decide as Hvalid; [|done].
    unfold bind, log, ret in Hinit. simpl in Hinit.
    destruct r as [|ip1 r]; injection Hinit as <- <-; simpl; rewrite Hlogs.
    + rewrite <- app_assoc. by eexists [_; _].
    + by eexists [_].
  - destruct (get_dst_ips api network_id st) as [[ips|e] st1] eqn:Hrun; [|done].
    pose proof (Hget _ _ eq_refl) as Hlogs.
    unfold bind, log, ret in Hinit.
    destruct ips as [|ip0 [|ip1 ips]]; injection Hinit as <- <-; simpl; rewrite Hlogs.
    + exists []. by rewrite app_nil_r.
    + by eexists [_].
    + exists []. by rewrite app_nil_r.
Qed.

End constructor_errors.

Lemma foreign_addresses_rejected_witness :
  ∃ st',
    TargetCluster_init (scripted two_fips) (Some ["10.1.1.20"; "10.9.9.9"]) (Some 1)
      (initial ReplicationManager_init empty_tc)
    = (Raise (ValueError ("Invalid destination IPs not found in cluster FIPs: "
                          +:+ Py.repr_list (filter (λ ip, ip ∉ ["10.1.1.20"; "10.1.1.21"])
                                              ["10.1.1.20"; "10.9.9.9"]))), st')
    ∧ "10.9.9.9" ∈ filter (λ ip, ip ∉ ["10.1.1.20"; "10.1.1.21"]) ["10.1.1.20"; "10.9.9.9"]
    ∧ logs st' = logs (initial ReplicationManager_init empty_tc)
    ∧ the_tc st' = the_tc (initial ReplicationManager_init empty_tc).
Proof.
  apply (foreign_addresses_rejected (scripted two_fips) "10.1.1.20" ["10.9.9.9"] (Some 1)
           (initial ReplicationManager_init empty_tc)
           [default_network ["10.1.1.20"; "10.1.1.21"]] O O
           (default_network ["10.1.1.20"; "10.1.1.21"]) ["10.1.1.20"; "10.1.1.21"]
           "10.9.9.9").
  - reflexivity.
  - reflexivity.
  - reflexivity.
  - discriminate.
  - apply (bool_decide_unpack _). vm_compute. exact I.
  - apply (bool_decide_unpack _). vm_compute. exact I.
Defined.

Example foreign_addresses_example :
  (TargetCluster_init (scripted two_fips) (Some ["10.9.9.9"; "10.1.1.20"; "10.9.9.9"])
     (Some 1) (initial ReplicationManager_init empty_tc)).1
  = Raise (ValueError
             "Invalid destination IPs not found in cluster FIPs: ['10.9.9.9', '10.9.9.9']").
Proof. vm_compute. reflexivity. Qed.

Lemma first_network_without_addresses_witness :
  ∃ st',
    TargetCluster_init (scripted empty_first) (Some ["10.1.1.20"]) (Some 1)
      (initial ReplicationManager_init empty_tc)
    = (Raise (ValueError ("Network ID " +:+ Py.fmt_int (Some 1)
                          +:+ " has no Floating IPs available")), st')
    ∧ logs st' = logs (initial ReplicationManager_init empty_tc).
Proof.
  apply (first_network_without_addresses (scripted empty_first) (Some ["10.1.1.20"])
           (Some 1) (initial ReplicationManager_init empty_tc) []
           [default_network ["10.1.1.20"; "10.1.1.21"]]
           {| net_id := Some 1; net_name := Some "Drained";
              net_floating_addresses := Some [] |} O).
  - reflexivity.
  - constructor.
  - reflexivity.
  - reflexivity.
  - reflexivity.
Defined.

Lemma single_address_warning_witness :
  ∃ newlogs,
    logs (TargetCluster_init (scripted only_default) None (Some 1)
            (initial ReplicationManager_init empty_tc)).2
    = logs (initial ReplicationManager_init empty_tc) ++ newlogs
    ∧ at_least WARNING newlogs
      = [(WARNING, "Only one IP (" +:+ "10.1.1.20"
                   +:+ ") configured. Replications may be unbalanced.")].
Proof.
  apply (single_address_warning (scripted only_default) None (Some 1)
           (initial ReplicationManager_init empty_tc) _
           {| dst_load := [("10.1.1.20", 0)]; available_ips := ["10.1.1.20"];
              network_id := Some 1 |}).
  vm_compute. reflexivity.
Defined.

(** ** Argument validation and logins *)

Section validation_properties.
Context {World Client : Type} (api : @Collaborator World Client).

(** The four checks of [validate_args], as one test. *)
Lemma validate_args_checks (args : Args) (st : @State World) :
  (bool_decide (action args ∈ ["summary"; "create"]) && negb (has_src args)
   || bool_decide (action args = "create") && negb (has_dst args)
   || bool_decide (action args = "clean") && negb (has_src args) && negb (has_dst args)
   || bool_decide (action args = "accept") && negb (has_dst args) = true
   ∧ ∃ msg, validate_args api args st = (Raise (ValueError msg), st))
  ∨ (bool_decide (action args ∈ ["summary"; "create"]) && negb (has_src args)
     || bool_decide (action args = "create") && negb (has_dst args)
     || bool_decide (action args = "clean") && negb (has_src args) && negb (has_dst args)
     || bool_decide (action args = "accept") && negb (has_dst args) = false
     ∧ validate_args api args st
       = (src_client <- connect api "source" (src_host args) (src_user args)
                          (src_password args) ;;
          dst_client <- connect api "destination" (dst_host args) (dst_user args)
                          (dst_password args) ;;
          ret (src_client, dst_client)) st).
Proof.
  unfold validate_args, has_src, has_dst. rewrite <- !negb_andb.
  destruct (Py.truthy (src_host args) && Py.truthy (src_user args)),
    (Py.truthy (dst_host args) && Py.truthy (dst_user args));
    destruct (bool_decide (action args ∈ ["summary"; "create"]));
    destruct (bool_decide (action args = "create"));
    destruct (bool_decide (action args = "clean"));
    destruct (bool_decide (action args = "accept")); simpl;
    first [ right; split; [reflexivity|reflexivity]
          | left; split; [reflexivity|eexists; reflexivity] ].
Qed.

(** One connection step: what it returns and what it asks. *)
Local Ltac login_steps :=
  repeat first [apply Forall_nil | apply Forall_cons; split];
  unfold login_step; simpl; repeat split; try done; try (intros; congruence).

Lemma connect_spec (which : string) (host user password : option string)
    (st : @State World) :
  ∃ r st' new,
    connect api which host user password st = (r, st')
    ∧ trace st' = trace st ++ new
    ∧ Forall (login_step host user password) new
    ∧ (∀ c, r = Ok c → (is_Some c ↔ Py.truthy host && Py.truthy user = true))
    ∧ (Py.truthy host && Py.truthy user = false → r = Ok None ∧ st' = st).
Proof.
  unfold connect.
  destruct (Py.truthy host && Py.truthy user) eqn:Hboth.
  - unfold create_credentials, bind, log, call, ret. simpl.
    destruct (Py.truthy password) eqn:Hpw; simpl.
    + destruct (client_factory api _ (world st)) as [[c|e] w] eqn:Hlogin.
      * do 2 eexists. eexists [_]. split_and!; [done|done| | |done].
        -- login_steps.
        -- intros c0 [= <-]. split; eauto.
      * do 2 eexists. eexists [_]. split_and!; [done|done| |done|done].
        login_steps.
    + destruct (getpass api _ (world st)) as [[pw|e] w] eqn:Hask; simpl.
      * destruct (client_factory api _ w) as [[c|e] w'] eqn:Hlogin.
        -- do 2 eexists. eexists [_; _].
           split_and!; [done|exact (eq_sym (app_assoc _ [_] [_]))| | |done].
           ++ login_steps.
           ++ intros c0 [= <-]. split; eauto.
        -- do 2 eexists. eexists [_; _].
           split_and!; [done|exact (eq_sym (app_assoc _ [_] [_]))| |done|done].
           login_steps.
      * do 2 eexists. eexists [_]. split_and!; [done|done| |done|done].
        login_steps.
  - unfold ret. exists (Ok None), st, []. rewrite app_nil_r.
    split_and!; [done|done|constructor| |done].
    intros c [= <-]. split; [intros [? [=]]|done].
Qed.

(** X8. [validate_args] checks before it connects: when the credentials
    the action requires are missing it raises a [ValueError] and the state is
    untouched: no prompt, no login, no log line. *)
Theorem missing_credentials_stop_before_login (args : Args) (st : @State World) :
  (action args ∈ ["summary"; "create"] ∧ has_src args = false)
  ∨ (action args = "create" ∧ has_dst args = false)
  ∨ (action args = "clean" ∧ has_src args = false ∧ has_dst args = false)
  ∨ (action args = "accept" ∧ has_dst args = false) →
  ∃ msg, validate_args api args st = (Raise (ValueError msg), st).
Proof.
  intros Hmissing.
  destruct (validate_args_checks args st) as [[_ Hraise]|[Hpass _]]; [done|].
  exfalso. apply orb_false_iff in Hpass as [Hpass Haccept].
  apply orb_false_iff in Hpass as [Hpass Hclean].
  apply orb_false_iff in Hpass as [Hsrc Hcreate].
  destruct Hmissing as [[Ha Hs]|[[Ha Hd]|[(Ha & Hs & Hd)|[Ha Hd]]]].
  - rewrite Hs, bool_decide_eq_true_2 in Hsrc; done.
  - rewrite Hd, bool_decide_eq_true_2 in Hcreate; done.
  - rewrite Hs, Hd, bool_decide_eq_true_2 in Hclean; done.
  - rewrite Hd, bool_decide_eq_true_2 in Haccept; done.
Qed.

(** X9. What a caller may rely on after [validate_args] returned: a client
    exists exactly for the clusters whose host and user were both given, so a
    summary has its source client, a create has both, an accept has its
    destination client and a clean has at least one of the two. *)
Theorem validated_clients (args : Args) (st st' : @State World)
    (src_client dst_client : option Client) :
  validate_args api args st = (Ok (src_client, dst_client), st') →
  (is_Some src_client ↔ has_src args = true)
  ∧ (is_Some dst_client ↔ has_dst args = true)
  ∧ (action args ∈ ["summary"; "create"] → is_Some src_client)
  ∧ (action args ∈ ["create"; "accept"] → is_Some dst_client)
  ∧ (action args = "clean" → is_Some src_client ∨ is_Some dst_client).
Proof.
  intros Hrun.
  destruct (validate_args_checks args st) as [[_ [msg Hraise]]|[Hpass Hconnect]];
    [congruence|].
  rewrite Hconnect in Hrun. unfold bind in Hrun.
  destruct (connect_spec "source" (src_host args) (src_user args) (src_password args) st)
    as (r1 & st1 & new1 & Hrun1 & _ & _ & Hsrc & _).
  rewrite Hrun1 in Hrun. destruct r1 as [c1|e]; [|done].
  destruct (connect_spec "destination" (dst_host args) (dst_user args)
              (dst_password args) st1) as (r2 & st2 & new2 & Hrun2 & _ & _ & Hdst & _).
  rewrite Hrun2 in Hrun. destruct r2 as [c2|e]; [|done].
  unfold ret in Hrun. injection Hrun as <- <- <-.
  specialize (Hsrc _ eq_refl). specialize (Hdst _ eq_refl).
  fold (has_src args) in Hsrc. fold (has_dst args) in Hdst.
  apply orb_false_iff in Hpass as [Hpass Haccept].
  apply orb_false_iff in Hpass as [Hpass Hclean].
  apply orb_false_iff in Hpass as [Hs Hcreate].
  split_and!; [done|done| | |].
  - intros Ha. apply Hsrc. rewrite bool_decide_eq_true_2 in Hs by done.
    by destruct (has_src args).
  - intros Ha. apply Hdst. apply elem_of_cons in Ha as [Ha|Ha].
    + rewrite bool_decide_eq_true_2 in Hcreate by done. by destruct (has_dst args).
    + apply list_elem_of_singleton in Ha.
      rewrite bool_decide_eq_true_2 in Haccept by done. by destruct (has_dst args).
  - intros Ha. rewrite bool_decide_eq_true_2 in Hclean by done.
    rewrite Hsrc, Hdst. destruct (has_src args), (has_dst args); auto.
Qed.

(** X10. All [validate_args] ever asks of the outside is, per cluster that
    has a host and a user: a password prompt naming user@host, only when no
    password was supplied, and a login on port 8000 that carries the supplied
    password when there is one; the source cluster comes first. *)
Theorem validate_args_only_logs_in (args : Args) (st : @State World) :
  ∃ r st' from_src from_dst,
    validate_args api args st = (r, st')
    ∧ trace st' = trace st ++ from_src ++ from_dst
    ∧ Forall (login_step (src_host args) (src_user args) (src_password args)) from_src
    ∧ Forall (login_step (dst_host args) (dst_user args) (dst_password args)) from_dst.
Proof.
  destruct (validate_args_checks args st) as [[_ [msg Hraise]]|[_ Hconnect]].
  - exists (Raise (ValueError msg)), st, [], []. rewrite app_nil_r.
    split_and!; [done|done|constructor|constructor].
  - rewrite Hconnect. unfold bind.
    destruct (connect_spec "source" (src_host args) (src_user args) (src_password args) st)
      as (r1 & st1 & new1 & -> & Ht1 & Hnew1 & _).
    destruct r1 as [c1|e].
    + destruct (connect_spec "destination" (dst_host args) (dst_user args)
                  (dst_password args) st1) as (r2 & st2 & new2 & -> & Ht2 & Hnew2 & _).
      destruct r2 as [c2|e]; unfold ret; do 2 eexists; exists new1, new2;
        (split_and!; [done|by rewrite Ht2, Ht1, <- app_assoc|done|done]).
    + do 2 eexists. exists new1, []. rewrite app_nil_r.
      split_and!; [done|done|done|constructor].
Qed.

End validation_properties.

Lemma missing_credentials_stop_before_login_witness :
  ∃ msg,
    validate_args (scripted empty_script) create_without_dst_user
      (initial ReplicationManager_init empty_tc)
    = (Raise (ValueError msg), initial ReplicationManager_init empty_tc).
Proof.
  apply (missing_credentials_stop_before_login (scripted empty_script)
           create_without_dst_user (initial ReplicationManager_init empty_tc)).
  right. left. split; reflexivity.
Defined.

Lemma validated_clients_witness :
  (is_Some (@None Creds) ↔ has_src clean_dst_only = true)
  ∧ (is_Some (Some {| QHOST := "dst.example.com"; QUSER := "admin";
                      QPASS := "secret"; QPORT := 8000 |})
     ↔ has_dst clean_dst_only = true)
  ∧ (action clean_dst_only ∈ ["summary"; "create"] → is_Some (@None Creds))
  ∧ (action clean_dst_only ∈ ["create"; "accept"]
     → is_Some (Some {| QHOST := "dst.example.com"; QUSER := "admin";
                        QPASS := "secret"; QPORT := 8000 |}))
  ∧ (action clean_dst_only = "clean"
     → is_Some (@None Creds)
       ∨ is_Some (Some {| QHOST := "dst.example.com"; QUSER := "admin";
                          QPASS := "secret"; QPORT := 8000 |})).
Proof.
  apply (validated_clients (scripted empty_script) clean_dst_only
           (initial ReplicationManager_init empty_tc)
           (validate_args (scripted empty_script) clean_dst_only
              (initial ReplicationManager_init empty_tc)).2).
  vm_compute. reflexivity.
Defined.

Example prompt_example :
  trace (validate_args (scripted empty_script) clean_dst_only
           (initial ReplicationManager_init empty_tc)).2
  = [Getpass "Enter password for admin@dst.example.com: ";
     ClientFactory {| QHOST := "dst.example.com"; QUSER := "admin";
                      QPASS := "secret"; QPORT := 8000 |}].
Proof. vm_compute. reflexivity. Qed.

(** ** More on the acceptance workflow *)

Section acceptance_properties.
Context {World Client : Type} (api : @Collaborator World Client).

Local Abbreviation pending_of rels := (filter (λ rel, is_pending rel = true) rels).

Lemma authorized_sublist allow (pending : list (gmap string string)) :
  ∀ w : World, (authorized api allow w pending).1 `sublist_of` pending.
Proof.
  induction pending as [|rel rest IH]; intros w; simpl; [done|].
  destruct (authorize api (rel !! "id") allow true w) as [r w1].
  specialize (IH w1). destruct (authorized api allow w1 rest) as [oks w2]. simpl in *.
  destruct (is_ok r); by constructor.
Qed.

Lemma at_least_app (l : level) (xs ys : list (level * string)) :
  at_least l (xs ++ ys) = at_least l xs ++ at_least l ys.
Proof. apply filter_app. Qed.

(** The log of one iteration: an ERROR entry exactly when the authorize
    call fails. *)
Lemma accept_one_logs allow accepted rel (st : @State World) :
  ∃ st' newlogs,
    accept_one api allow accepted rel st
    = (Ok (if is_ok (authorize api (rel !! "id") allow true (world st)).1
           then accepted ++ [accepted_of rel] else accepted), st')
    ∧ world st' = (authorize api (rel !! "id") allow true (world st)).2
    ∧ logs st' = logs st ++ newlogs
    ∧ length (at_least ERROR newlogs)
      = if is_ok (authorize api (rel !! "id") allow true (world st)).1 then 0%nat else 1%nat.
Proof.
  unfold accept_one, try_except, bind, call, log, ret. simpl.
  destruct (authorize api (rel !! "id") allow true (world st)) as [[[]|e] w]; simpl.
  - eexists. eexists [_; _]. split_and!; [done|done|simpl; by rewrite <- app_assoc|done].
  - match goal with |- context [accept_handler ?a ?i ?e ?s] =>
      destruct (accept_handler_logs a i e s) as [msg ->] end.
    simpl. eexists. eexists [(INFO, _); (ERROR, msg)].
    split_and!; [done|done|simpl; by rewrite <- app_assoc|done].
Qed.

Lemma accept_loop_logs allow pending : ∀ accepted (st : @State World),
  ∃ st' newlogs,
    accept_loop api allow accepted pending st
    = (Ok (accepted ++ (accepted_of <$> (authorized api allow (world st) pending).1)), st')
    ∧ logs st' = logs st ++ newlogs
    ∧ (length (authorized api allow (world st) pending).1
       + length (at_least ERROR newlogs) = length pending)%nat.
Proof.
  induction pending as [|rel rest IH]; intros accepted st; simpl.
  - exists st, []. unfold ret. by rewrite !app_nil_r.
  - unfold bind.
    destruct (accept_one_logs allow accepted rel st) as (st1 & new1 & -> & Hw1 & Hl1 & Hn1).
    destruct (authorize api (rel !! "id") allow true (world st)) as [r w1] eqn:Hauth.
    simpl in *. subst w1.
    destruct (IH (if is_ok r then accepted ++ [accepted_of rel] else accepted) st1)
      as (st2 & new2 & -> & Hl2 & Hn2).
    destruct (authorized api allow (world st1) rest) as [oks w2] eqn:Hrest. simpl in *.
    exists st2, (new1 ++ new2). split_and!.
    + do 2 f_equal. destruct (is_ok r); simpl; [|done]. by rewrite <- app_assoc.
    + rewrite Hl2, Hl1. by rewrite <- app_assoc.
    + rewrite at_least_app, length_app. destruct (is_ok r); simpl; lia.
Qed.

(** X11. An answer other than yes or y (in any case) cancels the run: the
    function returns the empty list and has asked the cluster for the listing
    and the operator for the answer, nothing else, so that no relationship is
    authorized. *)
Theorem declined_authorizes_nothing (allow : bool) (st : @State World)
    (rels : list (gmap string string)) (w1 wg : World) (response : string) :
  list_target_relationship_statuses api (world st) = (Ok rels, w1) →
  pending_of rels ≠ [] →
  input api (confirm_prompt (pending_of rels)) w1 = (Ok response, wg) →
  Py.lower response ∉ ["yes"; "y"] →
  ∃ st',
    accept_pending_replications api allow true st = (Ok [], st')
    ∧ trace st' = trace st ++ [ListTargetRelationshipStatuses;
                               Input (confirm_prompt (pending_of rels))]
    ∧ at_least WARNING (logs st') = at_least WARNING (logs st).
Proof.
  intros Hlist Hpending Hinput Hno.
  unfold accept_pending_replications, bind, log, call, ret. simpl. rewrite Hlist.
  rewrite bool_decide_eq_false_2 by done. simpl. rewrite Hinput.
  rewrite bool_decide_eq_false_2 by done. simpl.
  eexists. split_and!; [done|simpl; by rewrite <- app_assoc|].
  simpl. rewrite !at_least_app. simpl. by rewrite !app_nil_r.
Qed.

(** X12. Whatever the operator and the cluster answer, a list that
    [accept_pending_replications] returns only describes relationships that
    were pending in the listing, each at most once per record and in the
    order of the listing. *)
Theorem accepted_were_pending (allow confirm : bool) (st st' : @State World)
    (rels : list (gmap string string)) (w1 : World) (accepted : list accepted_rel) :
  list_target_relationship_statuses api (world st) = (Ok rels, w1) →
  accept_pending_replications api allow confirm st = (Ok accepted, st') →
  ∃ oks,
    accepted = accepted_of <$> oks
    ∧ oks `sublist_of` pending_of rels
    ∧ oks `sublist_of` rels
    ∧ Forall (λ rel, is_pending rel = true) oks.
Proof.
  intros Hlist Hrun.
  assert (∀ oks, oks `sublist_of` pending_of rels →
            oks `sublist_of` rels ∧ Forall (λ rel, is_pending rel = true) oks) as Hsub.
  { intros oks Hoks. split.
    - etrans; [exact Hoks|]. apply sublist_filter.
    - apply Forall_forall. intros rel Hin.
      eapply elem_of_sublist in Hin; [|exact Hoks].
      by apply list_elem_of_filter in Hin as [? _]. }
  assert (∀ (s : @State World) s',
            accept_loop api allow [] (pending_of rels) s = (Ok accepted, s') →
            ∃ oks, accepted = accepted_of <$> oks ∧ oks `sublist_of` pending_of rels)
    as Hloop.
  { intros s s' Hl.
    destruct (accept_loop_logs allow (pending_of rels) [] s) as (s2 & new & Heq & _).
    rewrite Heq in Hl. injection Hl as <- _. eexists. split; [done|].
    apply authorized_sublist. }
  assert (∃ oks, accepted = accepted_of <$> oks ∧ oks `sublist_of` pending_of rels)
    as (oks & Hacc & Hoks).
  { unfold accept_pending_replications, bind, log, call in Hrun. simpl in Hrun.
    rewrite Hlist in Hrun.
    case_bool_decide as Hpending.
    - unfold ret in Hrun. injection Hrun as <- _. exists []. split; [done|].
      apply sublist_nil_l.
    - destruct confirm; [|by eapply Hloop].
      simpl in Hrun. destruct (input api _ w1) as [[response|e] wg]; [|done].
      case_bool_decide; [by eapply Hloop|].
      simpl in Hrun. unfold ret in Hrun. injection Hrun as <- _. exists [].
      split; [done|]. apply sublist_nil_l. }
  exists oks. destruct (Hsub oks Hoks). done.
Qed.

(** X13. Once the run is past the confirmation step every pending
    candidate is accounted for: it is in the returned list, or the log has
    gained one ERROR entry for it; the two counts add up to the number of
    pending records. *)
Theorem candidates_accounted_for (allow confirm : bool) (st : @State World)
    (rels : list (gmap string string)) (w1 wg : World) (asked : list api_call) :
  list_target_relationship_statuses api (world st) = (Ok rels, w1) →
  operator_agrees api confirm (pending_of rels) w1 wg asked →
  ∃ accepted st' newlogs,
    accept_pending_replications api allow confirm st = (Ok accepted, st')
    ∧ logs st' = logs st ++ newlogs
    ∧ (length accepted + length (at_least ERROR newlogs)
       = length (pending_of rels))%nat.
Proof.
  intros Hlist Hgate.
  unfold accept_pending_replications, bind, log, call. simpl. rewrite Hlist.
  case_bool_decide as Hpending.
  - rewrite Hpending. unfold ret. exists []. eexists. eexists [_; _].
    split_and!; [done|simpl; by rewrite <- app_assoc|done].
  - inversion Hgate as [Hnil|Hconfirm|response wg' Hconfirm _ Hinput Hyes]; subst; [done| |].
    + match goal with |- context [accept_loop api allow [] ?p ?s] =>
        destruct (accept_loop_logs allow p [] s) as (st' & new & -> & Hl & Hn) end.
      simpl in *. eexists. exists st'. eexists ([_] ++ new).
      split_and!; [done|rewrite Hl; by rewrite <- app_assoc|].
      rewrite at_least_app, length_app, length_fmap. simpl. lia.
    + simpl. rewrite Hinput. rewrite bool_decide_eq_true_2 by done.
      match goal with |- context [accept_loop api allow [] ?p ?s] =>
        destruct (accept_loop_logs allow p [] s) as (st' & new & -> & Hl & Hn) end.
      simpl in *. eexists. exists st'. eexists ([_] ++ new).
      split_and!; [done|rewrite Hl; by rewrite <- app_assoc|].
      rewrite at_least_app, length_app, length_fmap. simpl. lia.
Qed.

End acceptance_properties.

Lemma declined_authorizes_nothing_witness :
  ∃ st',
    accept_pending_replications (scripted (accept_script "nope")) false true accept_start
    = (Ok [], st')
    ∧ trace st'
      = trace accept_start
        ++ [ListTargetRelationshipStatuses;
            Input (confirm_prompt
                     (filter (λ rel, is_pending rel = true)
                        [rel_1; rel_2; rel_3; rel_4; rel_5]))]
    ∧ at_least WARNING (logs st') = at_least WARNING (logs accept_start).
Proof.
  apply (declined_authorizes_nothing (scripted (accept_script "nope")) false accept_start
           [rel_1; rel_2; rel_3; rel_4; rel_5] O O "nope").
  - reflexivity.
  - intros Hnil. apply (f_equal length) in Hnil. vm_compute in Hnil. discriminate Hnil.
  - reflexivity.
  - apply (bool_decide_unpack _). vm_compute. exact I.
Defined.

Lemma accepted_were_pending_witness :
  ∃ oks,
    [ {| acc_id := Some "rel-1"; acc_target_path := "/dst/a"; acc_source_cluster := "src" |};
      {| acc_id := Some "rel-5"; acc_target_path := "N/A"; acc_source_cluster := "N/A" |} ]
    = accepted_of <$> oks
    ∧ oks `sublist_of` filter (λ rel, is_pending rel = true)
                         [rel_1; rel_2; rel_3; rel_4; rel_5]
    ∧ oks `sublist_of` [rel_1; rel_2; rel_3; rel_4; rel_5]
    ∧ Forall (λ rel, is_pending rel = true) oks.
Proof.
  apply (accepted_were_pending (scripted (accept_script "YES")) false true accept_start
           (accept_pending_replications (scripted (accept_script "YES")) false true
              accept_start).2
           [rel_1; rel_2; rel_3; rel_4; rel_5] O).
  - reflexivity.
  - vm_compute. reflexivity.
Defined.

Lemma candidates_accounted_for_witness :
  ∃ accepted st' newlogs,
    accept_pending_replications (scripted (accept_script "YES")) false true accept_start
    = (Ok accepted, st')
    ∧ logs st' = logs accept_start ++ newlogs
    ∧ (length accepted + length (at_least ERROR newlogs)
       = length (filter (λ rel, is_pending rel = true)
                   [rel_1; rel_2; rel_3; rel_4; rel_5]))%nat.
Proof.
  apply (candidates_accounted_for (scripted (accept_script "YES")) false true
           accept_start [rel_1; rel_2; rel_3; rel_4; rel_5] O O
           [Input (confirm_prompt (filter (λ rel, is_pending rel = true)
                                     [rel_1; rel_2; rel_3; rel_4; rel_5]))]).
  - reflexivity.
  - apply (said_yes _ _ _ _ "YES" O).
    + reflexivity.
    + intros Hnil. apply (f_equal length) in Hnil. vm_compute in Hnil. discriminate Hnil.
    + reflexivity.
    + vm_compute. left.
Defined.

(** ** More on the relationship cache *)

(** Two dictionaries with the same keys in the same order and the same
    value under every key are equal. *)
Lemma odict_ext {K V : Type} `{EqDecision K} (d1 d2 : odict K V) :
  NoDup (od_keys d1) → od_keys d1 = od_keys d2 →
  (∀ k, od_get d1 k = od_get d2 k) → d1 = d2.
Proof.
  revert d2. induction d1 as [|[k1 v1] d1 IH]; intros [|[k2 v2] d2] Hnd Hkeys Hget;
    try done.
  unfold od_keys in *. simpl in *. injection Hkeys as <- Hkeys.
  apply NoDup_cons in Hnd as [Hnotin Hnd].
  pose proof (Hget k1) as Hhead. rewrite !decide_True in Hhead by done.
  injection Hhead as <-. f_equal. apply IH; [done|done|].
  intros k. destruct (decide (k = k1)) as [->|Hne].
  - assert (od_get d1 k1 = None) as ->.
    { apply eq_None_not_Some. by rewrite od_get_is_Some. }
    symmetry. apply eq_None_not_Some. rewrite od_get_is_Some.
    intros Hin. apply Hnotin. rewrite Hkeys. exact Hin.
  - specialize (Hget k). by rewrite !decide_False in Hget by done.
Qed.

Lemma cache_fold_NoDup (rels : list (gmap string string)) :
  ∀ cache : odict (option string) cache_entry,
    NoDup (od_keys cache) → NoDup (od_keys (fold_left cache_one rels cache)).
Proof.
  induction rels as [|repli rels IH]; intros cache Hnd; [done|].
  simpl. apply IH. unfold cache_one. by apply od_keys_set_NoDup.
Qed.

Lemma cache_fold_keys_present (rels : list (gmap string string)) :
  ∀ cache : odict (option string) cache_entry,
    (∀ p, p ∈ source_paths rels → p ∈ od_keys cache) →
    od_keys (fold_left cache_one rels cache) = od_keys cache.
Proof.
  induction rels as [|repli rels IH]; intros cache Hin; [done|].
  simpl.
  assert (od_keys (cache_one cache repli) = od_keys cache) as Hsame.
  { unfold cache_one. apply od_keys_set_present. apply Hin. left. }
  rewrite IH; [done|]. intros p Hp. rewrite Hsame. apply Hin. by right.
Qed.

(** Refreshing from the same listing twice changes nothing the second
    time. *)
Lemma cache_fold_twice (rels : list (gmap string string))
    (cache : odict (option string) cache_entry) :
  NoDup (od_keys cache) →
  fold_left cache_one rels (fold_left cache_one rels cache) = fold_left cache_one rels cache.
Proof.
  intros Hnd. apply odict_ext.
  - by do 2 apply cache_fold_NoDup.
  - apply cache_fold_keys_present. intros p Hp. apply cache_fold_keys. by right.
  - intros p. rewrite cache_fold_get.
    destruct (last (filter (λ repli, repli !! "source_root_path" = p) rels)) eqn:Hlast;
      [|done].
    by rewrite cache_fold_get, Hlast.
Qed.

Section cache_properties.
Context {World Client : Type} (api : @Collaborator World Client).

(** X14. A refresh that fails leaves no trace in the process: when
    [populate_replication_cache] raises (the cluster cannot be reached, or its
    configuration has no name), the cache is exactly as it was, even when the
    failure comes after the configuration was read, and nothing is logged. *)
Theorem failed_refresh_keeps_cache (st st' : @State World) (e : exn) :
  populate_replication_cache api st = (Raise e, st') →
  the_rm st' = the_rm st ∧ the_tc st' = the_tc st ∧ logs st' = logs st
  ∧ ∃ asked, trace st' = trace st ++ asked
             ∧ (asked = [GetClusterConf]
                ∨ asked = [GetClusterConf; ListSourceRelationshipStatuses]).
Proof.
  unfold populate_replication_cache, get_source_info, bind, call, raise, ret, get_rm, set_rm.
  simpl.
  destruct (get_cluster_conf api (world st)) as [[conf|e1] w1]; simpl.
  - destruct (conf !! "cluster_name") as [name|]; simpl.
    + destruct (list_source_relationship_statuses api w1) as [[rels|e2] w2]; simpl; [done|].
      intros [= _ <-]. simpl. split_and!; try done.
      eexists. split; [by rewrite <- app_assoc|]. by right.
    + intros [= _ <-]. simpl. split_and!; try done. eexists. split; [done|]. by left.
  - intros [= _ <-]. simpl. split_and!; try done. eexists. split; [done|]. by left.
Qed.

(** X15. Refreshing twice is the same as refreshing once: when the source
    cluster lists the same relationships again, the second
    [populate_replication_cache] leaves the cache, with the order of its keys,
    as the first one made it. *)
Theorem refresh_is_idempotent (st : @State World) (conf conf' : gmap string string)
    (name name' : string) (rels : list (gmap string string)) (w1 w2 w3 w4 : World) :
  NoDup (od_keys (repli_paths (the_rm st))) →
  get_cluster_conf api (world st) = (Ok conf, w1) →
  conf !! "cluster_name" = Some name →
  list_source_relationship_statuses api w1 = (Ok rels, w2) →
  get_cluster_conf api w2 = (Ok conf', w3) →
  conf' !! "cluster_name" = Some name' →
  list_source_relationship_statuses api w3 = (Ok rels, w4) →
  ∃ st1 st2,
    populate_replication_cache api st = (Ok tt, st1)
    ∧ populate_replication_cache api st1 = (Ok tt, st2)
    ∧ the_rm st2 = the_rm st1.
Proof.
  intros Hnd Hconf Hname Hlist Hconf' Hname' Hlist'.
  unfold populate_replication_cache, get_source_info, bind, call, ret, get_rm, set_rm.
  simpl. rewrite Hconf, Hname. simpl. rewrite Hlist. simpl.
  do 2 eexists. split; [done|]. simpl.
  rewrite Hconf', Hname'. simpl. rewrite Hlist'. simpl.
  split; [done|]. simpl. by rewrite cache_fold_twice.
Qed.

End cache_properties.

Lemma failed_refresh_keeps_cache_witness :
  the_rm (populate_replication_cache offline (initial stale_rm empty_tc)).2
  = the_rm (initial stale_rm empty_tc)
  ∧ the_tc (populate_replication_cache offline (initial stale_rm empty_tc)).2
    = the_tc (initial stale_rm empty_tc)
  ∧ logs (populate_replication_cache offline (initial stale_rm empty_tc)).2
    = logs (initial stale_rm empty_tc)
  ∧ ∃ asked,
      trace (populate_replication_cache offline (initial stale_rm empty_tc)).2
      = trace (initial stale_rm empty_tc) ++ asked
      ∧ (asked = [GetClusterConf]
         ∨ asked = [GetClusterConf; ListSourceRelationshipStatuses]).
Proof.
  apply (failed_refresh_keeps_cache offline (initial stale_rm empty_tc) _
           (ApiError "Connection refused")).
  reflexivity.
Defined.

Lemma refresh_is_idempotent_witness :
  ∃ st1 st2,
    populate_replication_cache (scripted (listing_script three_rels))
      (initial stale_rm empty_tc) = (Ok tt, st1)
    ∧ populate_replication_cache (scripted (listing_script three_rels)) st1 = (Ok tt, st2)
    ∧ the_rm st2 = the_rm st1.
Proof.
  apply (refresh_is_idempotent (scripted (listing_script three_rels))
           (initial stale_rm empty_tc)
           {[ "cluster_name" := "fake-cluster" ]} {[ "cluster_name" := "fake-cluster" ]}
           "fake-cluster" "fake-cluster" three_rels O O O O).
  - apply NoDup_singleton.
  - reflexivity.
  - reflexivity.
  - reflexivity.
  - reflexivity.
  - reflexivity.
  - reflexivity.
Defined.

(** ** More on creating *)

Lemma get_next_dst_ip_Ok (tc tc' : TargetCluster) (ip : string) :
  get_next_dst_ip tc = Ok (ip, tc') →
  ip ∈ od_keys (dst_load tc) ∧ od_keys (dst_load tc') = od_keys (dst_load tc)
  ∧ dst_load tc' ≠ [].
Proof.
  intros Hrun. destruct (decide (dst_load tc = [])) as [Hnil|Hne].
  - unfold get_next_dst_ip in Hrun. by rewrite bool_decide_eq_true_2 in Hrun.
  - destruct (get_next_dst_ip_step tc Hne)
      as (ip0 & load & before & after & tc0 & Hres & Hsplit & _ & _ & _ & Hd' & _).
    rewrite Hres in Hrun. injection Hrun as -> ->.
    assert (ip ∈ od_keys (dst_load tc)) as Hin.
    { rewrite Hsplit. apply elem_of_app. right. left. }
    split_and!; [done| |].
    + rewrite Hd'. by apply od_keys_set_present.
    + rewrite Hd'. apply od_set_nonempty.
Qed.

Lemma create_step_mono (paths paths' : list (option string)) (pool : list string)
    (c : api_call) :
  (∀ p, p ∈ paths → p ∈ paths') → create_step paths pool c → create_step paths' pool c.
Proof. intros Hsub. destruct c; simpl; try done. intros (? & ? & ?). auto. Qed.

Lemma creatable_cons cache (entry : gmap string string) (rest : list (gmap string string)) :
  creatable cache (entry :: rest)
  = (if bool_decide (entry !! "type" = Some "FS_FILE_TYPE_DIRECTORY")
        && negb (od_mem (entry !! "path") cache)
     then [entry !! "path"] else []) ++ creatable cache rest.
Proof.
  unfold creatable. case_bool_decide as Hdir; simpl.
  - destruct (od_mem (entry !! "path") cache) eqn:Hmem; simpl.
    + rewrite filter_cons_False; [done|]. intros [_ ?]. congruence.
    + by rewrite filter_cons_True.
  - rewrite filter_cons_False; [done|]. by intros [? _].
Qed.

Section create_properties.
Context {World Client : Type} (api : @Collaborator World Client).

(** What one iteration may do, whatever the cluster answers. *)
Lemma create_one_safe (entry : gmap string string) (st st' : @State World) r :
  create_one api entry st = (r, st') →
  ∃ new,
    trace st' = trace st ++ new
    ∧ Forall (create_step (creatable (repli_paths (the_rm st)) [entry])
                          (od_keys (dst_load (the_tc st)))) new
    ∧ repli_paths (the_rm st') = repli_paths (the_rm st)
    ∧ od_keys (dst_load (the_tc st')) = od_keys (dst_load (the_tc st)).
Proof.
  rewrite creatable_cons. unfold create_one.
  case_bool_decide as Hdir;
    [|intros [= _ <-]; exists []; by rewrite app_nil_r].
  run_monad.
  destruct (od_mem (entry !! "path") (repli_paths (the_rm st))) eqn:Hmem; run_monad.
  - intros [= _ <-]. exists []. simpl. by rewrite app_nil_r.
  - destruct (get_next_dst_ip (the_tc st)) as [[ip tc']|e] eqn:Hnext; run_monad.
    + apply get_next_dst_ip_Ok in Hnext as (Hin & Hkeys & _).
      assert (create_step ([entry !! "path"] ++ creatable (repli_paths (the_rm st)) [])
                (od_keys (dst_load (the_tc st)))
                (CreateSourceRelationship ip (entry !! "path") (entry !! "path"))) as Hstep.
      { simpl. split_and!; [done|left|done]. }
      destruct (create_source_relationship api ip (entry !! "path") (entry !! "path")
                  (world st)) as [[info|e] w]; run_monad.
      * intros [= _ <-]. eexists [_]. simpl. rewrite <- ?app_assoc.
        split_and!; [done|by constructor|done|done].
      * intros [= _ <-]. eexists [_]. simpl. rewrite <- ?app_assoc.
        split_and!; [done|by constructor|done|done].
    + intros [= _ <-]. exists []. simpl. by rewrite app_nil_r.
Qed.

Lemma create_loop_safe (entries : list (gmap string string)) :
  ∀ (st st' : @State World) r,
    create_loop api false entries st = (r, st') →
    ∃ new,
      trace st' = trace st ++ new
      ∧ Forall (create_step (creatable (repli_paths (the_rm st)) entries)
                            (od_keys (dst_load (the_tc st)))) new
      ∧ repli_paths (the_rm st') = repli_paths (the_rm st)
      ∧ od_keys (dst_load (the_tc st')) = od_keys (dst_load (the_tc st)).
Proof.
  induction entries as [|entry rest IH]; intros st st' r; simpl.
  - intros [= _ <-]. exists []. by rewrite app_nil_r.
  - unfold bind at 1.
    destruct (create_one api entry st) as [[[]|e] st1] eqn:Hone.
    + intros Hrun.
      destruct (create_one_safe _ _ _ _ Hone) as (new1 & Ht1 & Hn1 & Hc1 & Hk1).
      destruct (IH _ _ _ Hrun) as (new2 & Ht2 & Hn2 & Hc2 & Hk2).
      exists (new1 ++ new2). split_and!.
      * by rewrite Ht2, Ht1, app_assoc.
      * apply Forall_app. split.
        -- eapply Forall_impl; [exact Hn1|]. intros c. apply create_step_mono.
           intros p. rewrite (creatable_cons _ entry rest), (creatable_cons _ entry []).
           rewrite !elem_of_app. intros [?|Hnil]; [by left|]. by apply elem_of_nil in Hnil.
        -- rewrite Hc1, Hk1 in Hn2.
           eapply Forall_impl; [exact Hn2|]. intros c. apply create_step_mono.
           intros p. rewrite (creatable_cons _ entry rest), elem_of_app. by right.
      * congruence.
      * congruence.
    + intros [= _ <-].
      destruct (create_one_safe _ _ _ _ Hone) as (new1 & Ht1 & Hn1 & Hc1 & Hk1).
      exists new1. split_and!; [done| |done|done].
      eapply Forall_impl; [exact Hn1|]. intros c. apply create_step_mono.
      intros p. rewrite (creatable_cons _ entry rest), (creatable_cons _ entry []).
      rewrite !elem_of_app. intros [?|Hnil]; [by left|]. by apply elem_of_nil in Hnil.
Qed.

(** The calls of a whole run, once the walk is known. *)
Lemma create_replications_safe (basepath : string) (st st' : @State World) r
    (entries : list (gmap string string)) (w1 : World) :
  tree_walk_preorder api basepath 1 (world st) = (Ok entries, w1) →
  create_replications api basepath st = (r, st') →
  ∃ new,
    trace st' = trace st ++ TreeWalkPreorder basepath 1 :: new
    ∧ Forall (create_step (creatable (repli_paths (the_rm st)) (tail entries))
                          (od_keys (dst_load (the_tc st)))) new
    ∧ repli_paths (the_rm st') = repli_paths (the_rm st)
    ∧ od_keys (dst_load (the_tc st')) = od_keys (dst_load (the_tc st)).
Proof.
  intros Hwalk. unfold create_replications. unfold bind at 1. unfold call at 1.
  rewrite Hwalk. unfold bind at 1.
  destruct entries as [|base rest]; cbn [create_loop tail].
  - unfold ret. intros [= _ <-]. exists []. simpl. split_and!; done.
  - unfold bind at 1. unfold log at 1.
    match goal with |- context [create_loop api false rest ?s] =>
      destruct (create_loop api false rest s) as [[[]|e] st1] eqn:Hloop end.
    + unfold ret. intros [= _ <-].
      destruct (create_loop_safe _ _ _ _ Hloop) as (new & Ht & Hn & Hc & Hk).
      simpl in *. exists new. split_and!; [|done|done|done].
      rewrite Ht. by rewrite <- app_assoc.
    + intros [= _ <-].
      destruct (create_loop_safe _ _ _ _ Hloop) as (new & Ht & Hn & Hc & Hk).
      simpl in *. exists new. split_and!; [|done|done|done].
      rewrite Ht. by rewrite <- app_assoc.
Qed.

(** X16. Whatever the cluster answers, after the walk
    [create_replications] only ever asks for the creation of relationships,
    each for a directory entry of the walk other than the first whose path is
    not cached, from that path to the same path, at an address of the pool;
    it leaves the cache and the addresses of the pool as they were. *)
Theorem create_only_for_uncached_directories (basepath : string) (st st' : @State World)
    r (entries : list (gmap string string)) (w1 : World) :
  tree_walk_preorder api basepath 1 (world st) = (Ok entries, w1) →
  create_replications api basepath st = (r, st') →
  ∃ new,
    trace st' = trace st ++ TreeWalkPreorder basepath 1 :: new
    ∧ Forall (create_step (creatable (repli_paths (the_rm st)) (tail entries))
                          (od_keys (dst_load (the_tc st)))) new
    ∧ repli_paths (the_rm st') = repli_paths (the_rm st)
    ∧ od_keys (dst_load (the_tc st')) = od_keys (dst_load (the_tc st)).
Proof. apply create_replications_safe. Qed.

(** X17. The create action of [main] refreshes the cache and then creates:
    whatever the walk yields and however the run ends, no relationship is
    requested for a path the source cluster listed, nor for one that was
    cached before. *)
Theorem listed_paths_are_not_recreated (basepath : string) (st st' : @State World) r
    (conf : gmap string string) (cluster_name : string)
    (rels entries : list (gmap string string)) (w1 w2 w3 : World) :
  get_cluster_conf api (world st) = (Ok conf, w1) →
  conf !! "cluster_name" = Some cluster_name →
  list_source_relationship_statuses api w1 = (Ok rels, w2) →
  tree_walk_preorder api basepath 1 w2 = (Ok entries, w3) →
  bind (populate_replication_cache api) (λ _, create_replications api basepath) st
  = (r, st') →
  ∃ new,
    trace st' = trace st ++ [GetClusterConf; ListSourceRelationshipStatuses;
                             TreeWalkPreorder basepath 1] ++ new
    ∧ ∀ address source_path target_path,
        CreateSourceRelationship address source_path target_path ∈ new →
        (source_path ∉ source_paths rels)
        ∧ (source_path ∉ od_keys (repli_paths (the_rm st)))
        ∧ target_path = source_path.
Proof.
  intros Hconf Hname Hlist Hwalk. unfold bind at 1.
  assert (populate_replication_cache api st
          = (Ok tt, {| world := w2;
                       trace := trace st ++ [GetClusterConf; ListSourceRelationshipStatuses];
                       logs := logs st;
                       the_rm := {| repli_paths :=
                                      fold_left cache_one rels (repli_paths (the_rm st));
                                    created_replications := created_replications (the_rm st) |};
                       the_tc := the_tc st |})) as ->.
  { unfold populate_replication_cache, get_source_info, bind, call, ret, get_rm, set_rm.
    simpl. rewrite Hconf, Hname. simpl. rewrite Hlist. simpl. by rewrite <- app_assoc. }
  intros Hrun.
  eapply create_replications_safe in Hrun as (new & Ht & Hnew & _); [|exact Hwalk].
  simpl in *. exists new. split; [rewrite Ht; by rewrite <- app_assoc|].
  intros address source_path target_path Hin.
  rewrite Forall_forall in Hnew. destruct (Hnew _ Hin) as (Htarget & Hpath & _).
  unfold creatable in Hpath. apply list_elem_of_fmap in Hpath as (entry & -> & Hentry).
  apply list_elem_of_filter in Hentry as [[_ Hmem] _].
  assert (entry !! "path" ∉ od_keys (fold_left cache_one rels (repli_paths (the_rm st))))
    as Hnot.
  { rewrite <- od_get_is_Some. unfold od_mem in Hmem.
    by apply bool_decide_eq_false in Hmem. }
  rewrite cache_fold_keys in Hnot. split_and!; [tauto|tauto|done].
Qed.

End create_properties.

Section create_runs.
Context {World Client : Type} (api : @Collaborator World Client).

(** One iteration when the cluster accepts the creation. *)
Lemma create_one_accepted (entry : gmap string string) (st : @State World) :
  (∀ address path w, is_ok (create_source_relationship api address path path w).1 = true) →
  dst_load (the_tc st) ≠ [] →
  ∃ st' ips,
    create_one api entry st = (Ok tt, st')
    ∧ get_next_dst_ip_n (length (creatable (repli_paths (the_rm st)) [entry])) (the_tc st)
      = Ok (ips, the_tc st')
    ∧ trace st' = trace st
                  ++ zip_with create_call ips (creatable (repli_paths (the_rm st)) [entry])
    ∧ repli_paths (the_rm st') = repli_paths (the_rm st)
    ∧ dst_load (the_tc st') ≠ [].
Proof.
  intros Haccept Hpool. rewrite creatable_cons. unfold create_one.
  case_bool_decide as Hdir; simpl;
    [|exists st, []; unfold ret; by rewrite app_nil_r].
  run_monad.
  destruct (od_mem (entry !! "path") (repli_paths (the_rm st))) eqn:Hmem; run_monad.
  - eexists. exists []. simpl. rewrite app_nil_r. split_and!; done.
  - destruct (get_next_dst_ip_step (the_tc st) Hpool)
      as (ip & load & before & after & tc' & Hnext & _).
    rewrite Hnext. run_monad.
    pose proof (Haccept ip (entry !! "path") (world st)) as Hok.
    destruct (create_source_relationship api ip (entry !! "path") (entry !! "path")
                (world st)) as [[info|e] w]; [|done].
    run_monad. eexists. exists [ip]. split_and!.
    + reflexivity.
    + cbn [length app get_next_dst_ip_n the_tc]. by rewrite Hnext.
    + reflexivity.
    + reflexivity.
    + by apply get_next_dst_ip_Ok in Hnext as (_ & _ & ?).
Qed.

Lemma get_next_dst_ip_n_app (n m : nat) (tc tc1 tc2 : TargetCluster)
    (ips1 ips2 : list string) :
  get_next_dst_ip_n n tc = Ok (ips1, tc1) →
  get_next_dst_ip_n m tc1 = Ok (ips2, tc2) →
  get_next_dst_ip_n (n + m) tc = Ok (ips1 ++ ips2, tc2) ∧ length ips1 = n.
Proof.
  revert tc ips1. induction n as [|n IH]; intros tc ips1; simpl.
  - intros [= <- <-] Hm. by rewrite Hm.
  - destruct (get_next_dst_ip tc) as [[ip tc0]|e]; [|done].
    destruct (get_next_dst_ip_n n tc0) as [[ips tc3]|e] eqn:Hn; [|done].
    intros [= <- <-] Hm. destruct (IH _ _ Hn Hm) as [-> Hlen]. simpl. by rewrite Hlen.
Qed.

Lemma create_loop_accepted (entries : list (gmap string string)) :
  (∀ address path w, is_ok (create_source_relationship api address path path w).1 = true) →
  ∀ st : @State World,
    dst_load (the_tc st) ≠ [] →
    ∃ st' ips,
      create_loop api false entries st = (Ok tt, st')
      ∧ get_next_dst_ip_n (length (creatable (repli_paths (the_rm st)) entries)) (the_tc st)
        = Ok (ips, the_tc st')
      ∧ trace st' = trace st
                    ++ zip_with create_call ips (creatable (repli_paths (the_rm st)) entries)
      ∧ repli_paths (the_rm st') = repli_paths (the_rm st).
Proof.
  intros Haccept. induction entries as [|entry rest IH]; intros st Hpool.
  - exists st, []. simpl. unfold ret. by rewrite app_nil_r.
  - cbn [create_loop]. unfold bind at 1.
    destruct (create_one_accepted entry st Haccept Hpool)
      as (st1 & ips1 & -> & Hn1 & Ht1 & Hc1 & Hpool1).
    destruct (IH st1 Hpool1) as (st2 & ips2 & -> & Hn2 & Ht2 & Hc2).
    rewrite Hc1 in Hn2, Ht2.
    destruct (get_next_dst_ip_n_app _ _ _ _ _ _ _ Hn1 Hn2) as [Hn Hlen].
    exists st2, (ips1 ++ ips2). split_and!; [done| | |congruence].
    + rewrite (creatable_cons _ entry rest), length_app.
      rewrite (creatable_cons _ entry []), app_nil_r in Hn. exact Hn.
    + rewrite Ht2, Ht1, <- app_assoc. f_equal.
      rewrite (creatable_cons _ entry rest).
      rewrite (creatable_cons _ entry []), app_nil_r in Hlen |- *.
      by rewrite zip_with_app.
Qed.

(** X18. When the cluster accepts every creation and the pool is not
    empty, [create_replications] returns normally having asked, in the order
    of the walk, for one relationship per uncached directory after the first
    entry, at the addresses that as many successive least-loaded selections
    hand out; the pool is left as those selections leave it and the cache is
    untouched. *)
Theorem create_deals_addresses (basepath : string) (st : @State World)
    (entries : list (gmap string string)) (w1 : World) :
  tree_walk_preorder api basepath 1 (world st) = (Ok entries, w1) →
  (∀ address path w, is_ok (create_source_relationship api address path path w).1 = true) →
  dst_load (the_tc st) ≠ [] →
  ∃ st' ips,
    create_replications api basepath st = (Ok PNone, st')
    ∧ get_next_dst_ip_n (length (creatable (repli_paths (the_rm st)) (tail entries)))
        (the_tc st) = Ok (ips, the_tc st')
    ∧ trace st' = trace st ++ TreeWalkPreorder basepath 1
                  :: zip_with create_call ips
                       (creatable (repli_paths (the_rm st)) (tail entries))
    ∧ repli_paths (the_rm st') = repli_paths (the_rm st).
Proof.
  intros Hwalk Haccept Hpool.
  unfold create_replications. unfold bind at 1. unfold call at 1. rewrite Hwalk.
  unfold bind at 1.
  destruct entries as [|base rest]; cbn [create_loop tail].
  - unfold ret. eexists. exists []. simpl. split_and!; done.
  - unfold bind at 1. unfold log at 1.
    match goal with |- context [create_loop api false rest ?s] =>
      destruct (create_loop_accepted rest Haccept s Hpool)
        as (st' & ips & -> & Hn & Ht & Hc) end.
    simpl in *. unfold ret. exists st', ips. split_and!; [done|done| |done].
    rewrite Ht. by rewrite <- app_assoc.
Qed.

(** X19. With an empty pool the first uncached directory after the base
    entry ends the run: [create_replications] raises the [ValueError] of the
    selection, and no creation has been asked for. *)
Theorem create_with_empty_pool (basepath : string) (st : @State World)
    (entries : list (gmap string string)) (w1 : World) (path : option string)
    (paths : list (option string)) :
  tree_walk_preorder api basepath 1 (world st) = (Ok entries, w1) →
  dst_load (the_tc st) = [] →
  creatable (repli_paths (the_rm st)) (tail entries) = path :: paths →
  ∃ st',
    create_replications api basepath st
    = (Raise (ValueError "No destination IPs available for load balancing"), st')
    ∧ trace st' = trace st ++ [TreeWalkPreorder basepath 1]
    ∧ the_rm st' = the_rm st ∧ the_tc st' = the_tc st.
Proof.
  intros Hwalk Hpool Hpaths.
  unfold create_replications. unfold bind at 1. unfold call at 1. rewrite Hwalk.
  unfold bind at 1.
  destruct entries as [|base rest]; cbn [create_loop tail] in *; [done|].
  unfold bind at 1. unfold log at 1.
  match goal with |- context [create_loop api false rest ?s] => set (s0 := s) end.
  assert (∃ st', create_loop api false rest s0
                 = (Raise (ValueError "No destination IPs available for load balancing"), st')
                 ∧ trace st' = trace s0 ∧ the_rm st' = the_rm s0 ∧ the_tc st' = the_tc s0)
    as (st' & Hloop & Ht & Hrm & Htc).
  { assert (dst_load (the_tc s0) = []) as Hpool0 by done.
    assert (creatable (repli_paths (the_rm s0)) rest = path :: paths) as Hpaths0 by done.
    clearbody s0. clear Hwalk Hpool Hpaths. revert s0 Hpool0 Hpaths0.
    induction rest as [|entry rest IH]; intros s0 Hpool0 Hpaths0; [done|].
    rewrite creatable_cons in Hpaths0. cbn [create_loop]. unfold bind at 1.
    unfold create_one.
    destruct (bool_decide (entry !! "type" = Some "FS_FILE_TYPE_DIRECTORY")); simpl in *.
    - run_monad.
      destruct (od_mem (entry !! "path") (repli_paths (the_rm s0))) eqn:Hmem;
        run_monad; simpl in *.
      + match goal with |- context [create_loop api false rest ?s] =>
          destruct (IH s) as (st' & -> & Ht & Hrm & Htc); [done|done|] end.
        simpl in *. by exists st'.
      + unfold get_next_dst_ip. rewrite bool_decide_eq_true_2 by done.
        eexists. split_and!; done.
    - unfold ret. by apply IH. }
  rewrite Hloop. exists st'. split_and!; [done| | |]; [by rewrite Ht|by rewrite Hrm|by rewrite Htc].
Qed.

End create_runs.

Lemma create_only_for_uncached_directories_witness :
  ∃ new,
    trace (create_replications (scripted rerun_script) "/data"
             (initial stale_rm (two_ip_cluster 0 0))).2
    = trace (initial stale_rm (two_ip_cluster 0 0)) ++ TreeWalkPreorder "/data" 1 :: new
    ∧ Forall (create_step
                (creatable (repli_paths (the_rm (initial stale_rm (two_ip_cluster 0 0))))
                   (tail mixed_walk))
                (od_keys (dst_load (the_tc (initial stale_rm (two_ip_cluster 0 0)))))) new
    ∧ repli_paths (the_rm (create_replications (scripted rerun_script) "/data"
                             (initial stale_rm (two_ip_cluster 0 0))).2)
      = repli_paths (the_rm (initial stale_rm (two_ip_cluster 0 0)))
    ∧ od_keys (dst_load (the_tc (create_replications (scripted rerun_script) "/data"
                                   (initial stale_rm (two_ip_cluster 0 0))).2))
      = od_keys (dst_load (the_tc (initial stale_rm (two_ip_cluster 0 0)))).
Proof.
  apply (create_only_for_uncached_directories (scripted rerun_script) "/data"
           (initial stale_rm (two_ip_cluster 0 0)) _
           (create_replications (scripted rerun_script) "/data"
              (initial stale_rm (two_ip_cluster 0 0))).1 mixed_walk O).
  - reflexivity.
  - vm_compute. reflexivity.
Defined.

Lemma listed_paths_are_not_recreated_witness :
  ∃ new,
    trace (bind (populate_replication_cache (scripted rerun_script))
             (λ _, create_replications (scripted rerun_script) "/data")
             (initial ReplicationManager_init (two_ip_cluster 0 0))).2
    = trace (initial ReplicationManager_init (two_ip_cluster 0 0))
      ++ [GetClusterConf; ListSourceRelationshipStatuses; TreeWalkPreorder "/data" 1] ++ new
    ∧ ∀ address source_path target_path,
        CreateSourceRelationship address source_path target_path ∈ new →
        (source_path ∉ source_paths fresh_listing)
        ∧ (source_path
           ∉ od_keys (repli_paths
                        (the_rm (initial ReplicationManager_init (two_ip_cluster 0 0)))))
        ∧ target_path = source_path.
Proof.
  apply (listed_paths_are_not_recreated (scripted rerun_script) "/data"
           (initial ReplicationManager_init (two_ip_cluster 0 0)) _
           (bind (populate_replication_cache (scripted rerun_script))
              (λ _, create_replications (scripted rerun_script) "/data")
              (initial ReplicationManager_init (two_ip_cluster 0 0))).1
           {[ "cluster_name" := "fake-cluster" ]} "fake-cluster"
           fresh_listing mixed_walk O O O).
  - reflexivity.
  - reflexivity.
  - reflexivity.
  - reflexivity.
  - vm_compute. reflexivity.
Defined.

(** The second run of a create: /data/project1 is listed by the source
    cluster and skipped, the file is skipped, /data/project2 is created. *)
Example rerun_example :
  trace (bind (populate_replication_cache (scripted rerun_script))
           (λ _, create_replications (scripted rerun_script) "/data")
           (initial ReplicationManager_init (two_ip_cluster 0 0))).2
  = [GetClusterConf; ListSourceRelationshipStatuses; TreeWalkPreorder "/data" 1;
     CreateSourceRelationship "10.1.1.20" (Some "/data/project2") (Some "/data/project2")].
Proof. vm_compute. reflexivity. Qed.

Lemma create_deals_addresses_witness :
  ∃ st' ips,
    create_replications (scripted (walk_script three_dirs [])) "/data" create_start
    = (Ok PNone, st')
    ∧ get_next_dst_ip_n
        (length (creatable (repli_paths (the_rm create_start)) (tail three_dirs)))
        (the_tc create_start) = Ok (ips, the_tc st')
    ∧ trace st' = trace create_start ++ TreeWalkPreorder "/data" 1
                  :: zip_with create_call ips
                       (creatable (repli_paths (the_rm create_start)) (tail three_dirs))
    ∧ repli_paths (the_rm st') = repli_paths (the_rm create_start).
Proof.
  apply (create_deals_addresses (scripted (walk_script three_dirs [])) "/data" create_start
           three_dirs O).
  - reflexivity.
  - intros address path w. reflexivity.
  - discriminate.
Defined.

Example create_deals_example :
  trace (create_replications (scripted (walk_script three_dirs [])) "/data" create_start).2
  = [TreeWalkPreorder "/data" 1;
     CreateSourceRelationship "10.1.1.20" (Some "/data/a") (Some "/data/a");
     CreateSourceRelationship "10.1.1.21" (Some "/data/b") (Some "/data/b");
     CreateSourceRelationship "10.1.1.20" (Some "/data/c") (Some "/data/c")].
Proof. vm_compute. reflexivity. Qed.

Lemma create_with_empty_pool_witness :
  ∃ st',
    create_replications (scripted (walk_script three_dirs [])) "/data"
      (initial ReplicationManager_init empty_tc)
    = (Raise (ValueError "No destination IPs available for load balancing"), st')
    ∧ trace st' = trace (initial ReplicationManager_init empty_tc)
                  ++ [TreeWalkPreorder "/data" 1]
    ∧ the_rm st' = the_rm (initial ReplicationManager_init empty_tc)
    ∧ the_tc st' = the_tc (initial ReplicationManager_init empty_tc).
Proof.
  apply (create_with_empty_pool (scripted (walk_script three_dirs [])) "/data"
           (initial ReplicationManager_init empty_tc) three_dirs O
           (Some "/data/a") [Some "/data/b"; Some "/data/c"]).
  - reflexivity.
  - reflexivity.
  - vm_compute. reflexivity.
Defined.

(** ** More on cleaning *)

Section clean_properties.
Context {World Client : Type} (api : @Collaborator World Client).

Lemma for_each_app {A : Type} (body : A → @M World unit) (before after : list A)
    (st : @State World) :
  for_each body (before ++ after) st
  = bind (for_each body before) (λ _, for_each body after) st.
Proof.
  revert st. induction before as [|x before IH]; intros st; [done|].
  simpl. unfold bind.
  destruct (body x st) as [[[]|e] st1]; [|done].
  rewrite IH. reflexivity.
Qed.

(** One iteration, whatever the cluster answers: at most the deletion of
    the entry, and only when it is under the base path. *)
Lemma clean_one_safe (basepath : string) (item : option string * cache_entry)
    (st st' : @State World) r :
  clean_one api basepath item st = (r, st') →
  the_rm st' = the_rm st ∧ the_tc st' = the_tc st
  ∧ ((trace st' = trace st ∧ (r = Ok tt → under basepath item = false))
     ∨ (trace st' = trace st ++ [delete_call item] ∧ under basepath item = true)).
Proof.
  destruct item as [[p|] values]; unfold clean_one, under, bind, log, call, raise, ret;
    simpl.
  - destruct (Py.startswith p basepath); simpl.
    + destruct (delete_source_relationship api (replid values) (world st)) as [r0 w].
      intros [= <- <-]. simpl. split_and!; [done|done|]. by right.
    + intros [= <- <-]. simpl. split_and!; [done|done|]. by left.
  - intros [= <- <-]. simpl. split_and!; [done|done|]. by left.
Qed.

Lemma clean_loop_safe (basepath : string) (cache : odict (option string) cache_entry) :
  ∀ (st st' : @State World) r,
    for_each (clean_one api basepath) cache st = (r, st') →
    ∃ deleted,
      trace st' = trace st ++ (delete_call <$> deleted)
      ∧ deleted `prefix_of` filter (λ item, under basepath item = true) cache
      ∧ (r = Ok tt → deleted = filter (λ item, under basepath item = true) cache)
      ∧ the_rm st' = the_rm st ∧ the_tc st' = the_tc st.
Proof.
  induction cache as [|item cache IH]; intros st st' r.
  - simpl. intros [= <- <-]. exists []. simpl. by rewrite app_nil_r.
  - change (for_each (clean_one api basepath) (item :: cache) st)
      with (bind (clean_one api basepath item)
                 (λ _, for_each (clean_one api basepath) cache) st).
    unfold bind.
    destruct (clean_one api basepath item st) as [[[]|e] st1] eqn:Hone.
    + intros Hrun.
      destruct (clean_one_safe _ _ _ _ _ Hone) as (Hrm1 & Htc1 & Hcase).
      destruct (IH _ _ _ Hrun) as (deleted & Ht & Hprefix & Hall & Hrm & Htc).
      destruct Hcase as [[Ht1 Hskip]|[Ht1 Hunder]].
      * exists deleted. rewrite filter_cons_False by (rewrite Hskip; done).
        split_and!; [congruence|done|done|congruence|congruence].
      * exists (item :: deleted). rewrite filter_cons_True by done.
        split_and!; [|by apply prefix_cons| |congruence|congruence].
        -- rewrite Ht, Ht1, <- app_assoc. done.
        -- intros Hr. by rewrite Hall.
    + intros [= <- <-].
      destruct (clean_one_safe _ _ _ _ _ Hone) as (Hrm1 & Htc1 & Hcase).
      destruct Hcase as [[Ht1 _]|[Ht1 Hunder]].
      * exists []. simpl. rewrite app_nil_r.
        split_and!; [done|apply prefix_nil|done|done|done].
      * exists [item]. rewrite filter_cons_True by done.
        split_and!; [done|apply prefix_cons, prefix_nil|done|done|done].
Qed.

(** X20. Whatever the cluster answers, [clean_replications] only asks for
    the deletion of relationships of cached entries whose path starts with
    the base path, in cache order and without skipping one: an initial
    segment of them, and all of them when it returns.  It gives [None] back
    and never changes the cache: the entries it deleted stay cached. *)
Theorem clean_deletes_only_under (basepath : string) (st st' : @State World)
    (r : result pyval) :
  clean_replications api basepath st = (r, st') →
  ∃ deleted,
    trace st' = trace st ++ (delete_call <$> deleted)
    ∧ deleted `prefix_of` filter (λ item, under basepath item = true)
                            (repli_paths (the_rm st))
    ∧ (is_ok r = true →
       r = Ok PNone
       ∧ deleted = filter (λ item, under basepath item = true) (repli_paths (the_rm st)))
    ∧ the_rm st' = the_rm st.
Proof.
  unfold clean_replications, bind, get_rm, ret.
  destruct (for_each (clean_one api basepath) (repli_paths (the_rm st)) st)
    as [[[]|e] st1] eqn:Hloop; intros [= <- <-];
    destruct (clean_loop_safe _ _ _ _ _ Hloop) as (deleted & Ht & Hprefix & Hall & Hrm & _);
    exists deleted; split_and!; try done.
  intros _. split; [done|]. by apply Hall.
Qed.

(** X21. When every cached key is a path and the cluster accepts every
    deletion, [clean_replications] returns having asked for the deletion of
    exactly the cached entries under the base path, each once, in cache
    order. *)
Theorem clean_deletes_all_under (basepath : string) (st : @State World) :
  (∀ rid w, (delete_source_relationship api rid w).1 = Ok tt) →
  Forall (λ item, is_Some item.1) (repli_paths (the_rm st)) →
  ∃ st',
    clean_replications api basepath st = (Ok PNone, st')
    ∧ trace st'
      = trace st
        ++ (delete_call <$> filter (λ item, under basepath item = true)
                              (repli_paths (the_rm st)))
    ∧ the_rm st' = the_rm st.
Proof.
  intros Hdel Hkeys.
  destruct (clean_replications_deletes_under api basepath st Hdel Hkeys)
    as (st' & Hrun & _ & Hrm).
  exists st'. split; [done|]. split; [|done].
  unfold clean_replications, bind, get_rm, ret in Hrun.
  destruct (for_each (clean_one api basepath) (repli_paths (the_rm st)) st)
    as [[[]|e] st1] eqn:Hloop; [|done].
  injection Hrun as <-.
  destruct (clean_loop_safe _ _ _ _ _ Hloop) as (deleted & Ht & _ & Hall & _).
  by rewrite Ht, Hall.
Qed.

(** X22. A cached entry whose key is [None] (a listed relationship without
    a source path) stops the clean-up: once the entries before it are done,
    [clean_replications] raises [AttributeError], and the entries after it
    are never looked at. *)
Theorem clean_stops_at_pathless_entry (basepath : string) (st : @State World)
    (before after : odict (option string) cache_entry) (values : cache_entry) :
  (∀ rid w, (delete_source_relationship api rid w).1 = Ok tt) →
  Forall (λ item, is_Some item.1) before →
  repli_paths (the_rm st) = before ++ (None, values) :: after →
  ∃ st',
    clean_replications api basepath st
    = (Raise (AttributeError "'NoneType' object has no attribute 'startswith'"), st')
    ∧ filter (λ c, is_delete c = true) (trace st')
      = filter (λ c, is_delete c = true) (trace st)
        ++ (delete_call <$> filter (λ item, under basepath item = true) before)
    ∧ the_rm st' = the_rm st.
Proof.
  intros Hdel Hkeys Hcache.
  unfold clean_replications. unfold bind at 1. unfold get_rm at 1. rewrite Hcache.
  unfold bind at 1. rewrite for_each_app. unfold bind at 1.
  destruct (clean_loop_deletes_under api basepath before Hdel Hkeys st)
    as (st1 & -> & Ht & Hrm).
  simpl. unfold bind, log, raise. simpl.
  eexists. split_and!; [done|exact Ht|done].
Qed.

(** X23. A deletion the cluster refuses ends the clean-up: the exception
    leaves [clean_replications], the refused call is the last one, and no
    later entry of the cache is deleted. *)
Theorem clean_failure_propagates (basepath path : string) (st st1 : @State World)
    (before after : odict (option string) cache_entry) (values : cache_entry)
    (e : exn) (w : World) :
  repli_paths (the_rm st) = before ++ (Some path, values) :: after →
  for_each (clean_one api basepath) before st = (Ok tt, st1) →
  Py.startswith path basepath = true →
  delete_source_relationship api (replid values) (world st1) = (Raise e, w) →
  ∃ st',
    clean_replications api basepath st = (Raise e, st')
    ∧ trace st' = trace st1 ++ [DeleteSourceRelationship (replid values)]
    ∧ world st' = w
    ∧ the_rm st' = the_rm st.
Proof.
  intros Hcache Hbefore Hunder Hrefused.
  unfold clean_replications. unfold bind at 1. unfold get_rm at 1. rewrite Hcache.
  unfold bind at 1. rewrite for_each_app. unfold bind at 1. rewrite Hbefore.
  apply clean_loop_safe in Hbefore as (_ & _ & _ & _ & Hrm & _).
  simpl. unfold bind, log, call. simpl. rewrite Hunder. simpl. rewrite Hrefused.
  eexists. split_and!; done.
Qed.

End clean_properties.

Lemma clean_deletes_only_under_witness :
  ∃ deleted,
    trace (clean_replications (refusing [Some "repl-002"]) "/data"
             (initial (cached three_rels) empty_tc)).2
    = trace (initial (cached three_rels) empty_tc) ++ (delete_call <$> deleted)
    ∧ deleted `prefix_of` filter (λ item, under "/data" item = true)
                            (repli_paths (the_rm (initial (cached three_rels) empty_tc)))
    ∧ (is_ok (clean_replications (refusing [Some "repl-002"]) "/data"
                (initial (cached three_rels) empty_tc)).1 = true →
       (clean_replications (refusing [Some "repl-002"]) "/data"
          (initial (cached three_rels) empty_tc)).1 = Ok PNone
       ∧ deleted = filter (λ item, under "/data" item = true)
                     (repli_paths (the_rm (initial (cached three_rels) empty_tc))))
    ∧ the_rm (clean_replications (refusing [Some "repl-002"]) "/data"
                (initial (cached three_rels) empty_tc)).2
      = the_rm (initial (cached three_rels) empty_tc).
Proof.
  apply (clean_deletes_only_under (refusing [Some "repl-002"]) "/data"
           (initial (cached three_rels) empty_tc)).
  vm_compute. reflexivity.
Defined.

Lemma clean_deletes_all_under_witness :
  ∃ st',
    clean_replications (scripted (listing_script three_rels)) "/data/t"
      (initial (cached three_rels) empty_tc) = (Ok PNone, st')
    ∧ trace st'
      = trace (initial (cached three_rels) empty_tc)
        ++ (delete_call <$> filter (λ item, under "/data/t" item = true)
                              (repli_paths (the_rm (initial (cached three_rels) empty_tc))))
    ∧ the_rm st' = the_rm (initial (cached three_rels) empty_tc).
Proof.
  apply (clean_deletes_all_under (scripted (listing_script three_rels)) "/data/t"
           (initial (cached three_rels) empty_tc)).
  - intros rid w. reflexivity.
  - vm_compute. repeat (constructor; [eexists; reflexivity|]). constructor.
Defined.

Example clean_under_example :
  trace (clean_replications (scripted (listing_script three_rels)) "/data/t"
           (initial (cached three_rels) empty_tc)).2
  = [DeleteSourceRelationship (Some "repl-002")].
Proof. vm_compute. reflexivity. Qed.

Lemma clean_stops_at_pathless_entry_witness :
  ∃ st',
    clean_replications (scripted empty_script) "/data"
      (initial (cached pathless_listing) empty_tc)
    = (Raise (AttributeError "'NoneType' object has no attribute 'startswith'"), st')
    ∧ filter (λ c, is_delete c = true) (trace st')
      = filter (λ c, is_delete c = true) (trace (initial (cached pathless_listing) empty_tc))
        ++ (delete_call
              <$> filter (λ item, under "/data" item = true)
                    [(Some "/data/prod-db",
                      entry_of (source_rel "repl-001" "/data/prod-db" "1" "10.1.1.20"))])
    ∧ the_rm st' = the_rm (initial (cached pathless_listing) empty_tc).
Proof.
  apply (clean_stops_at_pathless_entry (scripted empty_script) "/data"
           (initial (cached pathless_listing) empty_tc)
           [(Some "/data/prod-db",
             entry_of (source_rel "repl-001" "/data/prod-db" "1" "10.1.1.20"))]
           [(Some "/data/foo-app",
             entry_of (source_rel "repl-003" "/data/foo-app" "3" "10.1.1.20"))]
           (entry_of (<[ "id" := "repl-002" ]> {[ "target_address" := "10.1.1.20" ]}))).
  - intros rid w. reflexivity.
  - constructor; [eexists; reflexivity|]. constructor.
  - vm_compute. reflexivity.
Defined.

Lemma clean_failure_propagates_witness :
  ∃ st',
    clean_replications (refusing [Some "repl-002"]) "/data"
      (initial (cached three_rels) empty_tc)
    = (Raise (ApiError "Error 500: deletion refused"), st')
    ∧ trace st'
      = trace (for_each (clean_one (refusing [Some "repl-002"]) "/data")
                 [(Some "/data/prod-db",
                   entry_of (source_rel "repl-001" "/data/prod-db" "1" "10.1.1.20"))]
                 (initial (cached three_rels) empty_tc)).2
        ++ [DeleteSourceRelationship
              (replid (entry_of (source_rel "repl-002" "/data/test-db" "2" "10.1.1.20")))]
    ∧ world st' = 1%nat
    ∧ the_rm st' = the_rm (initial (cached three_rels) empty_tc).
Proof.
  apply (clean_failure_propagates (refusing [Some "repl-002"]) "/data" "/data/test-db"
           (initial (cached three_rels) empty_tc) _
           [(Some "/data/prod-db",
             entry_of (source_rel "repl-001" "/data/prod-db" "1" "10.1.1.20"))]
           [(Some "/data/foo-app",
             entry_of (source_rel "repl-003" "/data/foo-app" "3" "10.1.1.20"))]
           (entry_of (source_rel "repl-002" "/data/test-db" "2" "10.1.1.20"))
           (ApiError "Error 500: deletion refused") 1%nat).
  - vm_compute. reflexivity.
  - vm_compute. reflexivity.
  - vm_compute. reflexivity.
  - vm_compute. reflexivity.
Defined.

(** The cluster refuses to delete repl-002: repl-001 is deleted, repl-003
    is not asked for. *)
Example clean_failure_example :
  trace (clean_replications (refusing [Some "repl-002"]) "/data"
           (initial (cached three_rels) empty_tc)).2
  = [DeleteSourceRelationship (Some "repl-001"); DeleteSourceRelationship (Some "repl-002")].
Proof. vm_compute. reflexivity. Qed.

(** ** The clean-up of the destination cluster *)

Section destination_properties.
Context {World Client : Type} (api : @Collaborator World Client).
Context (delete_target_relationship : string → World → result unit * World).

(** The deleting loop visits every element, whatever the cluster
    answers. *)
Lemma delete_loop_spec (ended : list ended_rel) :
  ∀ (count : Z) (d : @Destination World),
    ∃ count' d' newlogs,
      fold_left (delete_ended delete_target_relationship) ended (count, d) = (count', d')
      ∧ d_trace d' = d_trace d ++ (DeleteTargetRelationship <$> (ended_id <$> ended))
      ∧ d_logs d' = d_logs d ++ newlogs
      ∧ count' + Z.of_nat (length (at_least ERROR newlogs))
        = count + Z.of_nat (length ended)
      ∧ count ≤ count'.
Proof.
  induction ended as [|rel ended IH]; intros count d.
  - exists count, d, []. simpl. rewrite !app_nil_r. split_and!; [done|done|done|lia|lia].
  - cbn [fold_left]. unfold delete_ended at 2. unfold d_log. simpl.
    destruct (delete_target_relationship (ended_id rel) (d_world d)) as [[[]|e] w].
    + match goal with |- context [fold_left _ ended (?c, ?s)] =>
        destruct (IH c s) as (count' & d' & newlogs & -> & Ht & Hl & Hn & Hle) end.
      simpl in *. exists count', d'. eexists ([_; _] ++ newlogs).
      split_and!; [done| | | |lia].
      * rewrite Ht. by rewrite <- app_assoc.
      * rewrite Hl. by rewrite <- !app_assoc.
      * rewrite at_least_app. simpl. lia.
    + match goal with |- context [fold_left _ ended (?c, ?s)] =>
        destruct (IH c s) as (count' & d' & newlogs & -> & Ht & Hl & Hn & Hle) end.
      simpl in *. exists count', d'. eexists ([_; _] ++ newlogs).
      split_and!; [done| | | |lia].
      * rewrite Ht. by rewrite <- app_assoc.
      * rewrite Hl. by rewrite <- !app_assoc.
      * rewrite at_least_app, length_app. simpl. lia.
Qed.

(** What a run asks of the cluster, once the listing is fetched. *)
Lemma ended_cleanup_counts_aux (basepath : string) (d : @Destination World)
    (rels : list (gmap string string)) (w1 : World) :
  list_target_relationship_statuses api (d_world d) = (Ok rels, w1) →
  ∃ count d',
    clean_ended_replications api delete_target_relationship basepath d = (Ok count, d')
    ∧ d_trace d' = d_trace d
                   ++ ListTargetStatuses
                   :: (DeleteTargetRelationship
                         <$> (ended_id <$> omap (ended_of basepath) rels)).
Proof.
  intros Hlist. unfold clean_ended_replications. rewrite Hlist.
  case_bool_decide as Hended.
  - rewrite Hended. unfold d_log. simpl. by do 2 eexists.
  - match goal with |- context [fold_left _ _ (0, ?s)] =>
      destruct (delete_loop_spec (omap (ended_of basepath) rels) 0 s)
        as (count & d' & newlogs & -> & Ht & _) end.
    unfold d_log in *. simpl in *. exists count. eexists.
    split; [done|]. simpl. rewrite Ht. by rewrite <- app_assoc.
Qed.

(** The elements of [ended_relationships], read off the listing. *)
Lemma ended_of_listing (basepath : string) (rels : list (gmap string string)) :
  omap (ended_of basepath) rels
  = (λ rel, {| ended_id := default "" (rel !! "id");
               ended_path := default "" (rel !! "target_root_path");
               ended_source_cluster := default "" (rel !! "source_cluster_name") |})
      <$> filter (λ rel, rel !! "state" = Some "ENDED"
                         ∧ Py.startswith (default "" (rel !! "target_root_path")) basepath
                           = true) rels.
Proof.
  induction rels as [|rel rels IH]; [done|].
  cbn [omap list_omap]. fold (omap (ended_of basepath) rels). rewrite IH.
  unfold ended_of at 1.
  destruct (rel !! "state") as [state|] eqn:Hstate; simpl.
  - case_bool_decide as Hended; simpl.
    + subst state.
      destruct (Py.startswith (default "" (rel !! "target_root_path")) basepath) eqn:Hunder.
      * rewrite filter_cons_True by (split; assumption). by rewrite fmap_cons.
      * rewrite filter_cons_False; [done|]. intros [_ ?]. congruence.
    + rewrite filter_cons_False; [done|]. intros [? _]. congruence.
  - rewrite filter_cons_False; [done|]. intros [? _]. congruence.
Qed.

(** X24. Once the listing is fetched [clean_ended_replications] never
    raises: it asks for the deletion of every listed relationship whose state
    is ENDED and whose target path starts with the base path, by its id (the
    empty string when the record has none), in the order of the listing and
    also after a refusal, and the count it returns is the number of those
    relationships minus one per ERROR entry it logged. *)
Theorem ended_cleanup_counts (basepath : string) (d : @Destination World)
    (rels : list (gmap string string)) (w1 : World) :
  list_target_relationship_statuses api (d_world d) = (Ok rels, w1) →
  ∃ count d' newlogs,
    clean_ended_replications api delete_target_relationship basepath d = (Ok count, d')
    ∧ d_trace d'
      = d_trace d
        ++ ListTargetStatuses
        :: ((λ rel, DeleteTargetRelationship (default "" (rel !! "id")))
              <$> filter (λ rel, rel !! "state" = Some "ENDED"
                                 ∧ Py.startswith (default "" (rel !! "target_root_path"))
                                     basepath = true) rels)
    ∧ d_logs d' = d_logs d ++ newlogs
    ∧ count + Z.of_nat (length (at_least ERROR newlogs))
      = Z.of_nat (length (filter (λ rel, rel !! "state" = Some "ENDED"
                                         ∧ Py.startswith
                                             (default "" (rel !! "target_root_path"))
                                             basepath = true) rels))
    ∧ 0 ≤ count.
Proof.
  intros Hlist.
  assert ((λ rel : gmap string string, DeleteTargetRelationship (default "" (rel !! "id")))
            <$> filter (λ rel, rel !! "state" = Some "ENDED"
                               ∧ Py.startswith (default "" (rel !! "target_root_path"))
                                   basepath = true) rels
          = DeleteTargetRelationship <$> (ended_id <$> omap (ended_of basepath) rels))
    as ->.
  { rewrite ended_of_listing, <- !list_fmap_compose. done. }
  assert (length (filter (λ rel, rel !! "state" = Some "ENDED"
                                 ∧ Py.startswith (default "" (rel !! "target_root_path"))
                                     basepath = true) rels)
          = length (omap (ended_of basepath) rels)) as ->.
  { by rewrite ended_of_listing, length_fmap. }
  unfold clean_ended_replications. rewrite Hlist.
  case_bool_decide as Hended.
  - rewrite Hended. unfold d_log. simpl. do 2 eexists. eexists [_].
    split_and!; [done|done|done|done|done].
  - match goal with |- context [fold_left _ _ (0, ?s)] =>
      destruct (delete_loop_spec (omap (ended_of basepath) rels) 0 s)
        as (count & d' & newlogs & -> & Ht & Hl & Hn & Hle) end.
    unfold d_log in *. simpl in *. exists count. eexists. eexists ([_] ++ newlogs ++ [_]).
    split_and!; [done| | | |done].
    + simpl. rewrite Ht. by rewrite <- app_assoc.
    + simpl. rewrite Hl. by rewrite <- !app_assoc.
    + rewrite !at_least_app, !length_app. simpl. lia.
Qed.

(** X25. [clean_ended_replications] only deletes what is ENDED and under
    the base path: every deletion it asks for is that of a listed
    relationship whose state is exactly ENDED and whose target path (the
    empty string when the record has none) starts with the base path. *)
Theorem ended_cleanup_only_ended (basepath : string) (d d' : @Destination World)
    (rels : list (gmap string string)) (w1 : World) (r : result Z) :
  list_target_relationship_statuses api (d_world d) = (Ok rels, w1) →
  clean_ended_replications api delete_target_relationship basepath d = (r, d') →
  ∃ new,
    d_trace d' = d_trace d ++ ListTargetStatuses :: new
    ∧ ∀ c, c ∈ new →
        ∃ rel, rel ∈ rels
               ∧ c = DeleteTargetRelationship (default "" (rel !! "id"))
               ∧ rel !! "state" = Some "ENDED"
               ∧ Py.startswith (default "" (rel !! "target_root_path")) basepath = true.
Proof.
  intros Hlist Hrun.
  destruct (ended_cleanup_counts_aux basepath d rels w1 Hlist)
    as (count & d0 & Hrun0 & Ht).
  rewrite Hrun0 in Hrun. injection Hrun as <- <-.
  eexists. split; [exact Ht|].
  intros c Hc. apply list_elem_of_fmap in Hc as (id & -> & Hid).
  apply list_elem_of_fmap in Hid as (ended & -> & Hended).
  apply list_elem_of_omap in Hended as (rel & Hrel & Hof).
  exists rel. unfold ended_of in Hof.
  destruct (bool_decide (default "" (rel !! "state") = "ENDED")) eqn:Hstate; [|done].
  destruct (Py.startswith (default "" (rel !! "target_root_path")) basepath) eqn:Hunder;
    [|done].
  simpl in Hof. injection Hof as <-. simpl.
  apply bool_decide_eq_true in Hstate.
  split_and!; [done|done| |done].
  destruct (rel !! "state") as [s|]; simpl in Hstate; [by subst|done].
Qed.

End destination_properties.

Lemma ended_cleanup_counts_witness :
  ∃ count d' newlogs,
    clean_ended_replications (scripted ended_script) (delete_unless ["t-1"]) "/backup"
      destination_start = (Ok count, d')
    ∧ d_trace d'
      = d_trace destination_start
        ++ ListTargetStatuses
        :: ((λ rel, DeleteTargetRelationship (default "" (rel !! "id")))
              <$> filter (λ rel, rel !! "state" = Some "ENDED"
                                 ∧ Py.startswith (default "" (rel !! "target_root_path"))
                                     "/backup" = true) ended_listing)
    ∧ d_logs d' = d_logs destination_start ++ newlogs
    ∧ count + Z.of_nat (length (at_least ERROR newlogs))
      = Z.of_nat (length (filter (λ rel, rel !! "state" = Some "ENDED"
                                         ∧ Py.startswith
                                             (default "" (rel !! "target_root_path"))
                                             "/backup" = true) ended_listing))
    ∧ 0 ≤ count.
Proof.
  apply (ended_cleanup_counts (scripted ended_script) (delete_unless ["t-1"]) "/backup"
           destination_start ended_listing O).
  reflexivity.
Defined.

Lemma ended_cleanup_only_ended_witness :
  ∃ new,
    d_trace (clean_ended_replications (scripted ended_script) (delete_unless ["t-1"])
               "/backup" destination_start).2
    = d_trace destination_start ++ ListTargetStatuses :: new
    ∧ ∀ c, c ∈ new →
        ∃ rel, rel ∈ ended_listing
               ∧ c = DeleteTargetRelationship (default "" (rel !! "id"))
               ∧ rel !! "state" = Some "ENDED"
               ∧ Py.startswith (default "" (rel !! "target_root_path")) "/backup" = true.
Proof.
  apply (ended_cleanup_only_ended (scripted ended_script) (delete_unless ["t-1"]) "/backup"
           destination_start _ ended_listing O
           (clean_ended_replications (scripted ended_script) (delete_unless ["t-1"])
              "/backup" destination_start).1).
  - reflexivity.
  - vm_compute. reflexivity.
Defined.

(** The cluster refuses to delete t-1: t-5 is deleted all the same, and the
    count is 1 of 2. *)
Example ended_cleanup_example :
  clean_ended_replications (scripted ended_script) (delete_unless ["t-1"]) "/backup"
    destination_start
  = (Ok 1,
     {| d_world := 1%nat;
        d_trace := [ListTargetStatuses; DeleteTargetRelationship "t-1";
                    DeleteTargetRelationship "t-5"];
        d_logs := [(INFO, "Found 2 ENDED relationship(s) to delete");
                   (INFO, "Deleting ENDED relationship: t-1 (path: /backup/a, source: src)");
                   (ERROR, "Failed to delete relationship t-1: Error 404: relationship not found");
                   (INFO, "Deleting ENDED relationship: t-5 (path: /backup/e, source: src)");
                   (INFO, "Successfully deleted relationship t-5");
                   (INFO, "Deleted 1 of 2 ENDED relationship(s)")] |}).
Proof. vm_compute. reflexivity. Qed.

(** ** The summary table *)

Lemma str_length_app (a b : string) :
  String.length (a +:+ b) = (String.length a + String.length b)%nat.
Proof. induction a as [|c a IH]; simpl; [done|]. by rewrite IH. Qed.

Lemma length_take_str (n : nat) : ∀ s : string,
  String.length (take_str n s) = (n `min` String.length s)%nat.
Proof.
  induction n as [|n IH]; intros [|c s]; simpl; try done. by rewrite IH.
Qed.

Lemma take_str_all (n : nat) : ∀ s : string,
  (String.length s ≤ n)%nat → take_str n s = s.
Proof.
  induction n as [|n IH]; intros [|c s]; simpl; try done; [lia|].
  intros Hlen. rewrite IH; [done|lia].
Qed.

Lemma length_str_repeat (c : Ascii.ascii) (n : nat) :
  String.length (str_repeat (String c "") n) = n.
Proof.
  induction n as [|n IH]; [done|].
  change (str_repeat (String c "") (S n)) with (String c (str_repeat (String c "") n)).
  cbn [String.length]. by rewrite IH.
Qed.

Lemma length_ljust (s : string) (width : nat) :
  String.length (ljust s width) = (width `max` String.length s)%nat.
Proof. unfold ljust. rewrite str_length_app, length_str_repeat. lia. Qed.

Lemma length_sorted_with {A : Type} (lt : A → A → bool) (l : list A) :
  length (sorted_with lt l) = length l.
Proof.
  assert (∀ x l', length (insert_sorted lt x l') = S (length l')) as Hins.
  { intros x l'. induction l' as [|y l' IH]; simpl; [done|].
    destruct (lt y x); simpl; [by rewrite IH|done]. }
  induction l as [|x l IH]; simpl; [done|]. by rewrite Hins, IH.
Qed.

(** The length of a truncated string. *)
Lemma _truncate_string_length (s : string) (max_len : Z) :
  3 ≤ max_len →
  Z.of_nat (String.length (_truncate_string s max_len))
  = Z.of_nat (String.length s) `min` max_len.
Proof.
  intros Hmax. unfold _truncate_string, slice_to.
  destruct (Z.leb_spec (Z.of_nat (String.length s)) max_len) as [Hfits|Hlong]; [lia|].
  destruct (Z.ltb_spec (max_len - 3) 0) as [?|_]; [lia|].
  rewrite str_length_app, length_take_str. simpl. lia.
Qed.

(** X26. For a limit of at least three characters [_truncate_string]
    returns at most that many: the string itself when it fits, and otherwise
    its first [max_len - 3] characters followed by three dots, which is
    exactly [max_len] long; truncating again changes nothing. *)
Theorem truncated_string_fits (s : string) (max_len : Z) :
  3 ≤ max_len →
  Z.of_nat (String.length (_truncate_string s max_len)) ≤ max_len
  ∧ (Z.of_nat (String.length s) ≤ max_len → _truncate_string s max_len = s)
  ∧ (max_len < Z.of_nat (String.length s) →
     _truncate_string s max_len = (take_str (Z.to_nat (max_len - 3)) s +:+ "...")%string
     ∧ Z.of_nat (String.length (_truncate_string s max_len)) = max_len)
  ∧ _truncate_string (_truncate_string s max_len) max_len = _truncate_string s max_len.
Proof.
  intros Hmax. pose proof (_truncate_string_length s max_len Hmax) as Hlen.
  split_and!.
  - lia.
  - intros Hfits. unfold _truncate_string.
    by destruct (Z.leb_spec (Z.of_nat (String.length s)) max_len); [|lia].
  - intros Hlong. split; [|lia]. unfold _truncate_string, slice_to.
    destruct (Z.leb_spec (Z.of_nat (String.length s)) max_len); [lia|].
    by destruct (Z.ltb_spec (max_len - 3) 0); [lia|].
  - unfold _truncate_string at 1.
    by destruct (Z.leb_spec (Z.of_nat (String.length (_truncate_string s max_len)))
                   max_len); [|lia].
Qed.

(** X27. Under a limit of three characters the bound is lost: a string
    longer than the limit comes back with the three dots and is longer than
    the limit, never shorter than three characters. *)
Theorem truncation_below_three (s : string) (max_len : Z) :
  max_len < 3 → max_len < Z.of_nat (String.length s) →
  _truncate_string s max_len
  = (take_str (Z.to_nat (Z.of_nat (String.length s) + max_len - 3)) s +:+ "...")%string
  ∧ max_len < Z.of_nat (String.length (_truncate_string s max_len))
  ∧ 3 ≤ Z.of_nat (String.length (_truncate_string s max_len)).
Proof.
  intros Hsmall Hlong. unfold _truncate_string, slice_to.
  destruct (Z.leb_spec (Z.of_nat (String.length s)) max_len); [lia|].
  destruct (Z.ltb_spec (max_len - 3) 0); [|lia].
  replace (Z.of_nat (String.length s) + (max_len - 3))
    with (Z.of_nat (String.length s) + max_len - 3) by lia.
  split; [done|]. rewrite str_length_app, length_take_str. simpl. lia.
Qed.

Lemma table_header_width (cluster_type : string) :
  String.length (table_header (columns_of cluster_type)) = 133%nat.
Proof. unfold columns_of. case_bool_decide; vm_compute; reflexivity. Qed.

Lemma ljust_truncated_width (s : string) (width : nat) :
  (3 ≤ width)%nat →
  String.length (ljust (_truncate_string s (Z.of_nat width)) width) = width.
Proof.
  intros Hwidth. rewrite length_ljust.
  pose proof (_truncate_string_length s (Z.of_nat width) ltac:(lia)). lia.
Qed.

Lemma table_row_width (c : columns) (rel : gmap string string) :
  String.length (table_row c rel) = 133%nat.
Proof.
  unfold table_row. rewrite !str_length_app.
  rewrite !ljust_truncated_width
    by (unfold SOURCE_PATH_WIDTH, TARGET_PATH_WIDTH, STATE_WIDTH, CLUSTER_WIDTH; lia).
  rewrite length_ljust, length_take_str.
  unfold SOURCE_PATH_WIDTH, TARGET_PATH_WIDTH, STATE_WIDTH, CLUSTER_WIDTH, ID_WIDTH.
  simpl String.length. lia.
Qed.

(** X28. The table is of fixed width: when there are relationships,
    [_display_cluster_summary] prints six lines of heading and a blank, then
    the header, a rule and one row per relationship, and the header, the rule
    and every row are exactly 133 characters wide, however long the paths,
    states, cluster names and ids of the relationships are. *)
Theorem summary_table_is_fixed_width (info : cluster_info) (cluster_type : string)
    (rels : list (gmap string string)) :
  info_relationships info = Some rels → rels ≠ [] →
  ∃ top header rule rows bottom,
    _display_cluster_summary info cluster_type = top ++ header :: rule :: rows ++ bottom
    ∧ length top = 7%nat
    ∧ length rows = length rels
    ∧ Forall (λ line, String.length line = 133%nat) (header :: rule :: rows)
    ∧ bottom = [(newline +:+ ljust "State" 25 +:+ " | " +:+ ljust "Count" 10)%string;
                str_repeat "-" 38]
               ++ (count_row <$> sorted_with item_lt (state_counts_of rels)).
Proof.
  intros Hrels Hne. unfold _display_cluster_summary. rewrite Hrels. simpl default.
  rewrite bool_decide_eq_false_2 by done.
  eexists [_; _; _; _; _; _; _], _, _, _, _. split_and!.
  - cbn [app]. reflexivity.
  - reflexivity.
  - by rewrite length_fmap, length_sorted_with.
  - rewrite table_header_width. constructor; [apply table_header_width|].
    constructor; [apply length_str_repeat|].
    apply Forall_fmap, Forall_true. intros rel. apply table_row_width.
  - reflexivity.
Qed.

Lemma total_load_count (d : odict string Z) (k : string) :
  total_load (od_set k (default 0 (od_get d k) + 1) d) = total_load d + 1.
Proof.
  unfold total_load. induction d as [|[k' v'] d IH]; [done|].
  cbn [od_set od_get]. destruct (decide (k = k')) as [->|Hne].
  - rewrite !fmap_cons. cbn [foldr snd]. unfold default, id. lia.
  - rewrite !fmap_cons. cbn [foldr snd]. rewrite IH. lia.
Qed.

Lemma state_counts_fold (rels : list (gmap string string)) :
  ∀ acc : odict string Z,
    NoDup (od_keys acc) →
    NoDup (od_keys (fold_left count_state rels acc))
    ∧ total_load (fold_left count_state rels acc)
      = total_load acc + Z.of_nat (length rels)
    ∧ (∀ s, default 0 (od_get (fold_left count_state rels acc) s)
            = default 0 (od_get acc s)
              + Z.of_nat (length (filter (λ rel, default "UNKNOWN" (rel !! "state") = s)
                                    rels)))
    ∧ (∀ s, s ∈ od_keys (fold_left count_state rels acc)
            ↔ s ∈ od_keys acc ∨ ∃ rel, rel ∈ rels ∧ default "UNKNOWN" (rel !! "state") = s).
Proof.
  induction rels as [|rel rels IH]; intros acc Hnd.
  - simpl. split_and!; [done|lia|intros s; lia|].
    intros s. split; [by left|]. intros [?|(rel & Hin & _)]; [done|].
    by apply elem_of_nil in Hin.
  - cbn [fold_left].
    destruct (IH (count_state acc rel)) as (Hnd' & Htotal & Hcount & Hkeys).
    { unfold count_state. by apply od_keys_set_NoDup. }
    split_and!; [done| | |].
    + rewrite Htotal. unfold count_state. rewrite total_load_count.
      rewrite length_cons. lia.
    + intros s. rewrite Hcount. unfold count_state.
      destruct (decide (default "UNKNOWN" (rel !! "state") = s)) as [<-|Hne].
      * rewrite od_get_set_eq, filter_cons_True by done. simpl. lia.
      * rewrite od_get_set_ne, filter_cons_False by done. done.
    + intros s. rewrite Hkeys. unfold count_state.
      assert (s ∈ od_keys (od_set (default "UNKNOWN" (rel !! "state"))
                             (default 0 (od_get acc (default "UNKNOWN" (rel !! "state"))) + 1)
                             acc)
              ↔ s ∈ od_keys acc ∨ default "UNKNOWN" (rel !! "state") = s) as ->.
      { rewrite <- !od_get_is_Some.
        destruct (decide (default "UNKNOWN" (rel !! "state") = s)) as [<-|Hne].
        - rewrite od_get_set_eq. split; [by right|eauto].
        - rewrite od_get_set_ne by done. tauto. }
      split.
      * intros [[?|?]|(rel' & Hin & ?)]; [by left| |].
        -- right. exists rel. split; [left|done].
        -- right. exists rel'. split; [by right|done].
      * intros [?|(rel' & Hin & ?)]; [by left; left|].
        apply elem_of_cons in Hin as [->|Hin]; [by left; right|].
        right. by exists rel'.
Qed.

(** X29. The state summary tallies every relationship once: the states
    counted are those of the relationships (UNKNOWN for a record without a
    state), each listed once, the count of a state is the number of
    relationships in it, and the counts add up to the number of
    relationships. *)
Theorem state_counts_tally (rels : list (gmap string string)) :
  NoDup (od_keys (state_counts_of rels))
  ∧ (∀ s, s ∈ od_keys (state_counts_of rels)
          ↔ ∃ rel, rel ∈ rels ∧ default "UNKNOWN" (rel !! "state") = s)
  ∧ (∀ s, default 0 (od_get (state_counts_of rels) s)
          = Z.of_nat (length (filter (λ rel, default "UNKNOWN" (rel !! "state") = s) rels)))
  ∧ total_load (state_counts_of rels) = Z.of_nat (length rels).
Proof.
  destruct (state_counts_fold rels []) as (Hnd & Htotal & Hcount & Hkeys);
    [apply NoDup_nil_2|].
  unfold state_counts_of. split_and!; [done| | |].
  - intros s. rewrite Hkeys. split; [|by right].
    intros [Hin|?]; [|done]. by apply elem_of_nil in Hin.
  - intros s. rewrite Hcount. simpl. lia.
  - rewrite Htotal. unfold total_load. simpl. lia.
Qed.

Lemma truncated_string_fits_witness :
  Z.of_nat (String.length (_truncate_string "/data/a-very-long-directory-name" 15)) ≤ 15
  ∧ (Z.of_nat (String.length "/data/a-very-long-directory-name") ≤ 15
     → _truncate_string "/data/a-very-long-directory-name" 15
       = "/data/a-very-long-directory-name")
  ∧ (15 < Z.of_nat (String.length "/data/a-very-long-directory-name") →
     _truncate_string "/data/a-very-long-directory-name" 15
     = (take_str (Z.to_nat (15 - 3)) "/data/a-very-long-directory-name" +:+ "...")%string
     ∧ Z.of_nat (String.length (_truncate_string "/data/a-very-long-directory-name" 15))
       = 15)
  ∧ _truncate_string (_truncate_string "/data/a-very-long-directory-name" 15) 15
    = _truncate_string "/data/a-very-long-directory-name" 15.
Proof.
  apply (truncated_string_fits "/data/a-very-long-directory-name" 15). lia.
Defined.

Lemma truncation_below_three_witness :
  _truncate_string "abcdef" 2
  = (take_str (Z.to_nat (Z.of_nat (String.length "abcdef") + 2 - 3)) "abcdef"
     +:+ "...")%string
  ∧ 2 < Z.of_nat (String.length (_truncate_string "abcdef" 2))
  ∧ 3 ≤ Z.of_nat (String.length (_truncate_string "abcdef" 2)).
Proof.
  apply (truncation_below_three "abcdef" 2).
  - lia.
  - vm_compute. reflexivity.
Defined.

Example truncation_below_three_example : _truncate_string "abcdef" 2 = "abcde...".
Proof. vm_compute. reflexivity. Qed.

Lemma summary_table_is_fixed_width_witness :
  ∃ top header rule rows bottom,
    _display_cluster_summary summary_info "Source"
    = top ++ header :: rule :: rows ++ bottom
    ∧ length top = 7%nat
    ∧ length rows
      = length [summary_rel "a1b2c3d4-e5f6-7890-abcd-ef1234567890" "/data/zeta" "ESTABLISHED";
                summary_rel "b2"
                  "/data/a-very-long-directory-name-that-does-not-fit-the-column" "ENDED";
                summary_rel "c3" "/data/alpha" "ESTABLISHED"]
    ∧ Forall (λ line, String.length line = 133%nat) (header :: rule :: rows)
    ∧ bottom
      = [(newline +:+ ljust "State" 25 +:+ " | " +:+ ljust "Count" 10)%string;
         str_repeat "-" 38]
        ++ (count_row
              <$> sorted_with item_lt
                    (state_counts_of
                       [summary_rel "a1b2c3d4-e5f6-7890-abcd-ef1234567890" "/data/zeta"
                          "ESTABLISHED";
                        summary_rel "b2"
                          "/data/a-very-long-directory-name-that-does-not-fit-the-column"
                          "ENDED";
                        summary_rel "c3" "/data/alpha" "ESTABLISHED"])).
Proof.
  apply (summary_table_is_fixed_width summary_info "Source").
  - reflexivity.
  - discriminate.
Defined.

Example summary_rows_example :
  drop 9 (_display_cluster_summary summary_info "Source")
  = ["/data/a-very-long-directory-name... | /data/a-very-long-directory-name... | ENDED           | dst-cluster          | b2              ";
     "/data/alpha                         | /data/alpha                         | ESTABLISHED     | dst-cluster          | c3              ";
     "/data/zeta                          | /data/zeta                          | ESTABLISHED     | dst-cluster          | a1b2c3d4-e5f6-78";
     (newline +:+ "State                     | Count     ")%string;
     "--------------------------------------";
     "ENDED                     | 1         ";
     "ESTABLISHED               | 2         "].
Proof. vm_compute. reflexivity. Qed.

(** ** The create action *)

Section action_properties.
Context {World Client : Type} (api : @Collaborator World Client).

(** A refresh asks for no creation and leaves the pool alone. *)
Lemma populate_frame (st st' : @State World) (r : result unit) :
  populate_replication_cache api st = (r, st') →
  the_tc st' = the_tc st
  ∧ ∃ asked, trace st' = trace st ++ asked ∧ Forall (λ c, is_create c = false) asked.
Proof.
  unfold populate_replication_cache, get_source_info, bind, call, raise, ret, get_rm, set_rm.
  simpl.
  destruct (get_cluster_conf api (world st)) as [[conf|e1] w1]; simpl.
  - destruct (conf !! "cluster_name") as [name|]; simpl.
    + destruct (list_source_relationship_statuses api w1) as [[rels|e2] w2]; simpl;
        intros [= _ <-]; simpl; (split; [done|]); eexists [_; _];
        (split; [by rewrite <- app_assoc|by repeat constructor]).
    + intros [= _ <-]. simpl. split; [done|]. eexists [_].
      split; [done|by repeat constructor].
  - intros [= _ <-]. simpl. split; [done|]. eexists [_].
    split; [done|by repeat constructor].
Qed.

(** The addresses a run of [create_replications] creates at. *)
Lemma create_replications_addresses (basepath : string) (st st' : @State World) r :
  create_replications api basepath st = (r, st') →
  ∃ new,
    trace st' = trace st ++ new
    ∧ ∀ address source_path target_path,
        CreateSourceRelationship address source_path target_path ∈ new →
        target_path = source_path ∧ address ∈ od_keys (dst_load (the_tc st)).
Proof.
  intros Hrun.
  destruct (tree_walk_preorder api basepath 1 (world st)) as [[entries|e] w] eqn:Hwalk.
  - destruct (create_replications_safe api basepath st st' r entries w Hwalk Hrun)
      as (new & Ht & Hnew & _).
    exists (TreeWalkPreorder basepath 1 :: new). split; [done|].
    intros address source_path target_path Hin.
    apply elem_of_cons in Hin as [Heq|Hin]; [done|].
    rewrite Forall_forall in Hnew. by destruct (Hnew _ Hin) as (? & _ & ?).
  - unfold create_replications in Hrun. unfold bind at 1 in Hrun.
    unfold call at 1 in Hrun. rewrite Hwalk in Hrun. injection Hrun as _ <-.
    exists [TreeWalkPreorder basepath 1]. split; [done|].
    intros address source_path target_path Hin.
    apply list_elem_of_singleton in Hin. done.
Qed.

(** X30. A create run only replicates to floating addresses of the
    requested network: whatever the clusters answer afterwards, every
    relationship [main] asks for in the create action goes from a path to the
    same path at a floating address of the first reported network of the
    requested id, and at an address of the user's list when one was given. *)
Theorem creations_go_to_floating_addresses (dst : option (list string))
    (dst_network_id : Z) (basepath : string) (st st' : @State World) (r : result pyval)
    (fip_data : list network) (w : World) :
  get_floating_ip_allocation api (world st) = (Ok fip_data, w) →
  create_action api dst dst_network_id basepath st = (r, st') →
  ∃ new,
    trace st' = trace st ++ new
    ∧ ∀ address source_path target_path,
        CreateSourceRelationship address source_path target_path ∈ new →
        target_path = source_path
        ∧ (∃ (i : nat) n fips,
             list_find (λ n, net_id n = Some dst_network_id) fip_data = Some (i, n)
             ∧ net_floating_addresses n = Some fips
             ∧ address ∈ fips)
        ∧ (∀ ip rest, dst = Some (ip :: rest) → address ∈ ip :: rest).
Proof.
  intros Hfip. unfold create_action. unfold bind at 1. unfold set_rm at 1.
  unfold bind at 1. unfold log at 1. unfold bind at 1.
  match goal with |- context [TargetCluster_init api dst (Some dst_network_id) ?s] =>
    set (s0 := s) end.
  destruct (TargetCluster_init api dst (Some dst_network_id) s0) as [[tc|e] st1] eqn:Hinit.
  - destruct (TargetCluster_init_pool api dst (Some dst_network_id) s0 st1 tc fip_data w
                Hfip Hinit) as (i & n & fips & Hfind & Hfa & Hin & Havail & _ & Ht1).
    destruct (TargetCluster_init_ok api _ _ _ _ _ Hinit) as [_ Hload].
    unfold bind at 1. unfold set_tc at 1. unfold bind at 1.
    match goal with |- context [populate_replication_cache api ?s] =>
      destruct (populate_replication_cache api s) as [[[]|e] st2] eqn:Hpop end.
    + apply populate_frame in Hpop as (Htc2 & asked & Ht2 & Hasked).
      intros Hrun.
      apply create_replications_addresses in Hrun as (new & Ht & Hnew).
      simpl in *. exists ([GetFloatingIpAllocation] ++ asked ++ new).
      split; [rewrite Ht, Ht2, Ht1; by rewrite <- !app_assoc|].
      intros address source_path target_path Hc.
      apply elem_of_app in Hc as [Hc|Hc];
        [apply list_elem_of_singleton in Hc; done|].
      apply elem_of_app in Hc as [Hc|Hc].
      { rewrite Forall_forall in Hasked. by apply Hasked in Hc. }
      destruct (Hnew _ _ _ Hc) as [Htarget Haddr].
      rewrite Htc2, Hload in Haddr.
      destruct (zero_loads_spec (available_ips tc) []) as (_ & _ & Hkeys);
        [constructor|constructor|].
      apply Hkeys in Haddr as [Haddr|Haddr]; [by apply elem_of_nil in Haddr|].
      split_and!; [done|by exists i, n, fips; auto|].
      intros ip rest ->. by rewrite <- Havail.
    + intros [= _ <-].
      apply populate_frame in Hpop as (_ & asked & Ht2 & Hasked).
      simpl in *. exists ([GetFloatingIpAllocation] ++ asked).
      split; [rewrite Ht2, Ht1; by rewrite <- !app_assoc|].
      intros address source_path target_path Hc.
      apply elem_of_app in Hc as [Hc|Hc];
        [apply list_elem_of_singleton in Hc; done|].
      rewrite Forall_forall in Hasked. by apply Hasked in Hc.
  - intros [= _ <-].
    assert (∃ new, trace st1 = trace st ++ new
                   ∧ Forall (λ c, is_create c = false) new) as (new & Ht & Hnew).
    { clear -Hinit.
      assert (∀ (r0 : result (list string)) s1,
                get_dst_ips api (Some dst_network_id) s0 = (r0, s1) →
                trace s1 = trace st ++ [GetFloatingIpAllocation]) as Hget.
      { intros r0 s1. unfold get_dst_ips, bind, call, raise, ret.
        destruct (get_floating_ip_allocation api (world s0)) as [[fips|e0] w0];
          [|by intros [= _ <-]].
        destruct (list_find _ fips) as [[i n]|]; [|by intros [= _ <-]].
        destruct (network_truthy n); [|by intros [= _ <-]].
        case_bool_decide; by intros [= _ <-]. }
      exists [GetFloatingIpAllocation]. split; [|by repeat constructor].
      unfold TargetCluster_init in Hinit. unfold bind at 1 in Hinit.
      destruct dst as [[|ip rest]|].
      - destruct (get_dst_ips api (Some dst_network_id) s0) as [[ips|e0] s1] eqn:Hrun.
        + unfold bind, log, ret in Hinit. by destruct ips as [|ip0 [|ip1 ips]].
        + injection Hinit as _ <-. by eapply Hget.
      - unfold _validate_ips in Hinit. unfold bind at 1 in Hinit.
        destruct (get_dst_ips api (Some dst_network_id) s0) as [[ips|e0] s1] eqn:Hrun.
        + case_bool_decide.
          * unfold bind, log, ret in Hinit. simpl in Hinit. by destruct rest.
          * unfold raise in Hinit. injection Hinit as _ <-. by eapply Hget.
        + injection Hinit as _ <-. by eapply Hget.
      - destruct (get_dst_ips api (Some dst_network_id) s0) as [[ips|e0] s1] eqn:Hrun.
        + unfold bind, log, ret in Hinit. by destruct ips as [|ip0 [|ip1 ips]].
        + injection Hinit as _ <-. by eapply Hget. }
    exists new. split; [done|].
    intros address source_path target_path Hc.
    rewrite Forall_forall in Hnew. by apply Hnew in Hc.
Qed.

End action_properties.

Lemma creations_go_to_floating_addresses_witness :
  ∃ new,
    trace (create_action (scripted rerun_script) (Some ["10.1.1.21"]) 1 "/data"
             (initial ReplicationManager_init empty_tc)).2
    = trace (initial ReplicationManager_init empty_tc) ++ new
    ∧ ∀ address source_path target_path,
        CreateSourceRelationship address source_path target_path ∈ new →
        target_path = source_path
        ∧ (∃ (i : nat) n fips,
             list_find (λ n, net_id n = Some 1)
               [default_network ["10.1.1.20"; "10.1.1.21"]] = Some (i, n)
             ∧ net_floating_addresses n = Some fips
             ∧ address ∈ fips)
        ∧ (∀ ip rest, Some ["10.1.1.21"] = Some (ip :: rest) → address ∈ ip :: rest).
Proof.
  apply (creations_go_to_floating_addresses (scripted rerun_script) (Some ["10.1.1.21"]) 1
           "/data" (initial ReplicationManager_init empty_tc) _
           (create_action (scripted rerun_script) (Some ["10.1.1.21"]) 1 "/data"
              (initial ReplicationManager_init empty_tc)).1
           [default_network ["10.1.1.20"; "10.1.1.21"]] O).
  - reflexivity.
  - vm_compute. reflexivity.
Defined.

Example create_action_example :
  trace (create_action (scripted rerun_script) (Some ["10.1.1.21"]) 1 "/data"
           (initial ReplicationManager_init empty_tc)).2
  = [GetFloatingIpAllocation; GetClusterConf; ListSourceRelationshipStatuses;
     TreeWalkPreorder "/data" 1;
     CreateSourceRelationship "10.1.1.21" (Some "/data/project2") (Some "/data/project2")].
Proof. vm_compute. reflexivity. Qed.
